(** * LangPilot: the agent turn loop, its progress trace and its thread memory

    A shallow embedding of [app/agent/memory.py], [app/agent/runner.py] and of
    the monolithic [main.py], followed by the properties of the turn loop:
    the drain cursor, the read offsets kept per thread, the role labels, the
    2000 character cap and the final answer text; then the tools and the
    API key prompt. *)

From Stdlib Require Import ZArith NArith Ascii String List Lia Bool.
From Stdlib Require Strings.Byte.
From stdpp Require Import base option list sorting gmap strings pretty.

Declare Scope str_scope.
Delimit Scope str_scope with str.

(** ** Text *)

(** A Python [str] is the list of its code points. *)
Definition str : Type := list N.

(** Text between double quotes is read as the code points its UTF-8 bytes
    spell: ["好"] is the one code point 22909. *)
Module Literal.

Inductive code_points : Type :=
  | CNil
  | CCons (point : N) (rest : code_points).

(** [n] continuation bytes, each [10xxxxxx], added to [acc]. *)
Fixpoint continuation (n : nat) (acc : N) (bytes : list N)
  : option (N * list N) :=
  match n with
  | O => Some (acc, bytes)
  | S n' =>
      match bytes with
      | b :: rest =>
          if ((128 <=? b) && (b <? 192))%N
          then continuation n' (acc * 64 + (b - 128))%N rest
          else None
      | [] => None
      end
  end.

Fixpoint decode (fuel : nat) (bytes : list N) : option (list N) :=
  match fuel, bytes with
  | _, [] => Some []
  | O, _ :: _ => None
  | S fuel', b :: rest =>
      let lead :=
        if (b <? 128)%N then Some (0%nat, b)
        else if ((192 <=? b) && (b <? 224))%N then Some (1%nat, (b - 192)%N)
        else if ((224 <=? b) && (b <? 240))%N then Some (2%nat, (b - 224)%N)
        else if ((240 <=? b) && (b <? 248))%N then Some (3%nat, (b - 240)%N)
        else None in
      match lead with
      | None => None
      | Some (n, acc) =>
          match continuation n acc rest with
          | None => None
          | Some (point, rest') =>
              match decode fuel' rest' with
              | None => None
              | Some points => Some (point :: points)
              end
          end
      end
  end.

Definition of_bytes (bytes : list Byte.byte) : option code_points :=
  let ns := map Byte.to_N bytes in
  option_map (fold_right CCons CNil) (decode (length ns) ns).

Definition encode_point (p : N) : list N :=
  (if p <? 128 then [p]
   else if p <? 2048 then [192 + p / 64; 128 + p mod 64]
   else if p <? 65536
   then [224 + p / 4096; 128 + (p / 64) mod 64; 128 + p mod 64]
   else [240 + p / 262144; 128 + (p / 4096) mod 64;
         128 + (p / 64) mod 64; 128 + p mod 64])%N.

Fixpoint to_bytes (points : code_points) : list Byte.byte :=
  match points with
  | CNil => []
  | CCons p rest => omap Byte.of_N (encode_point p) ++ to_bytes rest
  end.

End Literal.

#[warnings="-via-type-mismatch,-via-type-remapping"]
String Notation list Literal.of_bytes Literal.to_bytes
  (via Literal.code_points
   mapping [[nil] => Literal.CNil, [cons] => Literal.CCons])
  : str_scope.

(** [a + b] on two [str]. *)
Infix "+:+" := (@app N)
  (at level 60, right associativity, only parsing) : str_scope.

Local Open Scope list_scope.
Local Open Scope str_scope.
Local Open Scope Z_scope.

(** ** Python values the code handles *)

Module Py.

Definition nl : str := [10%N].

(** [str.isspace] on one character, which is what [str.strip] goes by. *)
Definition is_space (c : N) : bool :=
  ((9 <=? c) && (c <=? 13) || (28 <=? c) && (c <=? 32)
   || (c =? 133) || (c =? 160) || (c =? 5760)
   || (8192 <=? c) && (c <=? 8202) || (c =? 8232) || (c =? 8233)
   || (c =? 8239) || (c =? 8287) || (c =? 12288))%N.

(** [str.lower] on a character below U+0100: the letters A to Z, and
    the letters from U+00C0 to U+00DE, the sign U+00D7 apart. *)
Definition lower_latin1 (c : N) : N :=
  if ((65 <=? c) && (c <=? 90)
      || (192 <=? c) && (c <=? 222) && negb (c =? 215))%N
  then (c + 32)%N else c.

(** Beyond U+00FF [str.lower] goes by the case mappings of the Unicode
    database of the interpreter, which is outside the repository: it is
    a parameter here, known only on the text whose characters are all
    below U+0100. *)
Class Unicode : Type := {
  lower : str -> str;
  lower_of_latin1 (s : str) :
    Forall (fun c => (c < 256)%N) s -> lower s = map lower_latin1 s
}.

(** [a == b] on two [str]. *)
Definition str_eqb (a b : str) : bool := bool_decide (a = b).

(** [s.startswith(prefix)] *)
Fixpoint startswith (prefix s : str) : bool :=
  match prefix, s with
  | [], _ => true
  | p :: prefix', c :: s' => (p =? c)%N && startswith prefix' s'
  | _ :: _, [] => false
  end.

(** [a < b] on two [str]: by code points, a proper prefix being smaller. *)
Fixpoint str_ltb (a b : str) : bool :=
  match a, b with
  | _, [] => false
  | [], _ :: _ => true
  | x :: a', y :: b' =>
      if (x <? y)%N then true
      else if (y <? x)%N then false
      else str_ltb a' b'
  end.

Fixpoint lstrip (s : str) : str :=
  match s with
  | [] => []
  | c :: s' => if is_space c then lstrip s' else s
  end.

Fixpoint rstrip (s : str) : str :=
  match s with
  | [] => []
  | c :: s' =>
      match rstrip s' with
      | [] => if is_space c then [] else [c]
      | r => c :: r
      end
  end.

(** [s.strip()] *)
Definition strip (s : str) : str := rstrip (lstrip s).

(** [len(s)] *)
Definition len (s : str) : Z := Z.of_nat (length s).

(** [s[:n]] for a constant [n >= 0]. *)
Fixpoint slice_to (n : nat) (s : str) : str :=
  match n, s with
  | S n', c :: s' => c :: slice_to n' s'
  | _, _ => []
  end.

(** Truth value of a [str]. *)
Definition truthy (s : str) : bool :=
  match s with [] => false | _ => true end.

(** [a or b] on two [str]. *)
Definition str_or (a b : str) : str := if truthy a then a else b.

(** [l[i:]] with Python's reading of a negative [i]. *)
Definition slice_from {A} (i : Z) (l : list A) : list A :=
  let n := Z.of_nat (length l) in
  let i' := if i <? 0 then Z.max 0 (n + i) else i in
  drop (Z.to_nat i') l.

(** The text of a [string] of ASCII, such as the digits of a number. *)
Fixpoint of_ascii (s : string) : str :=
  match s with
  | EmptyString => []
  | String c s' => N_of_ascii c :: of_ascii s'
  end.

(** A value that is either a [str] or some other object. The code only
    asks of the latter whether it is a [str], its [str()] text and, by
    calling [.strip()] on it, the name of its type. *)
Inductive pyval : Type :=
  | PyStr (s : str)
  | PyOther (type_name : str) (shown : str).

(** [str(v)] *)
Definition str_of (v : pyval) : str :=
  match v with PyStr s => s | PyOther _ shown => shown end.

(** An exception, kept as the text [str(e)] gives. *)
Inductive exn : Type := Exception (message : str).

Definition exn_str (e : exn) : str := match e with Exception t => t end.

Inductive result (A : Type) : Type :=
  | Ok (a : A)
  | Raise (e : exn).
Arguments Ok {A} a.
Arguments Raise {A} e.

Definition AttributeError (type_name attr : str) : exn :=
  Exception
    ("'" +:+ type_name +:+ "' object has no attribute '" +:+ attr +:+ "'").

(** [v.strip()]: of the values a message content, an ["output"] field or a
    [str()] text can be (a [str], a list of content blocks), only a [str]
    has the method. *)
Definition strip_method (v : pyval) : result str :=
  match v with
  | PyStr s => Ok (strip s)
  | PyOther ty _ => Raise (AttributeError ty "strip")
  end.

(** What the process writes and does to the terminal, in order. [Emit idx t]
    is the [print] of the trace loop, with the loop's counter [idx]. *)
Inductive event : Type :=
  | Print (line : str)
  | Emit (idx : Z) (line : str)
  | SpinnerStart
  | SpinnerStop.

End Py.
Import Py.

(** ** The state of the process and its effects *)

Module Process.

(** A conversation message as the code reads it: through [getattr] on
    [type], [role] and [content], and through [str()]. LangChain declares
    [type] and [role] as [str]; [None] stands for an attribute that is
    absent or holds [None]. [msg_content] is [None] when the attribute is
    absent. *)
Record Message : Type := {
  msg_type : option str;
  msg_role : option str;
  msg_content : option pyval;
  msg_str : str;
}.

(** A checkpoint is a dict; the code reads ["channel_values"] and in it
    ["messages"], each with a default for a missing key. *)
Record ChannelValues : Type := { cv_messages : option (list Message) }.
Record Checkpoint : Type := { channel_values : option ChannelValues }.

(** The checkpoint store ([InMemorySaver] of langgraph) is outside the
    repository. The code calls two of its methods with the thread id as
    configuration; either may raise. *)
Class CheckpointSaver (Store : Type) : Type := {
  saver_get : Store -> str -> result (option Checkpoint);
  saver_delete : Store -> str -> Store * result unit;
}.

(** What [agent.invoke] returns: a dict, read through ["messages"],
    ["output"] and [str()]. *)
Record Result : Type := {
  r_messages : option (list Message);
  r_output : option pyval;
  r_str : str;
}.

(** The dict [{}]. *)
Definition empty_dict : Result :=
  {| r_messages := None; r_output := None; r_str := "{}" |}.

(** What one call of [agent.invoke] amounts to for the calling thread:
    the store as it stands at each turn of the polling loop while the
    worker is alive, the store once the worker has ended, and what
    [invoke] returned or raised. The agent itself (langchain, the model
    behind it) is outside the repository. *)
Record Invocation (Store : Type) : Type := {
  seen_while_alive : list Store;
  seen_at_end : Store;
  outcome : result Result;
}.
Arguments seen_while_alive {Store} _.
Arguments seen_at_end {Store} _.
Arguments outcome {Store} _.

Section State.
Context {Store : Type}.

(** The two module globals: [memory_checkpointer] of [memory.py] and
    [_history_offsets] of [runner.py]. *)
Record World : Type := {
  memory_checkpointer : Store;
  _history_offsets : gmap str Z;
}.

(** A computation reads and writes the globals, writes to the terminal
    and returns or raises. What was written and stored before an
    exception stays. *)
Definition M (A : Type) : Type := World -> World * list event * result A.

Definition ret {A} (a : A) : M A := fun w => (w, [], Ok a).

Definition raise {A} (e : exn) : M A := fun w => (w, [], Raise e).

Definition bind {A B} (m : M A) (k : A -> M B) : M B :=
  fun w =>
    match m w with
    | (w1, out1, Ok a) =>
        match k a w1 with
        | (w2, out2, r) => (w2, out1 ++ out2, r)
        end
    | (w1, out1, Raise e) => (w1, out1, Raise e)
    end.

(** [try: m  except Exception as e: h e] *)
Definition try_except {A} (m : M A) (h : exn -> M A) : M A :=
  fun w =>
    match m w with
    | (w1, out1, Raise e) =>
        match h e w1 with
        | (w2, out2, r) => (w2, out1 ++ out2, r)
        end
    | done => done
    end.

Definition emit (ev : event) : M unit := fun w => (w, [ev], Ok tt).

Definition print (text : str) : M unit := emit (Print text).

Definition lift {A} (r : result A) : M A := fun w => (w, [], r).

Definition get_world : M World := fun w => (w, [], Ok w).

Definition put_world (w' : World) : M unit := fun _ => (w', [], Ok tt).

(** The executor writes to the store behind the caller's back: the store
    becomes [st]. *)
Definition store_becomes (st : Store) : M unit :=
  fun w => ({| memory_checkpointer := st;
               _history_offsets := _history_offsets w |}, [], Ok tt).

(** [_history_offsets.get(thread_id, 0)] *)
Definition offset_get (thread_id : str) : M Z :=
  fun w => (w, [], Ok (default 0 (_history_offsets w !! thread_id))).

(** [_history_offsets[thread_id] = n] *)
Definition offset_set (thread_id : str) (n : Z) : M unit :=
  fun w => ({| memory_checkpointer := memory_checkpointer w;
               _history_offsets := <[thread_id := n]> (_history_offsets w) |},
            [], Ok tt).

End State.
Arguments World Store : clear implicits.
Arguments M Store A : clear implicits.

End Process.
Import Process.

Notation "'do' x <- m ;; k" := (bind m (fun x => k))
  (at level 10, x name, m at level 99, k at level 200, only parsing).
Notation "'do' ' pat <- m ;; k" := (bind m (fun x => let 'pat := x in k))
  (at level 10, pat pattern, m at level 99, k at level 200, only parsing).
Notation "'exec' m ;; k" := (bind m (fun _ => k))
  (at level 10, m at level 99, k at level 200, only parsing).

(** ** app/agent/memory.py *)

Module Memory.
Section Memory.
Context {Store : Type} `{!CheckpointSaver Store} `{!Unicode}.

(** [memory_checkpointer.get({"configurable": {"thread_id": thread_id}})] *)
Definition checkpointer_get (thread_id : str)
  : M Store (option Checkpoint) :=
  do w <- get_world ;; lift (saver_get (memory_checkpointer w) thread_id).

(** [memory_checkpointer.delete({"configurable": {"thread_id": thread_id}})] *)
Definition checkpointer_delete (thread_id : str) : M Store unit :=
  do w <- get_world ;;
  let '(st, r) := saver_delete (memory_checkpointer w) thread_id in
  exec put_world {| memory_checkpointer := st;
                    _history_offsets := _history_offsets w |} ;;
  lift r.

Definition clear_memory (thread_id : str) : M Store unit :=
  try_except
    (exec checkpointer_delete thread_id ;;
     print ("🧹 已清除对话记忆 (线程: " +:+ thread_id +:+ ")"))
    (fun e => print ("❌ 清除记忆失败：" +:+ exn_str e)).

(** [checkpoint.get("channel_values", {}).get("messages", []) or []] *)
Definition checkpoint_messages (checkpoint : Checkpoint) : list Message :=
  match channel_values checkpoint with
  | None => []
  | Some values =>
      match cv_messages values with
      | None => []
      | Some [] => []
      | Some messages => messages
      end
  end.

Definition get_messages (thread_id : str) : M Store (list Message) :=
  try_except
    (do checkpoint <- checkpointer_get thread_id ;;
     match checkpoint with
     | None => ret []
     | Some checkpoint => ret (checkpoint_messages checkpoint)
     end)
    (fun _ => ret []).

End Memory.
End Memory.

(** ** Pieces shared by the two entry points *)

Module Text.

(** ["=" * n] and the like. *)
Fixpoint str_mul (s : str) (n : nat) : str :=
  match n with
  | O => []
  | S n' => s +:+ str_mul s n'
  end.

(** [l[-1]] of the non-empty list [first :: rest]. *)
Definition last_of {A} (first : A) (rest : list A) : A :=
  List.last rest first.

Definition trace_header : str := nl +:+ "📜 === 执行过程 ===".
Definition label_system : str := "系统提示".
Definition label_user : str := "用户输入".
Definition label_model : str := "模型响应".
Definition truncation_marker : str := "...（已截断）".

End Text.
Import Text.

(** ** app/agent/runner.py *)

Module Runner.
Section Runner.
Context {Store : Type} `{!CheckpointSaver Store} `{!Unicode}.

(** [result_box]: a dict that holds ["result"], ["error"], or neither. *)
Record Container : Type := {
  box_result : option Result;
  box_error : option exn;
}.

Definition _invoke_agent (invoke : result Result) (container : Container)
  : Container :=
  match invoke with
  | Ok r => {| box_result := Some r; box_error := box_error container |}
  | Raise exc => {| box_result := box_result container; box_error := Some exc |}
  end.

(** The [if]/[elif]/[else] that picks the label. *)
Definition role_label_of (msg_role msg_type : str) : str :=
  if str_eqb msg_role "system" || str_eqb msg_type "system"
  then label_system
  else if str_eqb msg_role "user"
          || (str_eqb msg_type "human" || str_eqb msg_type "user")
  then label_user
  else label_model.

(** The text one message is printed as, or [None] when its stripped
    content is empty and nothing is printed. *)
Definition rendering (msg : Message) : option str :=
  let msg_type := lower (str_or (default "" (msg_type msg)) "") in
  let msg_role := lower (str_or (default "" (msg_role msg)) "") in
  let role_label := role_label_of msg_role msg_type in
  let content :=
    match default (PyStr "") (msg_content msg) with
    | PyStr s => s            (* isinstance(content, str) *)
    | other => str_of other      (* content = str(content) *)
    end in
  let content := strip content in
  if truthy content then
    let label := str_or role_label (str_or msg_role (str_or msg_type "消息")) in
    let preview := slice_to 2000 content in
    let suffix := if len content >? 2000 then truncation_marker else "" in
    Some (nl +:+ "[" +:+ label +:+ "]" +:+ nl +:+ preview +:+ suffix)
  else None.

(** The body of the [for idx, msg in enumerate(..., start=idx)] loop. *)
Fixpoint emit_loop (idx : Z) (messages : list Message) : M Store unit :=
  match messages with
  | [] => ret tt
  | msg :: rest =>
      exec match rendering msg with
           | Some text => emit (Emit idx text)
           | None => ret tt
           end ;;
      emit_loop (idx + 1) rest
  end.

Definition _emit_new_messages (thread_id : str) (start_idx : Z)
    (trace_started : bool) : M Store (Z * bool * bool) :=
  do messages <- Memory.get_messages thread_id ;;
  let total := Z.of_nat (length messages) in
  let start_idx := if start_idx <? 0 then 0 else start_idx in
  let start_idx := if start_idx >? total then total else start_idx in
  if start_idx >=? total then ret (total, trace_started, false)
  else
    do trace_started <-
      (if negb trace_started
       then exec print trace_header ;; ret true
       else ret trace_started) ;;
    exec emit_loop (start_idx + 1) (slice_from start_idx messages) ;;
    ret (total, trace_started, true).

(** [while worker.is_alive(): ...], one turn per store the loop gets to
    see; the sleep between two turns is left out. *)
Fixpoint poll_loop (thread_id : str) (show_trace : bool) (seen : list Store)
    (start_idx : Z) (trace_started spinner_active : bool)
  : M Store (Z * bool * bool) :=
  match seen with
  | [] => ret (start_idx, trace_started, spinner_active)
  | st :: later =>
      exec store_becomes st ;;
      do '(start_idx, trace_started, spinner_active) <-
        (if show_trace then
           do '(start_idx, trace_started, printed) <-
             _emit_new_messages thread_id start_idx trace_started ;;
           if printed && spinner_active
           then exec emit SpinnerStop ;; ret (start_idx, trace_started, false)
           else ret (start_idx, trace_started, spinner_active)
         else ret (start_idx, trace_started, spinner_active)) ;;
      poll_loop thread_id show_trace later
        start_idx trace_started spinner_active
  end.

(** The part of [run_agent] after the worker has been joined and the
    last drain is done. *)
Definition conclude (thread_id : str) (start_idx : Z)
    (result_box : Container) : M Store str :=
  match box_error result_box with
  | Some e => raise e
  | None =>
      let result := default empty_dict (box_result result_box) in
      do final_output <-
        match r_messages result with
        | Some (first :: rest) =>
            let final_msg := last_of first rest in
            do final_output <-
              lift (strip_method
                      (default (PyStr (msg_str final_msg))
                               (msg_content final_msg))) ;;
            exec offset_set thread_id (Z.of_nat (length (first :: rest))) ;;
            ret final_output
        | _ =>
            do final_output <-
              lift (strip_method
                      (default (PyStr (r_str result)) (r_output result))) ;;
            exec offset_set thread_id start_idx ;;
            ret final_output
        end ;;
      exec print (nl +:+ str_mul "=" 60) ;;
      exec print "✅ 最终结果：" ;;
      exec print final_output ;;
      exec print (str_mul "=" 60 +:+ nl) ;;
      ret final_output
  end.

(** The body of the [try]. [get_agent] is what [get_agent()] gives: an
    exception, or an agent together with what its [invoke] does this
    time. *)
Definition run_agent_try (get_agent : result (Invocation Store))
    (user_input thread_id : str) (show_trace : bool) : M Store str :=
  do agent <- lift get_agent ;;
  let result_box := {| box_result := None; box_error := None |} in
  exec emit SpinnerStart ;;
  let spinner_active := true in
  do start_idx <- offset_get thread_id ;;
  let trace_started := false in
  do '(start_idx, trace_started, spinner_active) <-
    poll_loop thread_id show_trace (seen_while_alive agent)
      start_idx trace_started spinner_active ;;
  exec store_becomes (seen_at_end agent) ;;
  let result_box := _invoke_agent (outcome agent) result_box in
  exec (if spinner_active then emit SpinnerStop else ret tt) ;;
  do '(start_idx, trace_started) <-
    (if show_trace then
       do '(start_idx, trace_started, _) <-
         _emit_new_messages thread_id start_idx trace_started ;;
       ret (start_idx, trace_started)
     else ret (start_idx, trace_started)) ;;
  conclude thread_id start_idx result_box.

Definition run_agent (get_agent : result (Invocation Store))
    (user_input thread_id : str) (show_trace : bool) : M Store str :=
  try_except
    (run_agent_try get_agent user_input thread_id show_trace)
    (fun e =>
       exec print (nl +:+ "❌ 交互错误：" +:+ exn_str e +:+ nl) ;;
       ret "").

End Runner.
End Runner.

(** ** main.py *)

Module Main.
Section Main.
Context {Store : Type} `{!CheckpointSaver Store} `{!Unicode}.

(** [a or b] where either may be [None]. *)
Definition opt_or (a b : option str) : option str :=
  match a with
  | Some s => if truthy s then a else b
  | None => b
  end.

Definition rendering (msg : Message) : option str :=
  let role := opt_or (msg_type msg) (msg_role msg) in
  let role_label :=
    if str_eqb (default "" (msg_role msg)) "system" then label_system
    else if str_eqb (default "" (msg_role msg)) "user" then label_user
    else label_model in
  let content :=
    match default (PyStr "") (msg_content msg) with
    | PyStr s => s
    | other => str_of other
    end in
  let content := strip content in
  if truthy content then
    Some (nl +:+ "["
          +:+ str_or role_label (default "消息" (opt_or role (Some "消息")))
          +:+ "]" +:+ nl +:+ slice_to 2000 content
          +:+ (if len content >? 2000 then truncation_marker else ""))
  else None.

Fixpoint trace_loop (idx : Z) (messages : list Message) : M Store unit :=
  match messages with
  | [] => ret tt
  | msg :: rest =>
      exec match rendering msg with
           | Some text => emit (Emit idx text)
           | None => ret tt
           end ;;
      trace_loop (idx + 1) rest
  end.

Definition run_agent_try (get_agent : result (Invocation Store))
    (user_input thread_id : str) (show_trace : bool) : M Store str :=
  do agent <- lift get_agent ;;
  exec store_becomes (seen_at_end agent) ;;
  do result <- lift (outcome agent) ;;
  exec match show_trace, r_messages result with
       | true, Some messages =>
           exec print trace_header ;; trace_loop 1 messages
       | _, _ => ret tt
       end ;;
  do final_output <-
    match r_messages result with
    | Some (first :: rest) =>
        let final_msg := last_of first rest in
        lift (strip_method
                (default (PyStr (msg_str final_msg)) (msg_content final_msg)))
    | _ =>
        lift (strip_method (default (PyStr (r_str result)) (r_output result)))
    end ;;
  exec print (nl +:+ str_mul "=" 60) ;;
  exec print "✅ 最终结果：" ;;
  exec print final_output ;;
  exec print (str_mul "=" 60 +:+ nl) ;;
  ret final_output.

Definition run_agent (get_agent : result (Invocation Store))
    (user_input thread_id : str) (show_trace : bool) : M Store str :=
  try_except
    (run_agent_try get_agent user_input thread_id show_trace)
    (fun e =>
       exec print (nl +:+ "❌ 交互错误：" +:+ exn_str e +:+ nl) ;;
       ret "").

End Main.
End Main.

(** ** A store to run the code on *)

Module Saver.

(** Modelled from the spec: the checkpoint store behind
    [memory_checkpointer] (class [InMemorySaver] of langgraph), which is
    not part of the repository. It is the spec's Message Store: keyed by
    thread, a thread unknown to it has no checkpoint, and clearing a
    thread removes its messages and fails when the thread has no recorded
    state. *)
Definition InMemorySaver : Type := gmap str (list Message).

Definition checkpoint_of (messages : list Message) : Checkpoint :=
  {| channel_values := Some {| cv_messages := Some messages |} |}.

Definition get_checkpoint (st : InMemorySaver) (thread_id : str)
  : result (option Checkpoint) :=
  Ok (checkpoint_of <$> (st : gmap str (list Message)) !! thread_id).

Definition delete_thread (st : InMemorySaver) (thread_id : str)
  : InMemorySaver * result unit :=
  match (st : gmap str (list Message)) !! thread_id with
  | Some _ => (delete thread_id (st : gmap str (list Message)), Ok tt)
  | None => (st, Raise (Exception ("no such thread: " +:+ thread_id)))
  end.

#[export] Instance in_memory_saver : CheckpointSaver InMemorySaver :=
  {| saver_get := get_checkpoint; saver_delete := delete_thread |}.

(** A store that is out of reach at times: its [get] and its [delete]
    then raise, which is what the [try] of [get_messages] and of
    [clear_memory] is there for. What it holds stays. *)
Inductive FlakySaver : Type :=
  | Reachable (st : InMemorySaver)
  | Unreachable (st : InMemorySaver).

Definition flaky_get (st : FlakySaver) (thread_id : str)
  : result (option Checkpoint) :=
  match st with
  | Reachable st => get_checkpoint st thread_id
  | Unreachable _ => Raise (Exception "store out of reach")
  end.

Definition flaky_delete (st : FlakySaver) (thread_id : str)
  : FlakySaver * result unit :=
  match st with
  | Reachable st =>
      (Reachable (delete_thread st thread_id).1, (delete_thread st thread_id).2)
  | Unreachable _ => (st, Raise (Exception "store out of reach"))
  end.

#[export] Instance flaky_saver : CheckpointSaver FlakySaver :=
  {| saver_get := flaky_get; saver_delete := flaky_delete |}.

(** A case mapping to run the code on: [str.lower] as it is on the text
    whose characters are all below U+0100. Other characters it leaves as
    they are, which is not what Python does with a cased letter beyond
    U+00FF; the properties are proved for every case mapping, and this one
    is only applied to text below U+0100. *)
#[export] Instance latin1_case : Unicode :=
  {| lower := map lower_latin1; lower_of_latin1 := fun _ _ => eq_refl |}.

(** Messages as langchain builds them, their [str()] text abridged. *)
Definition HumanMessage (content : str) : Message :=
  {| msg_type := Some "human"; msg_role := None;
     msg_content := Some (PyStr content);
     msg_str := "content='" +:+ content +:+ "'" |}.

Definition AIMessage (content : pyval) : Message :=
  {| msg_type := Some "ai"; msg_role := None;
     msg_content := Some content;
     msg_str := "content=" +:+ str_of content |}.


(** The state at start-up: an empty store and no offsets. *)
Definition startup : World InMemorySaver :=
  {| memory_checkpointer := ∅; _history_offsets := ∅ |}.

End Saver.
Import Saver.

(** ** Readings of the state used to state the properties *)

Module Reading.

(** The counters in [l] go up strictly and lie in (lo, hi]. *)
Definition between (lo hi : Z) (l : list Z) : Prop :=
  StronglySorted Z.lt l /\ Forall (fun i => lo < i <= hi) l.

Section Reading.
Context {Store : Type} `{!CheckpointSaver Store} `{!Unicode}.

(** The messages the store holds for a thread, as [get_messages] will
    report them. *)
Definition stored_messages (st : Store) (thread_id : str) : list Message :=
  match saver_get st thread_id with
  | Ok (Some checkpoint) => Memory.checkpoint_messages checkpoint
  | Ok None => []
  | Raise _ => []
  end.

(** [len(get_messages(thread_id))] *)
Definition message_count (st : Store) (thread_id : str) : Z :=
  Z.of_nat (length (stored_messages st thread_id)).

(** The stored read offset of a thread, 0 when it has none. *)
Definition offset_of (w : World Store) (thread_id : str) : Z :=
  default 0 (_history_offsets w !! thread_id).

(** The cursor after the two clamping [if]s of [_emit_new_messages]. *)
Definition clamped (start_idx total : Z) : Z :=
  let start_idx := if start_idx <? 0 then 0 else start_idx in
  if start_idx >? total then total else start_idx.

(** What the trace loop prints for [messages], counting from [idx]. *)
Fixpoint emitted (idx : Z) (messages : list Message) : list event :=
  match messages with
  | [] => []
  | msg :: rest =>
      match Runner.rendering msg with
      | Some text => [Emit idx text]
      | None => []
      end ++ emitted (idx + 1) rest
  end.

(** The loop counters of the messages printed in a log. *)
Fixpoint emit_indices (out : list event) : list Z :=
  match out with
  | [] => []
  | Emit idx _ :: rest => idx :: emit_indices rest
  | _ :: rest => emit_indices rest
  end.

(** Lines 49 to 52 of [runner.py]: the content of a message as text,
    stripped. *)
Definition stripped_content (msg : Message) : str :=
  strip match default (PyStr "") (msg_content msg) with
        | PyStr s => s
        | other => str_of other
        end.

(** The [role] and [type] of a message as the loop compares them. *)
Definition role_field (msg : Message) : str :=
  lower (str_or (default "" (msg_role msg)) "").
Definition type_tag (msg : Message) : str :=
  lower (str_or (default "" (msg_type msg)) "").

(** The session shell of [cli.py] sending one query after the other to
    [run_agent] on one thread; the read offset is noted after each. *)
Fixpoint session (thread_id : str)
    (turns : list (str * bool * Invocation Store)) : M Store (list Z) :=
  match turns with
  | [] => ret []
  | (user_input, show_trace, agent) :: later =>
      exec Runner.run_agent (Ok agent) user_input thread_id show_trace ;;
      do offset <- offset_get thread_id ;;
      do offsets <- session thread_id later ;;
      ret (offset :: offsets)
  end.

(** The thread's message counts in the order the turns get to see them. *)
Definition counts_seen (thread_id : str)
    (turns : list (str * bool * Invocation Store)) : list Z :=
  flat_map
    (fun turn : str * bool * Invocation Store =>
       map (fun st => message_count st thread_id)
           (seen_while_alive turn.2 ++ [seen_at_end turn.2]))
    turns.

(** Lines 103 to 108 of [runner.py], 484 to 488 of [main.py]: the final
    text, from what [invoke] returned. *)
Definition final_text (returned : Result) : result str :=
  match r_messages returned with
  | Some (first :: rest) =>
      let final_msg := last_of first rest in
      strip_method
        (default (PyStr (msg_str final_msg)) (msg_content final_msg))
  | _ => strip_method (default (PyStr (r_str returned)) (r_output returned))
  end.

(** The four lines that frame the final text. *)
Definition final_prints (text : str) : list event :=
  [Print (nl +:+ str_mul "=" 60); Print "✅ 最终结果："; Print text;
   Print (str_mul "=" 60 +:+ nl)].

(** The read offset a turn that returns stores for its thread:
    [len(result["messages"])], or the drain cursor when there are no
    messages in the result. *)
Definition stored_offset (returned : Result) (cursor : Z) : Z :=
  match r_messages returned with
  | Some (first :: rest) => Z.of_nat (length (first :: rest))
  | _ => cursor
  end.

(** What [run_agent] hands back to the shell. *)
Definition answer (get_agent : result (Invocation Store)) : str :=
  match get_agent with
  | Raise _ => ""
  | Ok agent =>
      match outcome agent with
      | Raise _ => ""
      | Ok result =>
          match final_text result with
          | Ok text => text
          | Raise _ => ""
          end
      end
  end.

(** The thread's message count at the end of a turn. *)
Definition end_count (thread_id : str)
    (turn : str * bool * Invocation Store) : Z :=
  message_count (seen_at_end turn.2) thread_id.

(** A turn that succeeds: the executor returns, the final text can be
    taken from its result, and the result's ["messages"], when it has
    any, are the thread's stored messages. A result without messages is
    taken in when the turn shows its trace, so that the cursor it stores
    is the one of its last drain. *)
Definition returns_thread (thread_id : str)
    (turn : str * bool * Invocation Store) : Prop :=
  exists returned text,
    outcome turn.2 = Ok returned
    /\ final_text returned = Ok text
    /\ match r_messages returned with
       | Some (first :: rest) =>
           stored_messages (seen_at_end turn.2) thread_id = first :: rest
       | _ => turn.1.2 = true
       end.

End Reading.
End Reading.
Import Reading.

(** ** Threads and turns to run the code on *)

Module Fixture.

Definition hello : list Message := [HumanMessage "hi"].

Definition first_turn : list Message :=
  [HumanMessage "list files"; AIMessage (PyStr "a.txt b.txt")].

Definition second_turn : list Message :=
  first_turn ++ [HumanMessage "now show date"; AIMessage (PyStr "Tuesday")].

Definition holding (thread_id : str) (messages : list Message)
  : InMemorySaver :=
  {[ thread_id := messages ]}.

Definition world_of (st : InMemorySaver) (offsets : gmap str Z)
  : World InMemorySaver :=
  {| memory_checkpointer := st; _history_offsets := offsets |}.

Definition result_of (messages : list Message) : Result :=
  {| r_messages := Some messages; r_output := None; r_str := "{...}" |}.

(** A reply of 2001 characters between blanks. *)
Definition long_reply : Message :=
  AIMessage (PyStr ("  " +:+ str_mul "好" 2001 +:+ nl)).

(** A thread whose latest message has 51 characters. *)
Definition long_note : list Message := [HumanMessage (str_mul "好" 51)].

(** A turn whose reply has blanks around its text. *)
Definition reasons : list Message :=
  [HumanMessage "为什么"; AIMessage (PyStr (" 原因" +:+ nl))].

(** The executor stores the user's message and then raises. *)
Definition failing_turn : Invocation InMemorySaver :=
  {| seen_while_alive := [];
     seen_at_end := holding "t1" hello;
     outcome := Raise (Exception "connection lost") |}.

(** The two turns of the spec's scenario on thread "t1": the first is
    polled while the store is empty, then holds the user's message, then
    the reply as well. *)
Definition turn_one : Invocation InMemorySaver :=
  {| seen_while_alive :=
       [∅; holding "t1" [HumanMessage "list files"]; holding "t1" first_turn];
     seen_at_end := holding "t1" first_turn;
     outcome := Ok (result_of first_turn) |}.

Definition turn_two : Invocation InMemorySaver :=
  {| seen_while_alive := [holding "t1" first_turn];
     seen_at_end := holding "t1" second_turn;
     outcome := Ok (result_of second_turn) |}.

Definition turn_reasons : Invocation InMemorySaver :=
  {| seen_while_alive := [];
     seen_at_end := holding "t1" reasons;
     outcome := Ok (result_of reasons) |}.

Definition two_turns : list (str * bool * Invocation InMemorySaver) :=
  [("list files", true, turn_one); ("now show date", true, turn_two)].

(** A reply whose content is a list of content blocks, not a [str]. *)
Definition blocks : pyval :=
  PyOther "list" "[{'type': 'text', 'text': 'done'}]".

Definition turn_with_blocks : Invocation InMemorySaver :=
  {| seen_while_alive := [];
     seen_at_end := holding "t1" [HumanMessage "hi"; AIMessage blocks];
     outcome := Ok (result_of [HumanMessage "hi"; AIMessage blocks]) |}.

End Fixture.

(** ** memory.py and main.py: [show_memory_info] *)

Module MemoryInfo.
Section MemoryInfo.
Context {Store : Type} `{!CheckpointSaver Store} `{!Unicode}.

(** [f"{n}"] of an [int]. *)
Definition int_str (n : Z) : str := of_ascii (pretty n).

(** [checkpoint.get('channel_values', {}).get('messages', [])] *)
Definition checkpoint_list (checkpoint : Checkpoint) : list Message :=
  match channel_values checkpoint with
  | None => []
  | Some values => default [] (cv_messages values)
  end.

(** [content[:50] + ("..." if len(content) > 50 else "")] of the latest
    message, its content made text but not stripped. *)
Definition preview_of (latest : Message) : str :=
  let content :=
    match default (PyStr "") (msg_content latest) with
    | PyStr s => s            (* isinstance(content, str) *)
    | other => str_of other      (* content = str(content) *)
    end in
  slice_to 50 content +:+ (if len content >? 50 then "..." else "").

(** The function is the same in [memory.py] and in [main.py]. A
    checkpoint the store hands out is a dict that holds more than its
    channel values, so that only [None] fails the test [if not
    checkpoint]. *)
Definition show_memory_info (thread_id : str) : M Store unit :=
  try_except
    (do checkpoint <- Memory.checkpointer_get thread_id ;;
     match checkpoint with
     | None =>
         print (nl +:+ "💾 记忆状态：当前线程 " +:+ thread_id +:+ " 没有记忆")
     | Some checkpoint =>
         let messages := checkpoint_list checkpoint in
         exec print (nl +:+ "💾 记忆状态：") ;;
         exec print ("   当前线程: " +:+ thread_id) ;;
         exec print ("   记忆消息数: "
                     +:+ int_str (Z.of_nat (length messages))) ;;
         match messages with
         | [] => ret tt
         | first :: rest =>
             print ("   最近消息: " +:+ preview_of (last_of first rest))
         end
     end)
    (fun e => print ("❌ 获取记忆状态失败：" +:+ exn_str e)).

End MemoryInfo.
End MemoryInfo.

(** ** Further readings of a log *)

Module Log.

Definition is_spinner_start (ev : event) : bool :=
  match ev with SpinnerStart => true | _ => false end.

Definition is_spinner_stop (ev : event) : bool :=
  match ev with SpinnerStop => true | _ => false end.

(** How many events of a log pass a test. *)
Definition count (test : event -> bool) (out : list event) : nat :=
  length (List.filter test out).

(** No message is printed by the trace loop before the trace header has
    been; [seen] tells whether the header was printed before [out]. *)
Fixpoint headed (seen : bool) (out : list event) : bool :=
  match out with
  | [] => true
  | Emit _ _ :: rest => seen && headed seen rest
  | Print text :: rest => headed (seen || str_eqb text trace_header) rest
  | _ :: rest => headed seen rest
  end.

(** Whether the trace header is printed in a log. *)
Definition has_header (out : list event) : bool :=
  existsb (fun ev => match ev with
                     | Print text => str_eqb text trace_header
                     | _ => false
                     end) out.

(** What [run_agent] prints once the last drain is done: the frame with
    the final text, or the failure. *)
Definition closing_lines {Store : Type} (agent : Invocation Store)
  : list event :=
  match outcome agent with
  | Raise e => [Print (nl +:+ "❌ 交互错误：" +:+ exn_str e +:+ nl)]
  | Ok returned =>
      match final_text returned with
      | Ok text => final_prints text
      | Raise e => [Print (nl +:+ "❌ 交互错误：" +:+ exn_str e +:+ nl)]
      end
  end.

(** The label [main.py] gives a message: by the [role] attribute as it
    is, whatever the type tag. *)
Definition main_label (msg : Message) : str :=
  if str_eqb (default "" (msg_role msg)) "system" then label_system
  else if str_eqb (default "" (msg_role msg)) "user" then label_user
  else label_model.

(** The content of a message as text, before any stripping. *)
Definition content_text (msg : Message) : str :=
  match default (PyStr "") (msg_content msg) with
  | PyStr s => s
  | other => str_of other
  end.

End Log.
Import Log.

(** ** More threads and turns to run the code on *)

Module Sample.

(** An executor that stores the user's message and returns only an
    "output" text. *)
Definition output_only : Result :=
  {| r_messages := None; r_output := Some (PyStr "　原因 ");
     r_str := "{'output': '\u3000原因 '}" |}.

Definition fallback_turn : Invocation InMemorySaver :=
  {| seen_while_alive := [Fixture.holding "t1" Fixture.hello];
     seen_at_end := Fixture.holding "t1" Fixture.hello;
     outcome := Ok output_only |}.

(** An executor that returns the empty dict. *)
Definition bare_turn : Invocation InMemorySaver :=
  {| seen_while_alive := [];
     seen_at_end := ∅;
     outcome := Ok empty_dict |}.

(** A turn during which the store is out of reach for one poll. *)
Definition interrupted_turn : Invocation FlakySaver :=
  {| seen_while_alive :=
       [Reachable (Fixture.holding "t1" Fixture.first_turn);
        Unreachable (Fixture.holding "t1" Fixture.first_turn);
        Reachable (Fixture.holding "t1" Fixture.first_turn)];
     seen_at_end := Reachable (Fixture.holding "t1" Fixture.first_turn);
     outcome := Ok (Fixture.result_of Fixture.first_turn) |}.

End Sample.

(** ** tools/file_ops.py: [read_file] and [tail_file] *)

Module Tools.

(** A [try] body whose statements may raise, and its [except Exception]
    clause. *)
Definition and_then {A B} (m : result A) (k : A -> result B) : result B :=
  match m with
  | Ok a => k a
  | Raise e => Raise e
  end.

Definition except {A} (m : result A) (handler : exn -> A) : A :=
  match m with
  | Ok a => a
  | Raise e => handler e
  end.

(** [s[n:]] for [n >= 0]. *)
Fixpoint skip (n : nat) (s : str) : str :=
  match n, s with
  | S n', _ :: s' => skip n' s'
  | _, _ => s
  end.

(** Where a slice index falls in [s]: a negative index counts from the
    end, and both ends are clipped to the str. *)
Definition index_in (i : Z) (s : str) : Z :=
  if i <? 0 then Z.max 0 (len s + i) else Z.min i (len s).

(** [s[start:stop]] *)
Definition slice (start stop : Z) (s : str) : str :=
  let lo := index_in start s in
  let hi := index_in stop s in
  slice_to (Z.to_nat (hi - lo)) (skip (Z.to_nat lo) s).

(** [sep.join(parts)] *)
Fixpoint join (sep : str) (parts : list str) : str :=
  match parts with
  | [] => []
  | part :: rest =>
      match rest with
      | [] => part
      | _ => part +:+ sep +:+ join sep rest
      end
  end.


(** What the tools ask of a resolved [Path]: its text, the answers of
    [exists()] and [is_file()], the text [read_text] returns and the lines
    that iterating the opened file yields. Each call may raise. *)
Record File : Type := {
  file_str : str;
  file_exists : result bool;
  file_is_file : result bool;
  read_text : result str;
  file_lines : result (list str)
}.

(** [read_file(file_path, offset, limit)]; [resolve] is what
    [Path(file_path).expanduser().resolve()] gives. *)
Definition read_file (resolve : result File) (offset limit : Z) : str :=
  except
    (and_then resolve (fun path =>
     and_then (file_exists path) (fun present =>
     if negb present then Ok ("❌ 文件不存在：" +:+ file_str path) else
     and_then (file_is_file path) (fun regular =>
     if negb regular then Ok ("❌ 不是文件：" +:+ file_str path) else
     if (offset <? 0) || (limit <=? 0)
     then Ok "❌ 参数错误：offset需>=0且limit需>0" else
     and_then (read_text path) (fun text =>
     if offset >=? len text
     then Ok ("❌ 起始位置超出文件长度（长度："
              +:+ MemoryInfo.int_str (len text) +:+ "）") else
     let slice_text := slice offset (offset + limit) text in
     let truncated :=
       if offset + limit <? len text then "…(已截断)" else "" in
     Ok ("✅ 文件读取成功：" +:+ file_str path +:+ nl +:+ "---内容---"
         +:+ nl +:+ slice_text +:+ truncated))))))
    (fun e => "⚠️ 读取文件失败：" +:+ exn_str e).



(** A path that resolves to a regular file holding [text]. *)
Definition regular_file (resolve : result File) (path : File) : Prop :=
  resolve = Ok path /\ file_exists path = Ok true
  /\ file_is_file path = Ok true.

(** The lines before the text of a successful [read_file]. *)
Definition read_header (path : File) : str :=
  "✅ 文件读取成功：" +:+ file_str path +:+ nl +:+ "---内容---" +:+ nl.

Definition read_marker : str := "…(已截断)".


End Tools.

(** ** tools/web.py: [parse_webpage] *)

Module Web.
Import Tools.

(** The exception classes the tool tells apart: [requests]' [Timeout],
    any other [RequestException], and the remaining [Exception]s. *)
Inductive raised : Type :=
  | Timeout (e : exn)
  | RequestException (e : exn)
  | OtherException (e : exn).

Inductive tried (A : Type) : Type :=
  | Got (a : A)
  | Failed (r : raised).
Arguments Got {A} a.
Arguments Failed {A} r.

(** A node [soup.select] matched: its [get_text(separator="\n",
    strip=True)] and its [str()]. *)
Record Node : Type := {
  get_text : str;
  node_str : str
}.

(** The response of [requests.get]: [reason] as an f-string shows it,
    [content_type] is [headers.get("Content-Type", "")], and [select] is
    the parse of the body followed by [soup.select(selector)]. *)
Record Response : Type := {
  resp_url : str;
  status_code : Z;
  reason : str;
  content_type : str;
  select : str -> tried (list Node)
}.

(** [sum(len(p) for p in parts)] *)
Definition total_len (parts : list str) : Z :=
  fold_right (fun p rest => len p + rest) 0 parts.

(** The loop over the matched nodes, with its early [break]. *)
Fixpoint collect (text_of : Node -> str) (max_chars : Z)
    (parts : list str) (nodes : list Node) : list str :=
  match nodes with
  | [] => parts
  | node :: rest =>
      let text := text_of node in
      let parts := if truthy text then parts ++ [text] else parts in
      if total_len parts >? max_chars then parts
      else collect text_of max_chars parts rest
  end.

Definition text_of (text_only : bool) (node : Node) : str :=
  if text_only then get_text node else node_str node.

(** [f"{flag}"] of a [bool]. *)
Definition bool_str (flag : bool) : str :=
  if flag then "True" else "False".

Definition page_header (resp : Response) (selector : str)
    (text_only : bool) : str :=
  "✅ 网页解析成功" +:+ nl
  +:+ "URL: " +:+ resp_url resp +:+ nl
  +:+ "Content-Type: " +:+ content_type resp +:+ nl
  +:+ "选择器: " +:+ selector +:+ nl
  +:+ "文本模式: " +:+ bool_str text_only +:+ nl
  +:+ "---内容---" +:+ nl.

Definition page_marker : str := nl +:+ "…(已截断)".

Section Page.
Context `{!Unicode}.

(** [parse_webpage(url, selector, text_only, timeout, max_chars)];
    [fetch] is what [requests.get(url, timeout=timeout)] does. *)
Definition parse_webpage (url selector : str) (text_only : bool)
    (timeout max_chars : Z) (fetch : tried Response) : str :=
  let body :=
    if negb (startswith "http://" (lower url)
             || startswith "https://" (lower url))
    then Got "❌ URL 需以 http:// 或 https:// 开头"
    else
      match fetch with
      | Failed r => Failed r
      | Got resp =>
          if negb (status_code resp =? 200)
          then Got ("❌ 请求失败：" +:+ MemoryInfo.int_str (status_code resp)
                    +:+ " " +:+ reason resp)
          else
            match select resp selector with
            | Failed r => Failed r
            | Got [] => Got ("❌ 未匹配到任何节点，选择器：" +:+ selector)
            | Got nodes =>
                match collect (text_of text_only) max_chars [] nodes with
                | [] => Got "❌ 目标节点内容为空"
                | parts =>
                    let combined := join (nl +:+ nl) parts in
                    let truncated := slice 0 max_chars combined in
                    let suffix :=
                      if len combined >? max_chars then page_marker else "" in
                    Got (page_header resp selector text_only
                         +:+ truncated +:+ suffix)
                end
            end
      end in
  match body with
  | Got text => text
  | Failed (Timeout _) =>
      "❌ 请求超时（" +:+ MemoryInfo.int_str timeout +:+ "s）：" +:+ url
  | Failed (RequestException e) => "❌ 请求失败：" +:+ exn_str e
  | Failed (OtherException e) => "⚠️ 解析失败：" +:+ exn_str e
  end.

(** The texts of all matched nodes that are not empty. *)
Definition node_texts (text_only : bool) (nodes : list Node) : list str :=
  List.filter truthy (map (text_of text_only) nodes).

(** A page that is fetched with status 200 and on which the selector
    matches [nodes]. *)
Definition page_matches (url selector : str) (fetch : tried Response)
    (resp : Response) (nodes : list Node) : Prop :=
  (startswith "http://" (lower url)
   || startswith "https://" (lower url)) = true
  /\ fetch = Got resp /\ status_code resp = 200
  /\ select resp selector = Got nodes.

End Page.
End Web.

(** ** config.py: [ensure_deepseek_api_key] *)

Module Config.

(** The environment of the process and the [.env] file, as the variables
    each holds; [dotenv_error] is the exception that creating or writing
    the file meets, if any. *)
Record Env : Type := {
  environ : gmap str str;
  dotenv : gmap str str;
  dotenv_error : option exn
}.

Definition key_name : str := "DEEPSEEK_API_KEY".

Definition blank_complaint : str := "❌ 密钥不能为空，请重新输入。".

(** The [while True] loop: [typed] are the lines [getpass] still has to
    return, and [eof] is what it raises when they have run out. The loop
    gives back what it printed, the key or the exception, and the lines
    not asked for. *)
Fixpoint ask_key (typed : list str) (eof : exn)
  : list event * result str * list str :=
  match typed with
  | [] => ([], Raise eof, [])
  | line :: rest =>
      let user_input := strip line in
      if truthy user_input then ([], Ok user_input, rest)
      else
        let '(out, key, unread) := ask_key rest eof in
        (Print blank_complaint :: out, key, unread)
  end.

(** [ensure_deepseek_api_key()] *)
Definition ensure_deepseek_api_key (typed : list str) (eof : exn)
    (env : Env) : Env * list event * result str * list str :=
  let api_key := default "" (environ env !! key_name) in
  if truthy api_key then (env, [], Ok api_key, typed)
  else
    let '(out, key, unread) := ask_key typed eof in
    match key with
    | Raise e => (env, out, Raise e, unread)
    | Ok user_input =>
        let environ' := <[key_name := user_input]> (environ env) in
        match dotenv_error env with
        | None =>
            ({| environ := environ';
                dotenv := <[key_name := user_input]> (dotenv env);
                dotenv_error := None |},
             out, Ok user_input, unread)
        | Some exc =>
            ({| environ := environ';
                dotenv := dotenv env;
                dotenv_error := Some exc |},
             out ++ [Print ("⚠️ 无法写入 .env 文件：" +:+ exn_str exc)],
             Ok user_input, unread)
        end
    end.

End Config.

(** ** tools/file_ops.py: [list_dir] *)

Module ListDir.
Import Tools.

(** What [iterdir()] does on a directory. *)
Inductive Listed (A : Type) : Type :=
  | Entries (entries : list A)
  | PermissionError
  | OtherError (e : exn).
Arguments Entries {A} entries.
Arguments PermissionError {A}.
Arguments OtherError {A} e.

(** An entry of a directory, by the answers of [is_file()] and
    [is_dir()]: a file, a directory with the text of its path and its own
    entries, or something that is neither. *)
#[warnings="-register-all"]
Inductive Entry : Type :=
  | FileEntry (name : str)
  | DirEntry (name : str) (dir_str : str) (iterdir : Listed Entry)
  | OtherEntry (name : str).

Definition entry_name (entry : Entry) : str :=
  match entry with
  | FileEntry name | DirEntry name _ _ | OtherEntry name => name
  end.

Definition is_file (entry : Entry) : bool :=
  match entry with FileEntry _ => true | _ => false end.

Section Listing.
Context `{!Unicode}.

(** [a < b] on the sort keys [(p.is_file(), p.name.lower())]. *)
Definition key_lt (a b : Entry) : bool :=
  match is_file a, is_file b with
  | false, true => true
  | true, false => false
  | _, _ => str_ltb (lower (entry_name a)) (lower (entry_name b))
  end.

(** [sorted(entries, key=...)]: the stable sort by that key. *)
Fixpoint insert (x : Entry) (l : list Entry) : list Entry :=
  match l with
  | [] => [x]
  | y :: l' => if key_lt y x then y :: insert x l' else x :: y :: l'
  end.

Definition sorted (entries : list Entry) : list Entry :=
  fold_right insert [] entries.

(** A line of the output, and the text appended for it. *)
Inductive Line : Type :=
  | RootLine (root : str)
  | EntryLine (level : Z) (file : bool) (name : str)
  | DeniedLine (level : Z) (current : str)
  | CutLine.

Definition render (line : Line) : str :=
  match line with
  | RootLine root => "📂 " +:+ root
  | EntryLine level file name =>
      str_mul "  " (Z.to_nat (level + 1))
      +:+ (if file then "📄" else "📁") +:+ " " +:+ name
  | DeniedLine level current =>
      str_mul "  " (Z.to_nat (level + 1)) +:+ "🔒 无权限访问：" +:+ current
  | CutLine => "... （输出已截断）"
  end.

Definition max_entries : Z := 400.

(** The variables of the walk: the lines so far, the queue of
    directories with their levels, and the count of entries listed. *)
Record Walk : Type := {
  output_lines : list Line;
  queue : list (str * Listed Entry * Z);
  count : Z
}.

(** The [for entry in entries] loop: the state after it, or the lines
    with which the function returns from inside it. *)
Fixpoint visit (show_hidden : bool) (level : Z) (entries : list Entry)
    (st : Walk) : Walk + list Line :=
  match entries with
  | [] => inl st
  | entry :: rest =>
      if negb show_hidden && startswith "." (entry_name entry)
      then visit show_hidden level rest st
      else
        let lines :=
          output_lines st
          ++ [EntryLine level (is_file entry) (entry_name entry)] in
        let count := count st + 1 in
        if count >=? max_entries then inr (lines ++ [CutLine])
        else
          visit show_hidden level rest
            {| output_lines := lines;
               queue :=
                 match entry with
                 | DirEntry _ dir_str iterdir =>
                     queue st ++ [(dir_str, iterdir, level + 1)]
                 | _ => queue st
                 end;
               count := count |}
  end.

(** The [while queue] loop; [fuel] bounds the number of directories it
    takes from the queue. *)
Fixpoint walk (fuel : nat) (depth : Z) (show_hidden : bool) (st : Walk)
  : option (result (list Line)) :=
  match queue st with
  | [] => Some (Ok (output_lines st))
  | (current, iterdir, level) :: queue' =>
      match fuel with
      | O => None
      | S fuel' =>
          let st := {| output_lines := output_lines st;
                       queue := queue';
                       count := count st |} in
          if level >=? depth then walk fuel' depth show_hidden st
          else
            match iterdir with
            | PermissionError =>
                walk fuel' depth show_hidden
                  {| output_lines :=
                       output_lines st ++ [DeniedLine level current];
                     queue := queue st;
                     count := count st |}
            | OtherError e => Some (Raise e)
            | Entries entries =>
                match visit show_hidden level (sorted entries) st with
                | inr lines => Some (Ok lines)
                | inl st' => walk fuel' depth show_hidden st'
                end
            end
      end
  end.

(** What the tool asks of the resolved root. *)
Record Root : Type := {
  root_str : str;
  root_exists : result bool;
  root_is_dir : result bool;
  root_iterdir : Listed Entry
}.

(** [list_dir(path, depth, show_hidden)]; [None] when [fuel] is not
    enough for the tree. *)
Definition list_dir (fuel : nat) (resolve : result Root) (depth : Z)
    (show_hidden : bool) : option str :=
  match resolve with
  | Raise e => Some ("⚠️ 列目录失败：" +:+ exn_str e)
  | Ok root =>
      match root_exists root with
      | Raise e => Some ("⚠️ 列目录失败：" +:+ exn_str e)
      | Ok false => Some ("❌ 目录不存在：" +:+ root_str root)
      | Ok true =>
          match root_is_dir root with
          | Raise e => Some ("⚠️ 列目录失败：" +:+ exn_str e)
          | Ok false => Some ("❌ 不是目录：" +:+ root_str root)
          | Ok true =>
              if depth <? 1 then Some "❌ 参数错误：depth 需>=1"
              else
                match
                  walk fuel depth show_hidden
                    {| output_lines := [RootLine (root_str root)];
                       queue := [(root_str root, root_iterdir root, 0)];
                       count := 0 |}
                with
                | None => None
                | Some (Ok lines) => Some (join nl (map render lines))
                | Some (Raise e) => Some ("⚠️ 列目录失败：" +:+ exn_str e)
                end
          end
      end
  end.

(** The number of directories in a tree, which bounds the directories
    the walk takes from its queue. *)
Fixpoint dirs_in (entry : Entry) : nat :=
  match entry with
  | DirEntry _ _ (Entries entries) => S (list_sum (map dirs_in entries))
  | DirEntry _ _ _ => 1
  | _ => 0
  end.

Definition dirs_under (iterdir : Listed Entry) : nat :=
  match iterdir with
  | Entries entries => list_sum (map dirs_in entries)
  | _ => 0
  end.

Definition queue_weight (queue : list (str * Listed Entry * Z)) : nat :=
  list_sum (map (fun item => S (dirs_under item.1.2)) queue).

(** Fuel that is enough for the tree under [root]. *)
Definition enough (root : Root) : nat := S (dirs_under (root_iterdir root)).

(** A root that resolves to a directory. *)
Definition directory (resolve : result Root) (root : Root) : Prop :=
  resolve = Ok root /\ root_exists root = Ok true
  /\ root_is_dir root = Ok true.

Definition is_entry_line (line : Line) : bool :=
  match line with EntryLine _ _ _ => true | _ => false end.

Definition is_cut_line (line : Line) : bool :=
  match line with CutLine => true | _ => false end.

(** An entry the loop lists. *)
Definition listed (show_hidden : bool) (entry : Entry) : bool :=
  negb (negb show_hidden && startswith "." (entry_name entry)).

(** A line that may follow the root line when the walk goes [depth]
    levels down: no root line, no cut line, and an entry only from a level
    below [depth], with a name that is not hidden unless hidden entries
    are shown. *)
Definition body_line (depth : Z) (show_hidden : bool) (line : Line)
  : Prop :=
  match line with
  | EntryLine level _ name =>
      0 <= level < depth
      /\ (show_hidden = false -> startswith "." name = false)
  | DeniedLine level _ => 0 <= level < depth
  | RootLine _ | CutLine => False
  end.

Definition entry_line (level : Z) (entry : Entry) : Line :=
  EntryLine level (is_file entry) (entry_name entry).

(** The state of the walk between two steps of its loops, [root] being
    the text of the root: the root line comes first, the lines after it
    are body lines, the count is the number of entry lines and is below
    the cap, and no level in the queue is negative. *)
Definition tidy (depth : Z) (show_hidden : bool) (root : str)
    (st : Walk) : Prop :=
  exists body,
    output_lines st = RootLine root :: body
    /\ Forall (body_line depth show_hidden) body
    /\ count st = Z.of_nat (length (List.filter is_entry_line body))
    /\ count st < max_entries
    /\ Forall (fun item => 0 <= item.2) (queue st).

(** The lines the walk returns: the root line, body lines with at most
    400 entries among them, and last the cut line, which is there exactly
    when the entries are 400. *)
Definition finished (depth : Z) (show_hidden : bool) (root : str)
    (lines : list Line) : Prop :=
  exists body (cut : bool),
    lines = RootLine root :: body ++ (if cut then [CutLine] else [])
    /\ Forall (body_line depth show_hidden) body
    /\ (length (List.filter is_entry_line body) <= 400)%nat
    /\ (cut = true <-> length (List.filter is_entry_line body) = 400%nat).

(** The level of the directory a line comes from. *)
Definition line_level (line : Line) : option Z :=
  match line with
  | EntryLine level _ _ | DeniedLine level _ => Some level
  | RootLine _ | CutLine => None
  end.

Definition levels (lines : list Line) : list Z := omap line_level lines.

(** While the directories of level [level] are listed: the lines so far
    come from levels up to it, in ascending order, and the queue holds
    directories of this level followed by directories of the next. *)
Definition level_ordered (level : Z) (st : Walk) : Prop :=
  StronglySorted Z.le (levels (output_lines st))
  /\ Forall (fun seen => seen <= level) (levels (output_lines st))
  /\ StronglySorted Z.le (map snd (queue st))
  /\ Forall (fun next => level <= next <= level + 1) (map snd (queue st)).

End Listing.
End ListDir.

(** ** Files, pages and terminals to run the tools on *)

Module ToolSample.
Import Tools Web Config.

Definition notes : File :=
  {| file_str := "/tmp/notes.txt";
     file_exists := Ok true;
     file_is_file := Ok true;
     read_text := Ok "你好世界，hello!";
     file_lines := Ok ["one" +:+ nl; "two" +:+ nl; "three"] |}.

Definition heading : Node :=
  {| get_text := "你好世界你好世界";
     node_str := "<h1>你好世界你好世界</h1>" |}.
Definition spacer : Node :=
  {| get_text := ""; node_str := "<p></p>" |}.
Definition paragraph : Node :=
  {| get_text := "Some text"; node_str := "<p>Some text</p>" |}.

Definition page : Response :=
  {| resp_url := "https://example.org/";
     status_code := 200;
     reason := "OK";
     content_type := "text/html";
     select := fun _ => Got [heading; spacer; paragraph] |}.

Definition short_page : Response :=
  {| resp_url := "https://example.org/";
     status_code := 200;
     reason := "OK";
     content_type := "text/html";
     select := fun _ => Got [heading; paragraph] |}.

Definition blank_page : Response :=
  {| resp_url := "https://example.org/";
     status_code := 200;
     reason := "OK";
     content_type := "text/html";
     select := fun _ => Got [spacer; paragraph] |}.

Definition project : ListDir.Root :=
  {| ListDir.root_str := "/srv/project";
     ListDir.root_exists := Ok true;
     ListDir.root_is_dir := Ok true;
     ListDir.root_iterdir :=
       ListDir.Entries
         [ListDir.FileEntry "b.txt";
          ListDir.DirEntry "src" "/srv/project/src"
            (ListDir.Entries [ListDir.FileEntry "main.py"]);
          ListDir.FileEntry ".env";
          ListDir.FileEntry "A.md"] |}.

Definition fresh_env : Env :=
  {| environ := ∅; dotenv := ∅; dotenv_error := None |}.

Definition read_only_env : Env :=
  {| environ := ∅;
     dotenv := ∅;
     dotenv_error := Some (Exception "read-only") |}.

End ToolSample.

(** * Properties *)

(** ** Text *)


Lemma str_eqb_refl (a : str) : str_eqb a a = true.
Proof. by apply bool_decide_eq_true. Qed.

Lemma str_eqb_eq (a b : str) : str_eqb a b = true -> a = b.
Proof. apply bool_decide_eq_true. Qed.

(** ** The monad *)

Section Laws.
Context {Store : Type}.

Lemma bind_ok {A B} (m : M Store A) (k : A -> M Store B) w w1 out1 a :
  m w = (w1, out1, Ok a) ->
  bind m k w = (let '(w2, out2, r) := k a w1 in (w2, out1 ++ out2, r)).
Proof.
  intros Hm. unfold bind. rewrite Hm. by destruct (k a w1) as [[? ?] ?].
Qed.

End Laws.

(** ** memory.py *)

Section MemoryFacts.
Context {Store : Type} `{!CheckpointSaver Store} `{!Unicode}.

(** C9. [get_messages] never raises, writes nothing and leaves the state
    alone: it returns the messages stored for the thread, in their stored
    order, and the empty list when the store has no checkpoint for the
    thread or when the store's [get] raises. *)
Theorem get_messages_never_raises (thread_id : str) (w : World Store) :
  Memory.get_messages thread_id w =
    (w, [],
     Ok match saver_get (memory_checkpointer w) thread_id with
        | Ok (Some checkpoint) => Memory.checkpoint_messages checkpoint
        | Ok None => []
        | Raise _ => []
        end).
Proof.
  unfold Memory.get_messages, Memory.checkpointer_get, try_except, bind,
    get_world, lift, ret.
  destruct (saver_get (memory_checkpointer w) thread_id) as [[c|]|e];
    reflexivity.
Qed.

Lemma get_messages_stored (thread_id : str) (w : World Store) :
  Memory.get_messages thread_id w =
    (w, [], Ok (stored_messages (memory_checkpointer w) thread_id)).
Proof.
  unfold Memory.get_messages, Memory.checkpointer_get, try_except, bind,
    get_world, lift, ret, stored_messages.
  destruct (saver_get (memory_checkpointer w) thread_id) as [[c|]|e];
    reflexivity.
Qed.

End MemoryFacts.

(** ** The drain: [_emit_new_messages] *)

Section DrainFacts.
Context {Store : Type} `{!CheckpointSaver Store} `{!Unicode}.

Lemma clamped_range (start_idx total : Z) :
  0 <= total -> 0 <= clamped start_idx total <= total.
Proof.
  intros Htotal. unfold clamped.
  destruct (start_idx <? 0) eqn:Hneg.
  - destruct (0 >? total) eqn:Hgt; lia.
  - destruct (start_idx >? total) eqn:Hgt; lia.
Qed.

Lemma clamped_min_max (start_idx total : Z) :
  0 <= total -> clamped start_idx total = Z.min (Z.max 0 start_idx) total.
Proof.
  intros Htotal. unfold clamped.
  destruct (start_idx <? 0) eqn:Hneg.
  - destruct (0 >? total) eqn:Hgt; lia.
  - destruct (start_idx >? total) eqn:Hgt; lia.
Qed.

Lemma clamped_fixed (total : Z) : 0 <= total -> clamped total total = total.
Proof. intros. rewrite clamped_min_max by done. lia. Qed.

Lemma slice_from_nonneg {A} (i : Z) (l : list A) :
  0 <= i -> slice_from i l = drop (Z.to_nat i) l.
Proof.
  intros Hi. unfold slice_from.
  destruct (i <? 0) eqn:Hneg; [lia | reflexivity].
Qed.

Lemma emit_loop_emitted (idx : Z) (messages : list Message) (w : World Store) :
  Runner.emit_loop idx messages w = (w, emitted idx messages, Ok tt).
Proof.
  revert idx. induction messages as [|msg rest IH]; intros idx; [done|].
  cbn [Runner.emit_loop emitted]. unfold bind at 1.
  destruct (Runner.rendering msg) as [text|]; cbn; by rewrite IH.
Qed.

(** What one drain does, in full. *)
Lemma drain_spec (thread_id : str) (start_idx : Z) (trace_started : bool)
    (w : World Store) :
  let messages := stored_messages (memory_checkpointer w) thread_id in
  let total := Z.of_nat (length messages) in
  let cursor := clamped start_idx total in
  Runner._emit_new_messages thread_id start_idx trace_started w =
    if total <=? cursor
    then (w, [], Ok (total, trace_started, false))
    else (w,
          (if trace_started then [] else [Print trace_header])
            ++ emitted (cursor + 1) (drop (Z.to_nat cursor) messages),
          Ok (total, true, true)).
Proof.
  intros messages total cursor.
  unfold Runner._emit_new_messages.
  rewrite (bind_ok _ _ _ _ _ _ (get_messages_stored thread_id w)).
  fold messages. fold total.
  change (if (if start_idx <? 0 then 0 else start_idx) >? total
          then total else (if start_idx <? 0 then 0 else start_idx))
    with cursor.
  assert (0 <= cursor <= total) as Hrange by (apply clamped_range; lia).
  destruct (cursor >=? total) eqn:Hge.
  - assert ((total <=? cursor) = true) as -> by lia. reflexivity.
  - assert ((total <=? cursor) = false) as -> by lia.
    rewrite slice_from_nonneg by lia.
    destruct trace_started; cbn [negb app];
      unfold bind, print, emit, ret; rewrite emit_loop_emitted;
      cbn [app]; by rewrite app_nil_r.
Qed.

End DrainFacts.

Section DrainClaims.
Context {Store : Type} `{!CheckpointSaver Store} `{!Unicode}.

(** C6. For every thread and every integer cursor, negative or beyond the
    message count, the drain returns without raising. The cursor it works
    with is the given one clamped into [0, len(messages)]; the slice it
    takes starts at that non-negative position; when the clamped cursor has
    reached len(messages) it prints nothing and returns (len(messages),
    False); and against a thread with no messages every cursor clamps
    to 0. *)
Theorem drain_clamps_cursor (thread_id : str) (start_idx : Z)
    (trace_started : bool) (w : World Store) :
  let messages := stored_messages (memory_checkpointer w) thread_id in
  let total := Z.of_nat (length messages) in
  let cursor := clamped start_idx total in
  0 <= cursor <= total
  /\ cursor = Z.min (Z.max 0 start_idx) total
  /\ clamped start_idx 0 = 0
  /\ slice_from cursor messages = drop (Z.to_nat cursor) messages
  /\ Runner._emit_new_messages thread_id start_idx trace_started w =
       (if total <=? cursor
        then (w, [], Ok (total, trace_started, false))
        else (w,
              (if trace_started then [] else [Print trace_header])
                ++ emitted (cursor + 1) (drop (Z.to_nat cursor) messages),
              Ok (total, true, true)))
  /\ (messages = [] ->
      Runner._emit_new_messages thread_id start_idx trace_started w =
        (w, [], Ok (0, trace_started, false))).
Proof.
  intros messages total cursor.
  assert (0 <= total) as Htotal by (unfold total; lia).
  assert (0 <= cursor <= total) as Hrange by by apply clamped_range.
  split; [done|]. split; [by apply clamped_min_max|].
  split; [rewrite clamped_min_max by done; lia|].
  split; [apply slice_from_nonneg; lia|].
  split; [apply drain_spec|].
  intros Hempty. rewrite drain_spec. cbv zeta. fold messages total cursor.
  assert (total = 0) as Hzero by (unfold total; by rewrite Hempty).
  assert ((total <=? cursor) = true) as -> by lia.
  by rewrite Hzero.
Qed.

(** C2, as the code has it. A second drain that is handed the cursor and
    the header flag the first one returned, with nothing appended in
    between, prints nothing and reports did_emit = False; the first drain
    leaves the state as it found it. *)
Theorem drain_again_is_silent (thread_id : str) (start_idx : Z)
    (trace_started : bool) (w : World Store) :
  exists out cursor started did_emit,
    Runner._emit_new_messages thread_id start_idx trace_started w =
      (w, out, Ok (cursor, started, did_emit))
    /\ Runner._emit_new_messages thread_id cursor started w =
         (w, [], Ok (cursor, started, false)).
Proof.
  pose proof (drain_spec thread_id start_idx trace_started w) as Hfirst.
  cbv zeta in Hfirst.
  set (total :=
         Z.of_nat (length (stored_messages (memory_checkpointer w) thread_id)))
    in *.
  assert (0 <= total) as Htotal by (unfold total; lia).
  assert (Runner._emit_new_messages thread_id total true w =
            (w, [], Ok (total, true, false))
          /\ Runner._emit_new_messages thread_id total trace_started w =
               (w, [], Ok (total, trace_started, false))) as [Htrue Hsame].
  { split; rewrite drain_spec; cbv zeta; fold total;
      rewrite clamped_fixed by done;
      by assert ((total <=? total) = true) as -> by lia. }
  destruct (total <=? clamped start_idx total) eqn:Hreached.
  - exists [], total, trace_started, false. by rewrite Hfirst.
  - eexists _, total, true, true. by rewrite Hfirst.
Qed.

End DrainClaims.

(** C2, as stated, fails. The thread holds one message and nothing is
    appended; the drain is called twice with the same thread and the same
    cursor 0. The second call prints the message again and reports
    did_emit = True, whether it is given the header flag of the first call
    or the one the first call returned. *)
Lemma drain_same_cursor_emits_again :
  let w := Fixture.world_of (Fixture.holding "t1" Fixture.hello) ∅ in
  let first := Runner._emit_new_messages "t1" 0 false w in
  let shown := nl +:+ "[" +:+ label_user +:+ "]" +:+ nl +:+ "hi" in
  first = (w, [Print trace_header; Emit 1 shown], Ok (1, true, true))
  /\ Runner._emit_new_messages "t1" 0 false first.1.1 = first
  /\ Runner._emit_new_messages "t1" 0 true first.1.1 =
       (w, [Emit 1 shown], Ok (1, true, true)).
Proof. vm_compute. repeat split. Qed.

(** ** What one message is printed as *)

Section Rendering.
Context `{!Unicode}.

Lemma append_empty_r (s : str) : s +:+ "" = s.
Proof.
  induction s as [|c s IH]; [done|].
  change (c :: (s +:+ "") = c :: s). by rewrite IH.
Qed.

Lemma slice_to_length (n : nat) (s : str) :
  length (slice_to n s) = Nat.min n (length s).
Proof.
  revert s. induction n as [|n IH]; intros [|c s]; cbn; try done.
  by rewrite IH.
Qed.

Lemma slice_to_all (n : nat) (s : str) :
  (length s <= n)%nat -> slice_to n s = s.
Proof.
  revert s. induction n as [|n IH]; intros [|c s]; cbn; try done; try lia.
  intros Hle. rewrite IH; [done | lia].
Qed.

Lemma role_label_truthy (msg_role msg_type : str) :
  truthy (Runner.role_label_of msg_role msg_type) = true.
Proof.
  unfold Runner.role_label_of.
  destruct (_ || _); [done|]. by destruct (_ || _).
Qed.

Lemma truncation_marker_truthy : truncation_marker <> "".
Proof. discriminate. Qed.

(** The loop body, with the label and the stripped content named. *)
Lemma rendering_spec (msg : Message) :
  Runner.rendering msg =
    if truthy (stripped_content msg)
    then Some (nl +:+ "["
               +:+ Runner.role_label_of (role_field msg) (type_tag msg)
               +:+ "]" +:+ nl +:+ slice_to 2000 (stripped_content msg)
               +:+ (if len (stripped_content msg) >? 2000
                    then truncation_marker else ""))
    else None.
Proof.
  unfold Runner.rendering. fold (stripped_content msg).
  fold (role_field msg). fold (type_tag msg).
  destruct (truthy (stripped_content msg)); [|done].
  unfold str_or at 1. by rewrite role_label_truthy.
Qed.


(** C8. A printed message shows the first 2000 characters of its stripped
    content, followed by the truncation marker exactly when that content is
    longer than 2000 characters: content of length 2000 is shown whole with
    no marker, content of length 2001 as 2000 characters and the marker. *)
Theorem truncation_at_2000 (msg : Message) (text : str) :
  Runner.rendering msg = Some text ->
  let content := stripped_content msg in
  let label := Runner.role_label_of (role_field msg) (type_tag msg) in
  let shown body := nl +:+ "[" +:+ label +:+ "]" +:+ nl +:+ body in
  let preview := slice_to 2000 content in
  exists suffix,
    text = shown (preview +:+ suffix)
    /\ length preview = Nat.min 2000 (length content)
    /\ (suffix = truncation_marker <-> 2000 < len content)
    /\ (suffix = "" <-> len content <= 2000)
    /\ (len content = 2000 -> text = shown content)
    /\ (len content = 2001 ->
        length preview = 2000%nat
        /\ text = shown (preview +:+ truncation_marker)).
Proof.
  rewrite rendering_spec. intros Htext content label shown preview.
  fold content in Htext.
  destruct (truthy content); [|discriminate].
  apply (inj Some) in Htext. subst text.
  exists (if len content >? 2000 then truncation_marker else "").
  assert (length preview = Nat.min 2000 (length content))
    as Hlen by apply slice_to_length.
  split; [reflexivity|]. split; [done|].
  unfold len in *.
  destruct (Z.of_nat (length content) >? 2000) eqn:Hlong.
  - split; [split; [intros _; lia | reflexivity]|].
    split; [split; [intros [=] | intros; lia]|].
    split; [intros; lia|].
    intros Hexact. split; [rewrite Hlen; lia | reflexivity].
  - split; [split; [intros Hmark | intros; lia]|].
    { symmetry in Hmark. by destruct truncation_marker_truthy. }
    split; [split; [intros _; lia | reflexivity]|].
    split; [|intros; lia].
    intros Hexact. unfold preview, shown.
    rewrite slice_to_all by lia. by rewrite append_empty_r.
Qed.

End Rendering.



(** C8, witness: a reply of 2001 characters between blanks. The blanks
    are stripped, 2000 characters are shown and the marker follows. *)
Lemma truncation_at_2000_witness :
  Runner.rendering Fixture.long_reply
    = Some (nl +:+ "[" +:+ label_model +:+ "]" +:+ nl
            +:+ str_mul "好" 2000 +:+ truncation_marker)
  /\ stripped_content Fixture.long_reply = str_mul "好" 2001
  /\ length (slice_to 2000 (stripped_content Fixture.long_reply))
       = 2000%nat.
Proof.
  assert (Runner.rendering Fixture.long_reply
            = Some (nl +:+ "[" +:+ label_model +:+ "]" +:+ nl
                    +:+ str_mul "好" 2000 +:+ truncation_marker))
    as Hshown by (vm_compute; reflexivity).
  split; [exact Hshown|]. split; [vm_compute; reflexivity|].
  destruct (truncation_at_2000 _ _ Hshown)
    as (suffix & _ & _ & _ & _ & _ & Hover).
  apply Hover. vm_compute. reflexivity.
Defined.

(** ** One turn: [run_agent] *)

Section TurnFacts.
Context {Store : Type} `{!CheckpointSaver Store} `{!Unicode}.

Lemma drain_returns (thread_id : str) (start_idx : Z) (trace_started : bool)
    (w : World Store) :
  exists out started did_emit,
    Runner._emit_new_messages thread_id start_idx trace_started w =
      (w, out,
       Ok (message_count (memory_checkpointer w) thread_id, started, did_emit)).
Proof.
  rewrite drain_spec. cbv zeta. unfold message_count.
  destruct (_ <=? _); eauto.
Qed.

Lemma poll_loop_returns (thread_id : str) (show_trace : bool)
    (seen : list Store) (start_idx : Z) (trace_started spinner_active : bool)
    (w : World Store) :
  exists w' out cursor started spinning,
    Runner.poll_loop thread_id show_trace seen start_idx trace_started
      spinner_active w = (w', out, Ok (cursor, started, spinning))
    /\ _history_offsets w' = _history_offsets w
    /\ memory_checkpointer w' = List.last seen (memory_checkpointer w).
Proof.
  revert start_idx trace_started spinner_active w.
  induction seen as [|st later IH];
    intros start_idx trace_started spinner_active w.
  { by exists w, [], start_idx, trace_started, spinner_active. }
  cbn [Runner.poll_loop].
  set (w1 := {| memory_checkpointer := st;
                _history_offsets := _history_offsets w |}).
  assert (memory_checkpointer w1 = st) as Hst by done.
  assert (_history_offsets w1 = _history_offsets w) as Hoff by done.
  assert (List.last (st :: later) (memory_checkpointer w)
          = List.last later (memory_checkpointer w1)) as ->.
  { rewrite Hst. clear. revert st.
    induction later as [|x l IHl]; intros st; [done|].
    cbn [List.last] in *. destruct l; [done|]. apply IHl. }
  rewrite <- Hoff.
  unfold bind, store_becomes, ret, emit. fold w1. cbv beta iota zeta.
  destruct show_trace.
  - destruct (drain_returns thread_id start_idx trace_started w1)
      as (out1 & started & did_emit & ->).
    cbv beta iota zeta.
    destruct (did_emit && spinner_active); cbv beta iota zeta.
    + destruct (IH (message_count (memory_checkpointer w1) thread_id)
                  started false w1) as (w' & out & c & s & p & -> & ? & ?).
      eauto 10.
    + destruct (IH (message_count (memory_checkpointer w1) thread_id)
                  started spinner_active w1)
        as (w' & out & c & s & p & -> & ? & ?).
      eauto 10.
  - destruct (IH start_idx trace_started spinner_active w1)
      as (w' & out & c & s & p & -> & ? & ?).
    eauto 10.
Qed.

Lemma run_agent_unavailable (e : exn) (user_input thread_id : str)
    (show_trace : bool) (w : World Store) :
  Runner.run_agent (Raise e) user_input thread_id show_trace w =
    (w, [Print (nl +:+ "❌ 交互错误：" +:+ exn_str e +:+ nl)], Ok "").
Proof. reflexivity. Qed.

(** The store once the worker has ended, with the offsets as they were. *)
Lemma run_agent_try_stages (agent : Invocation Store)
    (user_input thread_id : str) (show_trace : bool) (w : World Store) :
  let w_end := {| memory_checkpointer := seen_at_end agent;
                  _history_offsets := _history_offsets w |} in
  exists w1 out1 cursor1 started1 spinning out2 cursor2,
    Runner.poll_loop thread_id show_trace (seen_while_alive agent)
      (offset_of w thread_id) false true w
      = (w1, out1, Ok (cursor1, started1, spinning))
    /\ (if show_trace
        then exists started2 did_emit,
               Runner._emit_new_messages thread_id cursor1 started1 w_end
                 = (w_end, out2, Ok (cursor2, started2, did_emit))
        else out2 = [] /\ cursor2 = cursor1)
    /\ forall w3 out3 r,
         Runner.conclude thread_id cursor2
           (Runner._invoke_agent (outcome agent)
              {| Runner.box_result := None; Runner.box_error := None |})
           w_end = (w3, out3, r) ->
         Runner.run_agent_try (Ok agent) user_input thread_id show_trace w =
           (w3,
            [SpinnerStart] ++ out1
              ++ (if spinning then [SpinnerStop] else [])
              ++ out2 ++ out3,
            r).
Proof.
  intros w_end.
  destruct (poll_loop_returns thread_id show_trace (seen_while_alive agent)
              (offset_of w thread_id) false true w)
    as (w1 & out1 & cursor1 & started1 & spinning & Hpoll & Hoff & _).
  assert (exists out2 cursor2,
            if show_trace
            then exists started2 did_emit,
                   Runner._emit_new_messages thread_id cursor1 started1 w_end
                     = (w_end, out2, Ok (cursor2, started2, did_emit))
            else out2 = [] /\ cursor2 = cursor1) as (out2 & cursor2 & Hlast).
  { destruct show_trace; [|by eauto].
    destruct (drain_returns thread_id cursor1 started1 w_end)
      as (out2 & started2 & did_emit & Hdrain). eauto 10. }
  exists w1, out1, cursor1, started1, spinning, out2, cursor2.
  split; [exact Hpoll|]. split; [exact Hlast|].
  intros w3 out3 r Hconclude.
  unfold Runner.run_agent_try, bind, lift, emit, offset_get, store_becomes, ret.
  fold (offset_of w thread_id). cbv beta iota zeta.
  rewrite Hpoll. cbv beta iota zeta. rewrite Hoff. fold w_end.
  destruct spinning, show_trace; cbv beta iota zeta.
  all: try (destruct Hlast as (started2 & did_emit & ->));
    try (destruct Hlast as (-> & ->)); cbv beta iota zeta;
    rewrite Hconclude; cbn [app]; by rewrite ?app_nil_r.
Qed.

Lemma conclude_error (thread_id : str) (cursor : Z) (e : exn)
    (w : World Store) :
  Runner.conclude thread_id cursor
    (Runner._invoke_agent (Raise e)
       {| Runner.box_result := None; Runner.box_error := None |}) w
  = (w, [], Raise e).
Proof. reflexivity. Qed.

(** What a turn whose executor raises does, stage by stage. *)
Lemma run_agent_raised (agent : Invocation Store) (e : exn)
    (user_input thread_id : str) (show_trace : bool) (w : World Store) :
  outcome agent = Raise e ->
  exists w1 out1 cursor1 started1 spinning out2 cursor2,
    Runner.poll_loop thread_id show_trace (seen_while_alive agent)
      (offset_of w thread_id) false true w
      = (w1, out1, Ok (cursor1, started1, spinning))
    /\ (if show_trace
        then exists started2 did_emit,
               Runner._emit_new_messages thread_id cursor1 started1
                 {| memory_checkpointer := seen_at_end agent;
                    _history_offsets := _history_offsets w |}
                 = ({| memory_checkpointer := seen_at_end agent;
                       _history_offsets := _history_offsets w |},
                    out2, Ok (cursor2, started2, did_emit))
        else out2 = [] /\ cursor2 = cursor1)
    /\ Runner.run_agent (Ok agent) user_input thread_id show_trace w =
         ({| memory_checkpointer := seen_at_end agent;
             _history_offsets := _history_offsets w |},
          [SpinnerStart] ++ out1
            ++ (if spinning then [SpinnerStop] else []) ++ out2
            ++ [Print (nl +:+ "❌ 交互错误：" +:+ exn_str e +:+ nl)],
          Ok "").
Proof.
  intros Hraise.
  destruct (run_agent_try_stages agent user_input thread_id show_trace w)
    as (w1 & out1 & cursor1 & started1 & spinning & out2 & cursor2
        & Hpoll & Hlast & Hrun).
  exists w1, out1, cursor1, started1, spinning, out2, cursor2.
  split; [exact Hpoll|]. split; [exact Hlast|].
  rewrite Hraise in Hrun.
  unfold Runner.run_agent, try_except.
  rewrite (Hrun _ _ _ (conclude_error thread_id cursor2 e _)).
  unfold bind, print, emit, ret. cbn [app].
  by rewrite !app_nil_r, <- !app_assoc.
Qed.

(** C4. When the executor raises, [run_agent] still drains once more after
    the worker has ended, against the store as the worker left it (when the
    trace is shown); it then prints the failure and returns the empty text
    instead of raising; and the read offsets are the ones it started
    with. *)
Theorem failed_turn_drains_and_keeps_offset (agent : Invocation Store)
    (e : exn) (user_input thread_id : str) (show_trace : bool)
    (w : World Store) :
  outcome agent = Raise e ->
  let w_end := {| memory_checkpointer := seen_at_end agent;
                  _history_offsets := _history_offsets w |} in
  exists w1 out1 cursor started spinning,
    Runner.poll_loop thread_id show_trace (seen_while_alive agent)
      (offset_of w thread_id) false true w
      = (w1, out1, Ok (cursor, started, spinning))
    /\ Runner.run_agent (Ok agent) user_input thread_id show_trace w =
         (w_end,
          [SpinnerStart] ++ out1
            ++ (if spinning then [SpinnerStop] else [])
            ++ (if show_trace
                then (Runner._emit_new_messages thread_id cursor started
                        w_end).1.2
                else [])
            ++ [Print (nl +:+ "❌ 交互错误：" +:+ exn_str e +:+ nl)],
          Ok "")
    /\ offset_of w_end thread_id = offset_of w thread_id
    /\ _history_offsets w_end = _history_offsets w.
Proof.
  intros Hraise w_end.
  destruct (run_agent_raised agent e user_input thread_id show_trace w
              Hraise)
    as (w1 & out1 & cursor & started & spinning & out2 & cursor2
        & Hpoll & Hlast & Hrun).
  fold w_end in Hlast, Hrun.
  exists w1, out1, cursor, started, spinning.
  split; [exact Hpoll|]. split; [|done].
  rewrite Hrun.
  assert (out2 = if show_trace
                 then (Runner._emit_new_messages thread_id cursor started
                         w_end).1.2
                 else []) as <-; [|reflexivity].
  destruct show_trace.
  - by destruct Hlast as (started2 & did_emit & ->).
  - by destruct Hlast as [-> _].
Qed.

Lemma conclude_returned (thread_id : str) (cursor : Z) (returned : Result)
    (w : World Store) :
  Runner.conclude thread_id cursor
    (Runner._invoke_agent (Ok returned)
       {| Runner.box_result := None; Runner.box_error := None |}) w
  = match final_text returned with
    | Raise e => (w, [], Raise e)
    | Ok text =>
        ({| memory_checkpointer := memory_checkpointer w;
            _history_offsets :=
              <[thread_id := stored_offset returned cursor]>
                (_history_offsets w) |},
         final_prints text, Ok text)
    end.
Proof.
  unfold Runner.conclude, final_text, stored_offset, final_prints.
  cbn [Runner._invoke_agent Runner.box_error Runner.box_result default
       from_option id].
  unfold bind, lift, offset_set, print, emit, ret.
  destruct (r_messages returned) as [[|first rest]|];
    cbv beta iota zeta; destruct (strip_method _); reflexivity.
Qed.

(** What a turn whose executor returns does, in full. *)
Lemma run_agent_returned (agent : Invocation Store) (returned : Result)
    (user_input thread_id : str) (show_trace : bool) (w : World Store) :
  outcome agent = Ok returned ->
  exists w1 out1 cursor1 started1 spinning out2 cursor2,
    Runner.poll_loop thread_id show_trace (seen_while_alive agent)
      (offset_of w thread_id) false true w
      = (w1, out1, Ok (cursor1, started1, spinning))
    /\ (if show_trace
        then exists started2 did_emit,
               Runner._emit_new_messages thread_id cursor1 started1
                 {| memory_checkpointer := seen_at_end agent;
                    _history_offsets := _history_offsets w |}
                 = ({| memory_checkpointer := seen_at_end agent;
                       _history_offsets := _history_offsets w |},
                    out2, Ok (cursor2, started2, did_emit))
        else out2 = [] /\ cursor2 = cursor1)
    /\ Runner.run_agent (Ok agent) user_input thread_id show_trace w =
         match final_text returned with
         | Raise e =>
             ({| memory_checkpointer := seen_at_end agent;
                 _history_offsets := _history_offsets w |},
              [SpinnerStart] ++ out1
                ++ (if spinning then [SpinnerStop] else []) ++ out2
                ++ [Print (nl +:+ "❌ 交互错误：" +:+ exn_str e +:+ nl)],
              Ok "")
         | Ok text =>
             ({| memory_checkpointer := seen_at_end agent;
                 _history_offsets :=
                   <[thread_id := stored_offset returned cursor2]>
                     (_history_offsets w) |},
              [SpinnerStart] ++ out1
                ++ (if spinning then [SpinnerStop] else []) ++ out2
                ++ final_prints text,
              Ok text)
         end.
Proof.
  intros Hreturned.
  destruct (run_agent_try_stages agent user_input thread_id show_trace w)
    as (w1 & out1 & cursor1 & started1 & spinning & out2 & cursor2
        & Hpoll & Hlast & Hrun).
  exists w1, out1, cursor1, started1, spinning, out2, cursor2.
  split; [exact Hpoll|]. split; [exact Hlast|].
  rewrite Hreturned in Hrun.
  unfold Runner.run_agent, try_except.
  pose proof (conclude_returned thread_id cursor2 returned
                {| memory_checkpointer := seen_at_end agent;
                   _history_offsets := _history_offsets w |}) as Hconclude.
  destruct (final_text returned) as [text|e];
    rewrite (Hrun _ _ _ Hconclude); [reflexivity|].
  unfold bind, print, emit, ret. cbn [app].
  by rewrite !app_nil_r, <- !app_assoc.
Qed.

Lemma trace_loop_returns (idx : Z) (messages : list Message) (w : World Store) :
  exists out, Main.trace_loop idx messages w = (w, out, Ok tt).
Proof.
  revert idx. induction messages as [|msg rest IH]; intros idx.
  { by exists []. }
  destruct (IH (idx + 1)) as (out & Hrest).
  cbn [Main.trace_loop]. unfold bind.
  destruct (Main.rendering msg); unfold emit, ret; rewrite Hrest; eauto.
Qed.

Lemma runner_answer (get_agent : result (Invocation Store))
    (user_input thread_id : str) (show_trace : bool) (w : World Store) :
  (Runner.run_agent get_agent user_input thread_id show_trace w).2
    = Ok (answer get_agent).
Proof.
  destruct get_agent as [agent|e]; [|reflexivity].
  unfold answer. destruct (outcome agent) as [returned|e] eqn:Houtcome.
  - destruct (run_agent_returned agent returned user_input thread_id
                show_trace w Houtcome)
      as (? & ? & ? & ? & ? & ? & ? & _ & _ & ->).
    by destruct (final_text returned).
  - destruct (run_agent_raised agent e user_input thread_id show_trace w
                Houtcome) as (? & ? & ? & ? & ? & ? & ? & _ & _ & ->).
    reflexivity.
Qed.

Lemma main_answer (get_agent : result (Invocation Store))
    (user_input thread_id : str) (show_trace : bool) (w : World Store) :
  (Main.run_agent get_agent user_input thread_id show_trace w).2
    = Ok (answer get_agent).
Proof.
  destruct get_agent as [agent|e]; [|reflexivity].
  unfold answer, Main.run_agent, Main.run_agent_try, try_except, bind, lift,
    store_becomes, print, emit, ret.
  cbv beta iota zeta.
  destruct (outcome agent) as [returned|e]; [|reflexivity].
  cbv beta iota zeta. unfold final_text.
  destruct show_trace, (r_messages returned) as [[|first rest]|];
    cbv beta iota zeta;
    try match goal with
        | |- context [Main.trace_loop 1 ?messages ?w0] =>
            destruct (trace_loop_returns 1 messages w0) as (out & ->)
        end;
    cbv beta iota zeta; destruct (strip_method _); reflexivity.
Qed.

(** The two entry points return the same final text for the same
    executor outcome: the stripped content of the last element of the
    result's "messages" when that list is not empty, else the stripped
    "output" field, else the stripped text of the whole result (and the
    empty text when the agent cannot be had, the executor raises, or the
    value to strip is not text). *)
Theorem entry_points_agree (get_agent : result (Invocation Store))
    (user_input thread_id : str) (show_trace : bool)
    (w_main w_runner : World Store) :
  (Main.run_agent get_agent user_input thread_id show_trace w_main).2
    = (Runner.run_agent get_agent user_input thread_id show_trace w_runner).2
  /\ (Runner.run_agent get_agent user_input thread_id show_trace w_runner).2
       = Ok (answer get_agent)
  /\ (forall agent returned first rest content,
        get_agent = Ok agent -> outcome agent = Ok returned ->
        r_messages returned = Some (first :: rest) ->
        msg_content (last_of first rest) = Some (PyStr content) ->
        answer get_agent = strip (str_of (PyStr content)))
  /\ (forall agent returned output,
        get_agent = Ok agent -> outcome agent = Ok returned ->
        r_messages returned = None \/ r_messages returned = Some [] ->
        r_output returned = Some (PyStr output) ->
        answer get_agent = strip output)
  /\ (forall agent returned,
        get_agent = Ok agent -> outcome agent = Ok returned ->
        r_messages returned = None \/ r_messages returned = Some [] ->
        r_output returned = None ->
        answer get_agent = strip (r_str returned)).
Proof.
  split; [by rewrite main_answer, runner_answer|].
  split; [apply runner_answer|].
  unfold answer, final_text.
  repeat split.
  - intros agent returned first rest content -> -> -> ->. reflexivity.
  - intros agent returned output -> -> [-> | ->] ->; reflexivity.
  - intros agent returned -> -> [-> | ->] ->; reflexivity.
Qed.

(** On any store [clear_memory] hands the deletion to the store and never
    raises: it prints the success line when the store's delete returns and
    the failure line when it raises. It leaves the read offsets as they
    were, so the next turn on the thread starts its drain cursor at the
    offset stored before the clear, and the drain clamps that cursor into
    [0, len(messages)] of what the thread now holds. *)
Lemma clear_memory_any_store (thread_id : str) (w : World Store) :
  let deleted := saver_delete (memory_checkpointer w) thread_id in
  let w' := {| memory_checkpointer := deleted.1;
               _history_offsets := _history_offsets w |} in
  let total := message_count deleted.1 thread_id in
  Memory.clear_memory thread_id w =
    (w',
     [Print match deleted.2 with
            | Ok _ => "🧹 已清除对话记忆 (线程: " +:+ thread_id +:+ ")"
            | Raise e => "❌ 清除记忆失败：" +:+ exn_str e
            end],
     Ok tt)
  /\ _history_offsets w' = _history_offsets w
  /\ offset_get thread_id w' = (w', [], Ok (offset_of w thread_id))
  /\ 0 <= clamped (offset_of w thread_id) total <= total
  /\ forall trace_started,
       exists out started did_emit,
         Runner._emit_new_messages thread_id (offset_of w thread_id)
           trace_started w' = (w', out, Ok (total, started, did_emit)).
Proof.
  intros deleted w' total.
  split.
  { unfold Memory.clear_memory, Memory.checkpointer_delete, try_except, bind,
      get_world, put_world, lift, print, emit, ret.
    cbv beta iota zeta. fold deleted. unfold w'.
    destruct deleted as [st [[]|e]]; reflexivity. }
  split; [done|]. split; [done|].
  split; [apply clamped_range; unfold total, message_count; lia|].
  intros trace_started. apply drain_returns.
Qed.

End TurnFacts.

(** ** Clearing a thread *)

Section ClearFacts.
Context `{!Unicode}.

(** C3, as the code has it, on the store modelled from the spec.
    [clear_memory] never raises. It removes the thread's messages from
    the store, printing the success line, and prints the failure line
    when the thread had no recorded state; the other threads keep their
    messages. It leaves the read offsets as they were: the next turn on
    the thread starts its drain cursor at the offset stored before the
    clear, and the drain clamps that cursor to 0 on the emptied thread,
    printing nothing. *)
Theorem clear_memory_leaves_offsets (thread_id : str)
    (w : World InMemorySaver) :
  let recorded :=
    (memory_checkpointer w : gmap str (list Message)) !! thread_id in
  let cleared := Memory.clear_memory thread_id w in
  let w' := cleared.1.1 in
  cleared.2 = Ok tt
  /\ (recorded <> None ->
      cleared.1.2
      = [Print ("🧹 已清除对话记忆 (线程: " +:+ thread_id +:+ ")")])
  /\ (recorded = None ->
      memory_checkpointer w' = memory_checkpointer w
      /\ exists e, cleared.1.2 = [Print ("❌ 清除记忆失败：" +:+ exn_str e)])
  /\ stored_messages (memory_checkpointer w') thread_id = []
  /\ Memory.get_messages thread_id w' = (w', [], Ok [])
  /\ (forall other,
        other <> thread_id ->
        stored_messages (memory_checkpointer w') other
        = stored_messages (memory_checkpointer w) other)
  /\ _history_offsets w' = _history_offsets w
  /\ offset_get thread_id w' = (w', [], Ok (offset_of w thread_id))
  /\ forall trace_started,
       Runner._emit_new_messages thread_id (offset_of w thread_id)
         trace_started w'
       = (w', [], Ok (0, trace_started, false)).
Proof.
  intros recorded cleared w'.
  destruct (clear_memory_any_store thread_id w) as (Hrun & _).
  cbv zeta in Hrun. subst w' cleared. rewrite Hrun. clear Hrun.
  cbn [fst snd _history_offsets saver_delete in_memory_saver].
  unfold delete_thread. fold recorded.
  match goal with
  | |- context [{| memory_checkpointer := ?st |}] => set (st' := st)
  end.
  assert ((st' : gmap str (list Message)) !! thread_id = None) as Hgone.
  { subst st'. destruct recorded eqn:Hrecorded; cbn [fst].
    - apply lookup_delete_eq.
    - exact Hrecorded. }
  assert (stored_messages st' thread_id = []) as Hemptied.
  { unfold stored_messages. cbn [saver_get in_memory_saver].
    unfold get_checkpoint. by rewrite Hgone. }
  split; [done|].
  split; [intros Hsome; by destruct recorded|].
  split.
  { intros ->. split; [done|]. eauto. }
  split; [done|].
  split; [rewrite get_messages_stored; cbn [memory_checkpointer]; by rewrite Hemptied|].
  split.
  { intros other Hother. unfold stored_messages.
    cbn [saver_get in_memory_saver memory_checkpointer].
    unfold get_checkpoint. subst st'.
    destruct recorded; cbn [fst]; [|done].
    by rewrite lookup_delete_ne. }
  split; [done|]. split; [done|].
  intros trace_started. rewrite drain_spec. cbv zeta.
  cbn [memory_checkpointer]. rewrite Hemptied.
  change (Z.of_nat (length (@nil Message))) with 0.
  assert (clamped (offset_of w thread_id) 0 = 0) as ->
    by (pose proof (clamped_range (offset_of w thread_id) 0); lia).
  done.
Qed.

End ClearFacts.

(** C4, witness: the executor stores the user's message and raises. The
    last drain shows that message, the failure is printed, the empty text
    is returned and thread "t1" still has no offset. *)
Lemma failed_turn_drains_and_keeps_offset_witness :
  outcome Fixture.failing_turn = Raise (Exception "connection lost")
  /\ Runner.run_agent (Ok Fixture.failing_turn) "hi" "t1" true startup =
       (Fixture.world_of (Fixture.holding "t1" Fixture.hello) ∅,
        [SpinnerStart; SpinnerStop; Print trace_header;
         Emit 1 (nl +:+ "[" +:+ label_user +:+ "]" +:+ nl +:+ "hi");
         Print (nl +:+ "❌ 交互错误：connection lost" +:+ nl)],
        Ok "").
Proof.
  split; [reflexivity|].
  destruct (failed_turn_drains_and_keeps_offset Fixture.failing_turn
              (Exception "connection lost") "hi" "t1" true startup eq_refl)
    as (w1 & out1 & cursor & started & spinning & Hpoll & -> & _).
  vm_compute in Hpoll.
  injection Hpoll as <- <- <- <- <-.
  vm_compute. reflexivity.
Defined.

(** C3, as stated, fails. After the first turn of the scenario thread "t1"
    holds two messages and its read offset is 2. [clear_memory] empties the
    thread and reports success, but the offset entry is still there: the
    next turn reads 2, not 0, as its starting cursor. *)
Lemma clear_memory_keeps_offset_entry :
  let w1 := (Runner.run_agent (Ok Fixture.turn_one) "list files" "t1" true
               startup).1.1 in
  let cleared := Memory.clear_memory "t1" w1 in
  let w2 := cleared.1.1 in
  _history_offsets w1 !! "t1" = Some 2
  /\ cleared.2 = Ok tt
  /\ cleared.1.2 = [Print "🧹 已清除对话记忆 (线程: t1)"]
  /\ stored_messages (memory_checkpointer w2) "t1" = []
  /\ _history_offsets w2 !! "t1" = Some 2
  /\ offset_get "t1" w2 = (w2, [], Ok 2).
Proof. vm_compute. repeat split. Qed.

(** C1, at the failing input. The executor returns two messages, the last
    with a list of content blocks as its content. [run_agent] calls
    [.strip()] on the list: it prints the attribute error, returns the
    empty text and stores no offset for the thread, where the text of the
    content, stripped, is not empty and the result holds two messages. *)
Lemma run_agent_blocks_content :
  Runner.run_agent (Ok Fixture.turn_with_blocks) "hi" "t1" false startup =
    (Fixture.world_of (seen_at_end Fixture.turn_with_blocks) ∅,
     [SpinnerStart; SpinnerStop;
      Print (nl +:+ "❌ 交互错误：'list' object has no attribute 'strip'"
             +:+ nl)],
     Ok "")
  /\ strip (str_of Fixture.blocks) = "[{'type': 'text', 'text': 'done'}]"
  /\ Runner.rendering (AIMessage Fixture.blocks) =
       Some (nl +:+ "[" +:+ label_model +:+ "]" +:+ nl
             +:+ "[{'type': 'text', 'text': 'done'}]").
Proof. vm_compute. repeat split. Qed.

(** C10, at the failing input, and where the rule is kept. On a reply
    whose content is a list of content blocks both entry points call
    [.strip()] on the list and return the empty text, where the content
    coerced to text and stripped is not empty. On the last of two messages
    with text between blanks both return the text stripped, on a result
    with only an "output" the output stripped, and on the empty dict its
    text. *)
Lemma entry_points_blocks_content :
  (Main.run_agent (Ok Fixture.turn_with_blocks) "hi" "t1" false startup).2
    = Ok ""
  /\ (Runner.run_agent (Ok Fixture.turn_with_blocks) "hi" "t1" false
        startup).2 = Ok ""
  /\ strip (str_of Fixture.blocks) = "[{'type': 'text', 'text': 'done'}]"
  /\ (Main.run_agent (Ok Fixture.turn_reasons) "为什么" "t1" false
        startup).2 = Ok "原因"
  /\ (Runner.run_agent (Ok Fixture.turn_reasons) "为什么" "t1" false
        startup).2 = Ok "原因"
  /\ (Main.run_agent (Ok Sample.fallback_turn) "hi" "t1" false startup).2
       = Ok "原因"
  /\ (Runner.run_agent (Ok Sample.fallback_turn) "hi" "t1" false startup).2
       = Ok "原因"
  /\ (Main.run_agent (Ok Sample.bare_turn) "hi" "t1" false startup).2
       = Ok "{}"
  /\ (Runner.run_agent (Ok Sample.bare_turn) "hi" "t1" false startup).2
       = Ok "{}".
Proof. vm_compute. repeat split. Qed.

(** ** A session: turn after turn on one thread *)

Section IndexFacts.
Context `{!Unicode}.

Lemma emit_indices_app (a b : list event) :
  emit_indices (a ++ b) = emit_indices a ++ emit_indices b.
Proof.
  induction a as [|ev a IH]; [done|].
  destruct ev; cbn [app emit_indices]; by rewrite IH.
Qed.

Lemma between_nil (lo hi : Z) : between lo hi [].
Proof. split; constructor. Qed.

Lemma between_weaken (lo lo' hi hi' : Z) (l : list Z) :
  lo' <= lo -> hi <= hi' -> between lo hi l -> between lo' hi' l.
Proof.
  intros Hlo Hhi [Hsorted Hall]. split; [done|].
  eapply Forall_impl; [exact Hall|]. intros i ?. cbn in *. lia.
Qed.

Lemma between_app (lo mid hi : Z) (l1 l2 : list Z) :
  between lo mid l1 -> between mid hi l2 -> lo <= mid -> mid <= hi ->
  between lo hi (l1 ++ l2).
Proof.
  intros [Hs1 Ha1] [Hs2 Ha2] Hlo Hhi. split.
  - apply StronglySorted_app. split_and!; [|done|done].
    rewrite Forall_forall in Ha1. rewrite Forall_forall in Ha2.
    intros i j Hi Hj.
    specialize (Ha1 i Hi). specialize (Ha2 j Hj). cbn in *. lia.
  - apply Forall_app. split.
    + eapply Forall_impl; [exact Ha1|]. intros i ?. cbn in *. lia.
    + eapply Forall_impl; [exact Ha2|]. intros i ?. cbn in *. lia.
Qed.

Lemma between_NoDup (lo hi : Z) (l : list Z) : between lo hi l -> NoDup l.
Proof.
  intros [Hsorted _]. induction Hsorted as [|i l Hsorted IH Hall].
  - constructor.
  - apply NoDup_cons. split; [|done]. intros Hin.
    rewrite Forall_forall in Hall. specialize (Hall i Hin). lia.
Qed.

Lemma emitted_between (idx : Z) (messages : list Message) :
  between (idx - 1) (idx - 1 + Z.of_nat (length messages))
    (emit_indices (emitted idx messages)).
Proof.
  revert idx. induction messages as [|msg rest IH]; intros idx.
  { apply between_nil. }
  cbn [emitted length]. rewrite emit_indices_app.
  apply (between_app _ idx).
  - destruct (Runner.rendering msg); [|apply between_nil].
    cbn [emit_indices]. split; [repeat constructor|].
    constructor; [lia | constructor].
  - eapply between_weaken; [| |apply (IH (idx + 1))]; lia.
  - lia.
  - lia.
Qed.

End IndexFacts.

Section SessionFacts.
Context {Store : Type} `{!CheckpointSaver Store} `{!Unicode}.

Lemma message_count_nonneg (st : Store) (thread_id : str) :
  0 <= message_count st thread_id.
Proof. unfold message_count. lia. Qed.

(** A drain prints counters above the clamped cursor, up to the count. *)
Lemma drain_between (thread_id : str) (start_idx : Z)
    (trace_started : bool) (w : World Store) (lo : Z) :
  let total := message_count (memory_checkpointer w) thread_id in
  lo <= Z.max 0 start_idx -> lo <= total ->
  exists out started did_emit,
    Runner._emit_new_messages thread_id start_idx trace_started w
      = (w, out, Ok (total, started, did_emit))
    /\ between lo total (emit_indices out).
Proof.
  intros total Hcursor Htotal.
  rewrite drain_spec. cbv zeta.
  fold (message_count (memory_checkpointer w) thread_id). fold total.
  pose proof (message_count_nonneg (memory_checkpointer w) thread_id) as Hnn.
  fold total in Hnn.
  pose proof (clamped_min_max start_idx total Hnn) as Hclamped.
  set (cursor := clamped start_idx total) in *.
  destruct (total <=? cursor) eqn:Hreached.
  { exists [], trace_started, false. split; [done|]. apply between_nil. }
  eexists _, true, true. split; [reflexivity|].
  rewrite emit_indices_app.
  assert (emit_indices (if trace_started then [] else [Print trace_header])
          = []) as -> by by destruct trace_started.
  cbn [app].
  pose proof (emitted_between (cursor + 1)
                (drop (Z.to_nat cursor)
                   (stored_messages (memory_checkpointer w) thread_id)))
    as Hemitted.
  rewrite length_drop in Hemitted.
  eapply between_weaken; [| |exact Hemitted]; [lia|].
  unfold total, message_count in *. lia.
Qed.

(** The polling loop prints each counter once, in order, whatever the
    cursor it starts from, as long as the thread is not seen to shrink. *)
Lemma poll_loop_between (thread_id : str) (show_trace : bool)
    (seen : list Store) (start_idx : Z) (trace_started spinner_active : bool)
    (w : World Store) (lo : Z) :
  let counts := map (fun st => message_count st thread_id) seen in
  lo <= Z.max 0 start_idx ->
  Forall (fun total => lo <= total) counts ->
  StronglySorted Z.le counts ->
  exists w' out cursor started spinning hi,
    Runner.poll_loop thread_id show_trace seen start_idx trace_started
      spinner_active w = (w', out, Ok (cursor, started, spinning))
    /\ _history_offsets w' = _history_offsets w
    /\ lo <= hi /\ hi <= Z.max 0 cursor
    /\ (forall total,
          Forall (fun seen_total => seen_total <= total) counts ->
          lo <= total -> hi <= total)
    /\ between lo hi (emit_indices out).
Proof.
  revert start_idx trace_started spinner_active w lo.
  induction seen as [|st later IH];
    intros start_idx trace_started spinner_active w lo counts
      Hcursor Hlo Hsorted.
  { exists w, [], start_idx, trace_started, spinner_active, lo.
    split_and!; try done; try lia. apply between_nil. }
  subst counts. cbn [map] in Hlo, Hsorted |- *.
  apply Forall_cons in Hlo as [Hlo_st Hlo_later].
  apply StronglySorted_cons in Hsorted as [Hst_later Hsorted].
  cbn [Runner.poll_loop].
  set (w1 := {| memory_checkpointer := st;
                _history_offsets := _history_offsets w |}).
  assert (_history_offsets w1 = _history_offsets w) as Hoff by done.
  rewrite <- Hoff.
  unfold bind, store_becomes, ret, emit. fold w1. cbv beta iota zeta.
  set (total := message_count st thread_id) in *.
  destruct show_trace.
  - destruct (drain_between thread_id start_idx trace_started w1 lo
                Hcursor Hlo_st) as (out1 & started & did_emit & -> & Hout1).
    change (message_count (memory_checkpointer w1) thread_id) with total
      in *.
    cbv beta iota zeta.
    assert (total <= Z.max 0 total) as Hmax by lia.
    destruct (did_emit && spinner_active); cbv beta iota zeta.
    + destruct (IH total started false w1 total Hmax Hst_later Hsorted)
        as (w' & out & c & s & p & hi & -> & ? & ? & ? & Hbound & Hout).
      eexists w', _, c, s, p, hi. split; [reflexivity|].
      split_and!; try done; try lia.
      * intros T HT ?. apply Forall_cons in HT as [? ?]. by apply Hbound.
      * rewrite !emit_indices_app. cbn [emit_indices app].
        rewrite ?app_nil_r. by apply (between_app lo total hi).
    + destruct (IH total started spinner_active w1 total Hmax Hst_later
                  Hsorted)
        as (w' & out & c & s & p & hi & -> & ? & ? & ? & Hbound & Hout).
      eexists w', _, c, s, p, hi. split; [reflexivity|].
      split_and!; try done; try lia.
      * intros T HT ?. apply Forall_cons in HT as [? ?]. by apply Hbound.
      * rewrite !emit_indices_app. cbn [emit_indices app].
        rewrite ?app_nil_r. by apply (between_app lo total hi).
  - destruct (IH start_idx trace_started spinner_active w1 lo Hcursor
                Hlo_later Hsorted)
      as (w' & out & c & s & p & hi & -> & ? & ? & ? & Hbound & Hout).
    eexists w', _, c, s, p, hi. split; [reflexivity|].
    split_and!; try done; try lia.
    intros T HT ?. apply Forall_cons in HT as [? ?]. by apply Hbound.
Qed.

(** One turn that succeeds: the offset it stores is the thread's message
    count at its end, and what it prints stays within the bounds. *)
Lemma turn_between (thread_id : str)
    (turn : str * bool * Invocation Store) (w : World Store) (lo : Z) :
  let counts :=
    map (fun st => message_count st thread_id)
        (seen_while_alive turn.2 ++ [seen_at_end turn.2]) in
  returns_thread thread_id turn ->
  lo <= Z.max 0 (offset_of w thread_id) ->
  Forall (fun total => lo <= total) counts ->
  StronglySorted Z.le counts ->
  exists w' out text,
    Runner.run_agent (Ok turn.2) turn.1.1 thread_id turn.1.2 w
      = (w', out, Ok text)
    /\ offset_of w' thread_id = end_count thread_id turn
    /\ memory_checkpointer w' = seen_at_end turn.2
    /\ between lo (end_count thread_id turn) (emit_indices out).
Proof.
  destruct turn as [[user_input show_trace] agent].
  unfold end_count, returns_thread. cbn [fst snd].
  intros (returned & text & Hreturned & Htext & Hagrees) Hcursor Hlo Hsorted.
  rewrite map_app in Hlo, Hsorted. cbn [map] in Hlo, Hsorted.
  set (total := message_count (seen_at_end agent) thread_id) in *.
  apply Forall_app in Hlo as [Hlo_alive Hlo_end].
  apply Forall_cons in Hlo_end as [Hlo_end _].
  apply StronglySorted_app in Hsorted as (Hbelow & Hsorted & _).
  destruct (run_agent_returned agent returned user_input thread_id
              show_trace w Hreturned)
    as (w1 & out1 & cursor1 & started1 & spinning & out2 & cursor2
        & Hpoll & Hlast & ->).
  rewrite Htext.
  destruct (poll_loop_between thread_id show_trace (seen_while_alive agent)
              (offset_of w thread_id) false true w lo Hcursor Hlo_alive
              Hsorted)
    as (w1' & out1' & c & s & p & hi & Hpoll' & _ & Hlo_hi & Hhi_cursor
        & Hbound & Hout1).
  rewrite Hpoll in Hpoll'. injection Hpoll' as <- <- <- <- <-.
  assert (hi <= total) as Hhi_total.
  { apply Hbound; [|done]. apply Forall_forall. intros x Hx.
    apply (Hbelow x total Hx). by apply list_elem_of_singleton. }
  set (w_end := {| memory_checkpointer := seen_at_end agent;
                   _history_offsets := _history_offsets w |}) in *.
  assert (between hi total (emit_indices out2)
          /\ (show_trace = true -> cursor2 = total)) as [Hout2 Hcursor2].
  { destruct show_trace.
    - destruct Hlast as (started2 & did_emit & Hdrain).
      destruct (drain_between thread_id cursor1 started1 w_end hi
                  Hhi_cursor Hhi_total)
        as (out2' & ? & ? & Hdrain' & Hbetween).
      rewrite Hdrain in Hdrain'. injection Hdrain' as -> -> _ _.
      split; [done | reflexivity].
    - destruct Hlast as [-> _]. split; [apply between_nil | done]. }
  assert (stored_offset returned cursor2 = total) as ->.
  { unfold stored_offset, total, message_count.
    destruct (r_messages returned) as [[|first rest]|]; auto.
    by rewrite Hagrees. }
  eexists _, _, text. split; [reflexivity|].
  split; [unfold offset_of; cbn; by rewrite lookup_insert_eq|].
  split; [done|].
  rewrite !emit_indices_app.
  assert (emit_indices (if spinning then [SpinnerStop] else []) = [])
    as -> by by destruct spinning.
  cbn [emit_indices app final_prints]. rewrite app_nil_r.
  by apply (between_app lo hi total).
Qed.

Lemma end_count_seen (thread_id : str)
    (turns : list (str * bool * Invocation Store))
    (turn : str * bool * Invocation Store) :
  turn ∈ turns -> end_count thread_id turn ∈ counts_seen thread_id turns.
Proof.
  intros Hin. unfold counts_seen. apply list_elem_of_In, in_flat_map.
  exists turn. split; [by apply list_elem_of_In|].
  apply list_elem_of_In. rewrite map_app. apply elem_of_app. right.
  by apply list_elem_of_singleton.
Qed.

Lemma session_between (thread_id : str)
    (turns : list (str * bool * Invocation Store)) (w : World Store)
    (lo : Z) :
  Forall (returns_thread thread_id) turns ->
  lo <= Z.max 0 (offset_of w thread_id) ->
  Forall (fun total => lo <= total) (counts_seen thread_id turns) ->
  StronglySorted Z.le (counts_seen thread_id turns) ->
  exists w' out hi,
    session thread_id turns w
      = (w', out, Ok (map (end_count thread_id) turns))
    /\ lo <= hi
    /\ between lo hi (emit_indices out)
    /\ StronglySorted Z.le (map (end_count thread_id) turns)
    /\ Forall (fun offset => lo <= offset) (map (end_count thread_id) turns)
    /\ (turns <> [] ->
        offset_of w' thread_id
          = message_count (memory_checkpointer w') thread_id).
Proof.
  revert w lo.
  induction turns as [|turn later IH]; intros w lo Hturns Hcursor Hlo Hsorted.
  { exists w, [], lo.
    split_and!; first [done | lia | apply between_nil | constructor]. }
  apply Forall_cons in Hturns as [Hturn Hlater].
  change (counts_seen thread_id (turn :: later))
    with (map (fun st => message_count st thread_id)
              (seen_while_alive turn.2 ++ [seen_at_end turn.2])
          ++ counts_seen thread_id later) in Hlo, Hsorted.
  apply Forall_app in Hlo as [Hlo_turn Hlo_later].
  apply StronglySorted_app in Hsorted
    as (Hbelow & Hsorted_turn & Hsorted_later).
  destruct (turn_between thread_id turn w lo Hturn Hcursor Hlo_turn
              Hsorted_turn)
    as (w1 & out1 & text & Hrun & Hoffset & Hstore & Hout1).
  set (total := end_count thread_id turn) in *.
  assert (lo <= total) as Hlo_total.
  { rewrite Forall_forall in Hlo_turn. apply Hlo_turn.
    rewrite map_app. apply elem_of_app. right.
    by apply list_elem_of_singleton. }
  assert (Forall (fun seen_total => total <= seen_total)
            (counts_seen thread_id later)) as Htotal_later.
  { apply Forall_forall. intros x Hx. apply Hbelow; [|done].
    rewrite map_app. apply elem_of_app. right.
    by apply list_elem_of_singleton. }
  destruct (IH w1 total Hlater) as (w2 & out2 & hi & Hrest & Hhi & Hout2
                                    & Hoffsets & Hall & Hlast);
    [rewrite Hoffset; lia | done | done |].
  destruct turn as [[user_input show_trace] agent].
  cbn [session fst snd] in *.
  exists w2, (out1 ++ [] ++ out2 ++ []), hi.
  split_and!.
  - unfold bind at 1. rewrite Hrun.
    unfold bind at 1, offset_get at 1. fold (offset_of w1 thread_id).
    rewrite Hoffset. unfold bind at 1. rewrite Hrest. reflexivity.
  - lia.
  - rewrite !emit_indices_app. cbn [emit_indices app]. rewrite app_nil_r.
    by apply (between_app lo total hi).
  - cbn [map]. apply StronglySorted_cons. split; [|done].
    fold total. exact Hall.
  - cbn [map]. apply Forall_cons. split; [done|].
    eapply Forall_impl; [exact Hall|]. intros x ?. cbn in *. lia.
  - intros _. destruct later as [|next later'].
    + assert (w2 = w1) as -> by (unfold session, ret in Hrest; congruence).
      rewrite Hoffset, Hstore. reflexivity.
    + by apply Hlast.
Qed.

(** C5, as the code has it. Over any run of turns on one thread that each
    succeed and return the thread's stored messages as their "messages"
    (or return no messages and show their trace), the message count read
    for the thread never going down: the read offset stored after each
    turn is the thread's message count at the end of that turn, these
    offsets never decrease, and no message counter is printed twice, the
    counters appearing in increasing order. *)
Theorem session_offsets_and_trace (thread_id : str)
    (turns : list (str * bool * Invocation Store)) (w : World Store) :
  Forall (returns_thread thread_id) turns ->
  StronglySorted Z.le (counts_seen thread_id turns) ->
  exists w' out,
    session thread_id turns w
      = (w', out, Ok (map (end_count thread_id) turns))
    /\ StronglySorted Z.le (map (end_count thread_id) turns)
    /\ NoDup (emit_indices out)
    /\ StronglySorted Z.lt (emit_indices out)
    /\ (turns <> [] ->
        offset_of w' thread_id
          = message_count (memory_checkpointer w') thread_id).
Proof.
  intros Hturns Hsorted.
  destruct (session_between thread_id turns w 0 Hturns) as
    (w' & out & hi & Hrun & _ & Hout & Hoffsets & _ & Hlast);
    [lia | | done |].
  { apply Forall_forall. intros x Hx. unfold counts_seen in Hx.
    apply list_elem_of_In, in_flat_map in Hx as (turn & _ & Hx).
    apply in_map_iff in Hx as (st & <- & _). apply message_count_nonneg. }
  exists w', out. split_and!; try done.
  - by eapply between_NoDup.
  - by destruct Hout.
Qed.

End SessionFacts.

(** C5, witness: the two turns of the scenario, from start-up. The offsets
    noted are 2 and 4. *)
Lemma session_offsets_and_trace_witness :
  Forall (returns_thread "t1") Fixture.two_turns
  /\ StronglySorted Z.le (counts_seen "t1" Fixture.two_turns)
  /\ exists w' out,
       session "t1" Fixture.two_turns startup = (w', out, Ok [2; 4])
       /\ NoDup (emit_indices out).
Proof.
  assert (Forall (returns_thread "t1") Fixture.two_turns) as Hturns.
  { repeat constructor.
    - exists (Fixture.result_of Fixture.first_turn), "a.txt b.txt".
      repeat split.
    - exists (Fixture.result_of Fixture.second_turn), "Tuesday".
      repeat split. }
  assert (StronglySorted Z.le (counts_seen "t1" Fixture.two_turns))
    as Hsorted.
  { vm_compute. repeat constructor; discriminate. }
  split; [exact Hturns|]. split; [exact Hsorted|].
  destruct (session_offsets_and_trace "t1" Fixture.two_turns startup
              Hturns Hsorted) as (w' & out & Hrun & _ & Hnodup & _).
  exists w', out. split; [exact Hrun | exact Hnodup].
Defined.

(** C5, as stated, fails, in two ways. A turn that succeeds without its
    trace and with a result that has only an "output" stores the offset it
    started from: 0, where thread "t1" holds one message. And a turn
    during which the store cannot be read for one poll has its cursor
    clamped to 0 by that poll: the two messages of the thread are printed
    again, under the counters they were printed with before. *)
Lemma session_offset_and_replay :
  (session "t1" [("hi", false, Sample.fallback_turn)] startup).2 = Ok [0]
  /\ message_count (seen_at_end Sample.fallback_turn) "t1" = 1
  /\ outcome Sample.interrupted_turn = Ok (Fixture.result_of Fixture.first_turn)
  /\ emit_indices
       (session "t1" [("list files", true, Sample.interrupted_turn)]
          {| memory_checkpointer := Reachable ∅;
             _history_offsets := ∅ |}).1.2
     = [1; 2; 1; 2]
  /\ ~ NoDup [1; 2; 1; 2].
Proof.
  split; [vm_compute; reflexivity|]. split; [vm_compute; reflexivity|].
  split; [reflexivity|]. split; [vm_compute; reflexivity|].
  intros Hnodup. apply NoDup_cons in Hnodup as [Hfirst _].
  apply Hfirst. set_solver.
Qed.

Section AnswerFacts.
Context {Store : Type} `{!CheckpointSaver Store} `{!Unicode}.

(** X1. When the executor returns a non-empty "messages" list whose last
    message holds text, [run_agent] returns that text stripped, stores
    len(messages) as the thread's read offset and leaves the other
    threads' offsets alone. *)
Theorem run_agent_text_answer (agent : Invocation Store) (returned : Result)
    (first : Message) (rest : list Message) (content : str)
    (user_input thread_id : str) (show_trace : bool) (w : World Store) :
  outcome agent = Ok returned ->
  r_messages returned = Some (first :: rest) ->
  msg_content (last_of first rest) = Some (PyStr content) ->
  exists w' out,
    Runner.run_agent (Ok agent) user_input thread_id show_trace w
      = (w', out, Ok (strip content))
    /\ _history_offsets w'
         = <[thread_id := Z.of_nat (length (first :: rest))]>
             (_history_offsets w)
    /\ offset_of w' thread_id = Z.of_nat (length (first :: rest)).
Proof.
  intros Hreturned Hmessages Hcontent.
  destruct (run_agent_returned agent returned user_input thread_id
              show_trace w Hreturned)
    as (w1 & out1 & cursor1 & started1 & spinning & out2 & cursor2
        & _ & _ & ->).
  unfold final_text, stored_offset. rewrite Hmessages.
  cbv beta iota zeta. rewrite Hcontent.
  eexists _, _. split; [reflexivity|]. split; [reflexivity|].
  unfold offset_of. cbn. by rewrite lookup_insert_eq.
Qed.

End AnswerFacts.

(** X1, witness: a turn whose reply has blanks around its text. *)
Lemma run_agent_text_answer_witness :
  exists w' out,
    Runner.run_agent (Ok Fixture.turn_reasons) "为什么" "t1" true startup
      = (w', out, Ok "原因")
    /\ offset_of w' "t1" = 2.
Proof.
  destruct (run_agent_text_answer Fixture.turn_reasons
              (Fixture.result_of Fixture.reasons)
              (HumanMessage "为什么") [AIMessage (PyStr (" 原因" +:+ nl))]
              (" 原因" +:+ nl) "为什么" "t1" true startup
              eq_refl eq_refl eq_refl)
    as (w' & out & Hrun & _ & Hoffset).
  exists w', out. split; [exact Hrun | exact Hoffset].
Defined.

(** ** [show_memory_info] *)

Section InspectFacts.
Context {Store : Type} `{!CheckpointSaver Store} `{!Unicode}.

Lemma length_append (a b : str) :
  length (a +:+ b) = (length a + length b)%nat.
Proof.
  induction a as [|c a IH]; [done|].
  change (S (length (a +:+ b)) = S (length a + length b)).
  by rewrite IH.
Qed.

Lemma checkpoint_list_messages (checkpoint : Checkpoint) :
  MemoryInfo.checkpoint_list checkpoint = Memory.checkpoint_messages checkpoint.
Proof.
  unfold MemoryInfo.checkpoint_list, Memory.checkpoint_messages.
  destruct (channel_values checkpoint) as [values|]; [|done].
  by destruct (cv_messages values) as [[|? ?]|].
Qed.

(** X2. For a thread that has a checkpoint, [show_memory_info] prints as
    its message count the length of the list [get_messages] returns for
    the thread, adds the preview line of the last of these messages when
    there is one, changes nothing and does not raise. *)
Theorem inspect_counts_stored_messages (thread_id : str)
    (checkpoint : Checkpoint) (w : World Store) :
  saver_get (memory_checkpointer w) thread_id = Ok (Some checkpoint) ->
  exists messages,
    Memory.get_messages thread_id w = (w, [], Ok messages)
    /\ MemoryInfo.show_memory_info thread_id w =
         (w,
          [Print (nl +:+ "💾 记忆状态：");
           Print ("   当前线程: " +:+ thread_id);
           Print ("   记忆消息数: "
                  +:+ MemoryInfo.int_str (Z.of_nat (length messages)))]
            ++ match messages with
               | [] => []
               | first :: rest =>
                   [Print ("   最近消息: "
                           +:+ MemoryInfo.preview_of (last_of first rest))]
               end,
          Ok tt).
Proof.
  intros Hget. exists (Memory.checkpoint_messages checkpoint).
  split.
  { rewrite get_messages_stored. unfold stored_messages. by rewrite Hget. }
  unfold MemoryInfo.show_memory_info, Memory.checkpointer_get, try_except,
    bind, get_world, lift, print, emit, ret.
  rewrite Hget. cbv beta iota zeta.
  rewrite checkpoint_list_messages.
  by destruct (Memory.checkpoint_messages checkpoint) as [|first rest].
Qed.

(** X3. [show_memory_info] never raises and leaves the store and the
    offsets alone. For a thread the store has no checkpoint of it prints
    the one line that says so; when the store's [get] raises it prints the
    failure with the text of the exception. *)
Theorem inspect_never_raises (thread_id : str) (w : World Store) :
  (exists out, MemoryInfo.show_memory_info thread_id w = (w, out, Ok tt))
  /\ (saver_get (memory_checkpointer w) thread_id = Ok None ->
      MemoryInfo.show_memory_info thread_id w =
        (w,
         [Print (nl +:+ "💾 记忆状态：当前线程 " +:+ thread_id
                 +:+ " 没有记忆")],
         Ok tt))
  /\ (forall e,
        saver_get (memory_checkpointer w) thread_id = Raise e ->
        MemoryInfo.show_memory_info thread_id w =
          (w, [Print ("❌ 获取记忆状态失败：" +:+ exn_str e)], Ok tt)).
Proof.
  unfold MemoryInfo.show_memory_info, Memory.checkpointer_get, try_except,
    bind, get_world, lift, print, emit, ret.
  destruct (saver_get (memory_checkpointer w) thread_id)
    as [[checkpoint|]|e] eqn:Hget; cbv beta iota zeta.
  - split; [|split; [done | intros ? [=]]].
    destruct (MemoryInfo.checkpoint_list checkpoint); eauto.
  - split; [eauto | split; [done | intros ? [=]]].
  - split; [eauto | split; [done | by intros ? [= <-]]].
Qed.

(** X4. For a thread whose checkpoint holds messages, the last line
    [show_memory_info] prints is the preview of the latest message: its
    content as text, not stripped, whole when it has at most 50
    characters, else its first 50 characters followed by three dots. *)
Theorem preview_at_50 (thread_id : str) (checkpoint : Checkpoint)
    (first : Message) (rest : list Message) (w : World Store) :
  saver_get (memory_checkpointer w) thread_id = Ok (Some checkpoint) ->
  MemoryInfo.checkpoint_list checkpoint = first :: rest ->
  let content := content_text (last_of first rest) in
  exists preview,
    MemoryInfo.show_memory_info thread_id w =
      (w,
       [Print (nl +:+ "💾 记忆状态：");
        Print ("   当前线程: " +:+ thread_id);
        Print ("   记忆消息数: "
               +:+ MemoryInfo.int_str (Z.of_nat (length (first :: rest))));
        Print ("   最近消息: " +:+ preview)],
       Ok tt)
    /\ (len content <= 50 -> preview = content)
    /\ (50 < len content ->
        preview = slice_to 50 content +:+ "..."
        /\ length (slice_to 50 content) = 50%nat
        /\ length preview = 53%nat).
Proof.
  intros Hget Hlist content.
  exists (MemoryInfo.preview_of (last_of first rest)). split.
  { unfold MemoryInfo.show_memory_info, Memory.checkpointer_get, try_except,
      bind, get_world, lift, print, emit, ret.
    rewrite Hget. cbv beta iota zeta. by rewrite Hlist. }
  unfold MemoryInfo.preview_of. fold (content_text (last_of first rest)).
  fold content. unfold len.
  split; intros Hlen.
  - assert ((Z.of_nat (length content) >? 50) = false) as -> by lia.
    rewrite slice_to_all by lia. apply append_empty_r.
  - assert ((Z.of_nat (length content) >? 50) = true) as -> by lia.
    split; [done|]. split; [rewrite slice_to_length; lia|].
    rewrite length_append, slice_to_length.
    change (length "...") with 3%nat. lia.
Qed.

End InspectFacts.

(** X2, witness: thread "t1" after the first turn of the scenario. *)
Lemma inspect_counts_stored_messages_witness :
  MemoryInfo.show_memory_info "t1"
    (Fixture.world_of (Fixture.holding "t1" Fixture.first_turn) ∅) =
    (Fixture.world_of (Fixture.holding "t1" Fixture.first_turn) ∅,
     [Print (nl +:+ "💾 记忆状态：");
      Print "   当前线程: t1";
      Print "   记忆消息数: 2";
      Print "   最近消息: a.txt b.txt"],
     Ok tt).
Proof.
  assert (saver_get
            (memory_checkpointer
               (Fixture.world_of (Fixture.holding "t1" Fixture.first_turn) ∅))
            "t1" = Ok (Some (checkpoint_of Fixture.first_turn)))
    as Hstored by (vm_compute; reflexivity).
  destruct (inspect_counts_stored_messages "t1"
              (checkpoint_of Fixture.first_turn)
              (Fixture.world_of (Fixture.holding "t1" Fixture.first_turn) ∅)
              Hstored) as (messages & Hget & ->).
  vm_compute in Hget. injection Hget as <-.
  vm_compute. reflexivity.
Defined.

(** X4, witness: a thread whose latest message has 51 characters. *)
Lemma preview_at_50_witness :
  MemoryInfo.show_memory_info "t1"
    (Fixture.world_of (Fixture.holding "t1" Fixture.long_note) ∅) =
    (Fixture.world_of (Fixture.holding "t1" Fixture.long_note) ∅,
     [Print (nl +:+ "💾 记忆状态：");
      Print "   当前线程: t1";
      Print "   记忆消息数: 1";
      Print ("   最近消息: " +:+ str_mul "好" 50 +:+ "...")],
     Ok tt).
Proof.
  assert (saver_get
            (memory_checkpointer
               (Fixture.world_of (Fixture.holding "t1" Fixture.long_note) ∅))
            "t1" = Ok (Some (checkpoint_of Fixture.long_note)))
    as Hstored by (vm_compute; reflexivity).
  destruct (preview_at_50 "t1" (checkpoint_of Fixture.long_note)
              (HumanMessage (str_mul "好" 51)) []
              (Fixture.world_of (Fixture.holding "t1" Fixture.long_note) ∅)
              Hstored eq_refl) as (preview & -> & _ & Hlong).
  destruct (Hlong ltac:(vm_compute; reflexivity)) as (-> & _).
  vm_compute. reflexivity.
Defined.

(** ** More on the drain *)

Section DrainMore.
Context {Store : Type} `{!CheckpointSaver Store} `{!Unicode}.

Lemma emitted_elem (idx : Z) (messages : list Message) (i : Z) (text : str) :
  Emit i text ∈ emitted idx messages <->
  exists k msg,
    messages !! k = Some msg /\ i = idx + Z.of_nat k
    /\ Runner.rendering msg = Some text.
Proof.
  revert idx. induction messages as [|msg rest IH]; intros idx.
  { cbn. split; [by intros ?%elem_of_nil | by intros (k & ? & ? & _)]. }
  cbn [emitted]. rewrite elem_of_app, IH. split.
  - intros [Hhere | (k & msg' & Hk & -> & Hr)].
    + destruct (Runner.rendering msg) as [shown|] eqn:Hshown;
        [|by apply elem_of_nil in Hhere].
      apply list_elem_of_singleton in Hhere. injection Hhere as -> ->.
      exists 0%nat, msg. split_and!; [done | lia | done].
    + exists (S k), msg'. split_and!; [done | lia | done].
  - intros ([|k] & msg' & Hk & -> & Hr).
    + left. injection Hk as ->. rewrite Hr.
      apply list_elem_of_singleton. f_equal. lia.
    + right. exists k, msg'. split_and!; [done | lia | done].
Qed.

(** X5. A drain prints a message exactly when it is stored at a position
    at or after the clamped cursor and its stripped content is not empty;
    the counter it prints with is the position counted from 1. Messages
    with blank content are passed over without a line. *)
Theorem drain_prints_new_messages (thread_id : str) (start_idx : Z)
    (trace_started : bool) (w : World Store) (i : Z) (text : str) :
  let messages := stored_messages (memory_checkpointer w) thread_id in
  let cursor := clamped start_idx (Z.of_nat (length messages)) in
  Emit i text ∈ (Runner._emit_new_messages thread_id start_idx
                   trace_started w).1.2
  <-> exists msg,
        messages !! Z.to_nat (i - 1) = Some msg
        /\ cursor < i
        /\ truthy (stripped_content msg) = true
        /\ Runner.rendering msg = Some text.
Proof.
  intros messages cursor. rewrite drain_spec. cbv zeta.
  fold messages. fold cursor.
  assert (0 <= cursor <= Z.of_nat (length messages)) as Hrange
    by (apply clamped_range; lia).
  assert (forall msg, Runner.rendering msg = Some text ->
                      truthy (stripped_content msg) = true) as Htruthy.
  { intros msg. rewrite rendering_spec.
    by destruct (truthy (stripped_content msg)). }
  destruct (Z.of_nat (length messages) <=? cursor) eqn:Hreached; cbn [fst snd].
  - split; [by intros ?%elem_of_nil|].
    intros (msg & Hmsg & Hlt & _). apply lookup_lt_Some in Hmsg. lia.
  - rewrite elem_of_app, emitted_elem. split.
    + intros [Hheader | (k & msg & Hk & -> & Hr)].
      { destruct trace_started; [by apply elem_of_nil in Hheader|].
        by apply list_elem_of_singleton in Hheader. }
      rewrite lookup_drop in Hk. exists msg.
      replace (Z.to_nat (cursor + 1 + Z.of_nat k - 1))
        with (Z.to_nat cursor + k)%nat by lia.
      split_and!; [done | lia | by apply Htruthy | done].
    + intros (msg & Hmsg & Hlt & _ & Hr). right.
      exists (Z.to_nat (i - 1) - Z.to_nat cursor)%nat, msg.
      rewrite lookup_drop.
      replace (Z.to_nat cursor + (Z.to_nat (i - 1) - Z.to_nat cursor))%nat
        with (Z.to_nat (i - 1)) by lia.
      split_and!; [done | lia | done].
Qed.

(** X6. After messages have been appended to a thread, a drain from the
    old message count prints the appended messages and nothing of the old
    ones: the header if it is still due, then the appended messages
    numbered on from the old count. With nothing appended it is silent. *)
Theorem drain_after_append (thread_id : str) (trace_started : bool)
    (w : World Store) (before appended : list Message) :
  stored_messages (memory_checkpointer w) thread_id = before ++ appended ->
  Runner._emit_new_messages thread_id (Z.of_nat (length before))
    trace_started w =
    match appended with
    | [] => (w, [], Ok (Z.of_nat (length before), trace_started, false))
    | _ :: _ =>
        (w,
         (if trace_started then [] else [Print trace_header])
           ++ emitted (Z.of_nat (length before) + 1) appended,
         Ok (Z.of_nat (length (before ++ appended)), true, true))
    end.
Proof.
  intros Hstored. rewrite drain_spec. cbv zeta. rewrite Hstored.
  assert (clamped (Z.of_nat (length before))
            (Z.of_nat (length (before ++ appended)))
          = Z.of_nat (length before)) as ->.
  { rewrite clamped_min_max by lia. rewrite length_app. lia. }
  rewrite Nat2Z.id, drop_app_length.
  destruct appended as [|msg rest].
  - rewrite app_nil_r.
    by assert ((Z.of_nat (length before) <=? Z.of_nat (length before)) = true)
      as -> by lia.
  - assert ((Z.of_nat (length (before ++ msg :: rest))
               <=? Z.of_nat (length before)) = false) as ->; [|done].
    apply Z.leb_gt. rewrite length_app. cbn [length]. lia.
Qed.

End DrainMore.

(** X6, witness: the reply of the first turn arrives after the user's
    message has been shown. *)
Lemma drain_after_append_witness :
  Runner._emit_new_messages "t1" 1 true
    (Fixture.world_of (Fixture.holding "t1" Fixture.first_turn) ∅) =
    (Fixture.world_of (Fixture.holding "t1" Fixture.first_turn) ∅,
     [Emit 2 (nl +:+ "[" +:+ label_model +:+ "]" +:+ nl +:+ "a.txt b.txt")],
     Ok (2, true, true)).
Proof.
  assert (stored_messages
            (memory_checkpointer
               (Fixture.world_of (Fixture.holding "t1" Fixture.first_turn) ∅))
            "t1"
          = [HumanMessage "list files"] ++ [AIMessage (PyStr "a.txt b.txt")])
    as Hstored by (vm_compute; reflexivity).
  pose proof (drain_after_append "t1" true _ _ _ Hstored) as Hdrain.
  change (Z.of_nat (length [HumanMessage "list files"])) with 1 in Hdrain.
  rewrite Hdrain. vm_compute. reflexivity.
Defined.

(** ** More on one turn *)

Section TurnMore.
Context {Store : Type} `{!CheckpointSaver Store} `{!Unicode}.

Lemma count_app (test : event -> bool) (a b : list event) :
  count test (a ++ b) = (count test a + count test b)%nat.
Proof. unfold count. by rewrite List.filter_app, length_app. Qed.

Lemma count_emitted (test : event -> bool) (idx : Z)
    (messages : list Message) :
  (forall i text, test (Emit i text) = false) ->
  count test (emitted idx messages) = 0%nat.
Proof.
  intros Htest. revert idx.
  induction messages as [|msg rest IH]; intros idx; [done|].
  cbn [emitted]. rewrite count_app, IH.
  destruct (Runner.rendering msg); [|done].
  unfold count. cbn. by rewrite Htest.
Qed.

Lemma has_header_emitted (idx : Z) (messages : list Message) :
  has_header (emitted idx messages) = false.
Proof.
  revert idx. induction messages as [|msg rest IH]; intros idx; [done|].
  cbn [emitted]. unfold has_header in *. rewrite existsb_app, IH.
  by destruct (Runner.rendering msg).
Qed.

Lemma headed_app (seen : bool) (a b : list event) :
  headed seen (a ++ b) = headed seen a && headed (seen || has_header a) b.
Proof.
  revert seen. induction a as [|ev a IH]; intros seen.
  { cbn. by rewrite orb_false_r. }
  destruct ev as [text|i text| |]; cbn [app headed has_header existsb].
  - rewrite IH. fold (has_header a). by rewrite orb_assoc.
  - rewrite IH. fold (has_header a). cbn. by rewrite andb_assoc.
  - rewrite IH. by fold (has_header a).
  - rewrite IH. by fold (has_header a).
Qed.

Lemma headed_emitted (idx : Z) (messages : list Message) :
  headed true (emitted idx messages) = true.
Proof.
  revert idx. induction messages as [|msg rest IH]; intros idx; [done|].
  cbn [emitted]. rewrite headed_app, IH.
  by destruct (Runner.rendering msg).
Qed.

Lemma headed_no_emit (seen : bool) (out : list event) :
  emit_indices out = [] -> headed seen out = true.
Proof.
  revert seen. induction out as [|ev out IH]; intros seen; [done|].
  destruct ev; cbn [emit_indices headed]; try done; auto.
Qed.

Lemma headed_sound (seen : bool) (out : list event) :
  headed seen out = true ->
  forall a i text b,
    out = a ++ Emit i text :: b -> seen = true \/ Print trace_header ∈ a.
Proof.
  revert seen. induction out as [|ev out IH]; intros seen Hheaded a i text b.
  { by destruct a. }
  destruct a as [|ev' a]; cbn [app]; intros [= -> ->].
  { cbn in Hheaded. apply andb_true_iff in Hheaded as [-> _]. by left. }
  destruct ev' as [shown|j shown| |]; cbn [headed] in Hheaded.
  - destruct (IH _ Hheaded a i text b eq_refl) as [Hseen | Hin].
    + apply orb_true_iff in Hseen as [-> | Heq]; [by left|].
      right. apply str_eqb_eq in Heq as ->. apply list_elem_of_here.
    + right. by apply list_elem_of_further.
  - apply andb_true_iff in Hheaded as [-> _]. by left.
  - destruct (IH _ Hheaded a i text b eq_refl) as [? | Hin]; [by left|].
    right. by apply list_elem_of_further.
  - destruct (IH _ Hheaded a i text b eq_refl) as [? | Hin]; [by left|].
    right. by apply list_elem_of_further.
Qed.

(** What a drain contributes to the spinner count and to the header. *)
Lemma drain_log (thread_id : str) (start_idx : Z) (trace_started : bool)
    (w : World Store) :
  exists out cursor started did_emit,
    Runner._emit_new_messages thread_id start_idx trace_started w
      = (w, out, Ok (cursor, started, did_emit))
    /\ count is_spinner_start out = 0%nat
    /\ count is_spinner_stop out = 0%nat
    /\ headed trace_started out = true
    /\ started = trace_started || has_header out.
Proof.
  rewrite drain_spec. cbv zeta.
  destruct (_ <=? _).
  { eexists [], _, _, _. split; [reflexivity|]. split_and!; try done.
    by rewrite orb_false_r. }
  eexists _, _, _, _. split; [reflexivity|].
  rewrite !count_app, !count_emitted by done.
  destruct trace_started; cbn [app headed has_header existsb orb].
  - rewrite headed_emitted. split_and!; done.
  - rewrite str_eqb_refl. cbn [orb]. rewrite headed_emitted.
    split_and!; done.
Qed.

Lemma count_cons (test : event -> bool) (ev : event) (out : list event) :
  count test (ev :: out)
    = ((if test ev then 1 else 0) + count test out)%nat.
Proof. unfold count. cbn. by destruct (test ev). Qed.

Lemma has_header_app (a b : list event) :
  has_header (a ++ b) = has_header a || has_header b.
Proof. apply existsb_app. Qed.

Lemma poll_loop_log (thread_id : str) (show_trace : bool)
    (seen : list Store) (start_idx : Z) (trace_started spinner_active : bool)
    (w : World Store) :
  exists w' out cursor started spinning,
    Runner.poll_loop thread_id show_trace seen start_idx trace_started
      spinner_active w = (w', out, Ok (cursor, started, spinning))
    /\ count is_spinner_start out = 0%nat
    /\ count is_spinner_stop out
         = (if spinner_active && negb spinning then 1 else 0)%nat
    /\ (spinner_active = false -> spinning = false)
    /\ headed trace_started out = true
    /\ started = trace_started || has_header out
    /\ (show_trace = false -> out = [] /\ cursor = start_idx).
Proof.
  revert start_idx trace_started spinner_active w.
  induction seen as [|st later IH];
    intros start_idx trace_started spinner_active w.
  { exists w, [], start_idx, trace_started, spinner_active.
    split_and!; try done.
    - by destruct spinner_active.
    - by rewrite orb_false_r. }
  cbn [Runner.poll_loop].
  set (w1 := {| memory_checkpointer := st;
                _history_offsets := _history_offsets w |}).
  unfold bind, store_becomes, ret, emit. fold w1. cbv beta iota zeta.
  destruct show_trace.
  - destruct (drain_log thread_id start_idx trace_started w1)
      as (out1 & c1 & s1 & did_emit & -> & Hstart1 & Hstop1 & Hhead1 & ->).
    cbv beta iota zeta.
    destruct (did_emit && spinner_active) eqn:Hstopnow; cbv beta iota zeta.
    + apply andb_true_iff in Hstopnow as [_ ->].
      destruct (IH c1 (trace_started || has_header out1) false w1)
        as (w' & out & c & s & p & -> & Hstart & Hstop & Hoff & Hhead
            & -> & _).
      rewrite (Hoff eq_refl) in *.
      exists w', (out1 ++ SpinnerStop :: out), c,
        (trace_started || has_header out1 || has_header out), false.
      split; [cbn [app]; by rewrite ?app_nil_r, <- ?app_assoc|].
      rewrite !count_app, !count_cons, Hstart1, Hstop1, Hstart, Hstop.
      rewrite headed_app, Hhead1, has_header_app.
      cbn [headed has_header existsb]. fold (has_header out).
      rewrite Hhead. split_and!; try done. by rewrite orb_assoc.
    + destruct (IH c1 (trace_started || has_header out1) spinner_active w1)
        as (w' & out & c & s & p & -> & Hstart & Hstop & Hoff & Hhead
            & -> & _).
      exists w', (out1 ++ out), c,
        (trace_started || has_header out1 || has_header out), p.
      split; [cbn [app]; by rewrite ?app_nil_r, <- ?app_assoc|].
      rewrite !count_app, Hstart1, Hstop1, Hstart, Hstop.
      rewrite headed_app, Hhead1, has_header_app, Hhead.
      split_and!; try done. by rewrite orb_assoc.
  - destruct (IH start_idx trace_started spinner_active w1)
      as (w' & out & c & s & p & -> & Hstart & Hstop & Hoff & Hhead
          & -> & Hsilent).
    destruct (Hsilent eq_refl) as [-> ->].
    eexists w', _, start_idx, _, p. split; [reflexivity|].
    split_and!; try done.
Qed.

Lemma run_agent_log (agent : Invocation Store) (user_input thread_id : str)
    (show_trace : bool) (w : World Store) :
  exists w' out1 (spinning : bool) out2,
    Runner.run_agent (Ok agent) user_input thread_id show_trace w =
      (w',
       [SpinnerStart] ++ out1 ++ (if spinning then [SpinnerStop] else [])
         ++ out2 ++ closing_lines agent,
       Ok (answer (Ok agent)))
    /\ count is_spinner_start out1 = 0%nat
    /\ count is_spinner_stop out1 = (if spinning then 0 else 1)%nat
    /\ count is_spinner_start out2 = 0%nat
    /\ count is_spinner_stop out2 = 0%nat
    /\ headed false out1 = true
    /\ headed (has_header out1) out2 = true
    /\ (show_trace = false -> out1 = [] /\ out2 = [] /\ spinning = true).
Proof.
  destruct (poll_loop_log thread_id show_trace (seen_while_alive agent)
              (offset_of w thread_id) false true w)
    as (w1 & out1 & cursor1 & started1 & spinning & Hpoll & Hstart1 & Hstop1
        & _ & Hhead1 & Hstarted & Hsilent).
  cbn [andb negb orb] in Hstop1, Hstarted.
  set (w_end := {| memory_checkpointer := seen_at_end agent;
                   _history_offsets := _history_offsets w |}).
  assert (forall out2 cursor2,
            (if show_trace
             then exists started2 did_emit,
                    Runner._emit_new_messages thread_id cursor1 started1 w_end
                      = (w_end, out2, Ok (cursor2, started2, did_emit))
             else out2 = [] /\ cursor2 = cursor1) ->
            count is_spinner_start out2 = 0%nat
            /\ count is_spinner_stop out2 = 0%nat
            /\ headed (has_header out1) out2 = true
            /\ (show_trace = false -> out2 = [])) as Hout2.
  { intros out2 cursor2 Hlast. destruct show_trace.
    - destruct Hlast as (started2 & did_emit & Hdrain).
      destruct (drain_log thread_id cursor1 started1 w_end)
        as (out2' & ? & ? & ? & Hdrain' & ? & ? & Hhead2 & _).
      rewrite Hdrain in Hdrain'. injection Hdrain' as -> _ _ _.
      subst started1. split_and!; done.
    - destruct Hlast as [-> _]. split_and!; done. }
  unfold closing_lines, answer.
  destruct (outcome agent) as [returned|e] eqn:Houtcome.
  - destruct (run_agent_returned agent returned user_input thread_id
                show_trace w Houtcome)
      as (w1' & out1' & c1' & s1' & sp' & out2 & cursor2 & Hpoll' & Hlast
          & ->).
    rewrite Hpoll in Hpoll'. injection Hpoll' as <- <- <- <- <-.
    destruct (Hout2 out2 cursor2 Hlast) as (? & ? & ? & Hsilent2).
    destruct (final_text returned) as [text|e];
      eexists _, out1, spinning, out2; (split; [reflexivity|]);
      split_and!; try done; try by destruct spinning.
    all: intros ->; destruct (Hsilent eq_refl) as [-> _];
      rewrite (Hsilent2 eq_refl); cbn in Hstop1; by destruct spinning.
  - destruct (run_agent_raised agent e user_input thread_id show_trace w
                Houtcome)
      as (w1' & out1' & c1' & s1' & sp' & out2 & cursor2 & Hpoll' & Hlast
          & ->).
    rewrite Hpoll in Hpoll'. injection Hpoll' as <- <- <- <- <-.
    destruct (Hout2 out2 cursor2 Hlast) as (? & ? & ? & Hsilent2).
    eexists _, out1, spinning, out2. split; [reflexivity|].
    split_and!; try done; try by destruct spinning.
    intros ->. destruct (Hsilent eq_refl) as [-> _].
    rewrite (Hsilent2 eq_refl). cbn in Hstop1. by destruct spinning.
Qed.

Lemma count_closing_lines (test : event -> bool) (agent : Invocation Store) :
  (forall text, test (Print text) = false) ->
  count test (closing_lines agent) = 0%nat.
Proof.
  intros Htest. unfold closing_lines, final_prints, count.
  destruct (outcome agent) as [returned|e];
    [destruct (final_text returned)|]; cbn; by rewrite ?Htest.
Qed.

(** X7. Whenever an agent can be had, [run_agent] starts the spinner once
    and stops it once, whether the executor returns or raises and whether
    or not the trace is shown; when [get_agent] raises, the spinner is
    never started. *)
Theorem spinner_stopped_once (get_agent : result (Invocation Store))
    (user_input thread_id : str) (show_trace : bool) (w : World Store) :
  let out :=
    (Runner.run_agent get_agent user_input thread_id show_trace w).1.2 in
  let expected := match get_agent with Ok _ => 1%nat | Raise _ => 0%nat end in
  count is_spinner_start out = expected
  /\ count is_spinner_stop out = expected.
Proof.
  destruct get_agent as [agent|e]; [|done].
  destruct (run_agent_log agent user_input thread_id show_trace w)
    as (w' & out1 & spinning & out2 & -> & Hstart1 & Hstop1 & Hstart2
        & Hstop2 & _).
  cbn [fst snd].
  rewrite !count_app, Hstart1, Hstop1, Hstart2, Hstop2,
    !count_closing_lines by done.
  by destruct spinning.
Qed.

(** X8. In the log of [run_agent] no message of the trace comes before the
    trace header: whatever precedes a printed message holds the header. *)
Theorem header_precedes_messages (get_agent : result (Invocation Store))
    (user_input thread_id : str) (show_trace : bool) (w : World Store) :
  let out :=
    (Runner.run_agent get_agent user_input thread_id show_trace w).1.2 in
  headed false out = true
  /\ forall before i text after,
       out = before ++ Emit i text :: after ->
       Print trace_header ∈ before.
Proof.
  intros out.
  assert (headed false out = true) as Hheaded.
  { subst out. destruct get_agent as [agent|e]; [|done].
    destruct (run_agent_log agent user_input thread_id show_trace w)
      as (w' & out1 & spinning & out2 & -> & _ & _ & _ & _ & Hhead1
          & Hhead2 & _).
    cbn [fst snd app headed].
    rewrite !headed_app, Hhead1. cbn [orb andb].
    assert (has_header (if spinning then [SpinnerStop] else []) = false)
      as Hnone by by destruct spinning.
    assert (headed (has_header out1) (if spinning then [SpinnerStop] else [])
            = true) as -> by by destruct spinning.
    rewrite Hnone, orb_false_r, Hhead2. cbn [andb].
    apply headed_no_emit. unfold closing_lines, final_prints.
    destruct (outcome agent) as [returned|e];
      [by destruct (final_text returned)|done]. }
  split; [done|].
  intros before i text after Hsplit.
  by destruct (headed_sound false out Hheaded before i text after Hsplit).
Qed.

(** X9. With [show_trace=False] a turn prints nothing of the thread: its
    log is the spinner's start and stop followed by the framed final text
    or by the failure line. *)
Theorem silent_turn_log (agent : Invocation Store)
    (user_input thread_id : str) (w : World Store) :
  exists w',
    Runner.run_agent (Ok agent) user_input thread_id false w =
      (w', [SpinnerStart; SpinnerStop] ++ closing_lines agent,
       Ok (answer (Ok agent))).
Proof.
  destruct (run_agent_log agent user_input thread_id false w)
    as (w' & out1 & spinning & out2 & Hrun & _ & _ & _ & _ & _ & _ & Hsilent).
  destruct (Hsilent eq_refl) as (-> & -> & ->).
  by exists w'.
Qed.

(** X10. A turn on one thread changes the read offset of no other thread,
    whatever [get_agent] and the executor do. *)
Theorem run_agent_other_threads (get_agent : result (Invocation Store))
    (user_input thread_id : str) (show_trace : bool) (w : World Store) :
  let w' :=
    (Runner.run_agent get_agent user_input thread_id show_trace w).1.1 in
  delete thread_id (_history_offsets w') = delete thread_id (_history_offsets w)
  /\ forall other,
       other <> thread_id ->
       _history_offsets w' !! other = _history_offsets w !! other.
Proof.
  intros w'.
  assert (delete thread_id (_history_offsets w')
          = delete thread_id (_history_offsets w)) as Hframe.
  { subst w'. destruct get_agent as [agent|e]; [|done].
    destruct (outcome agent) as [returned|e] eqn:Houtcome.
    - destruct (run_agent_returned agent returned user_input thread_id
                  show_trace w Houtcome)
        as (? & ? & ? & ? & ? & ? & ? & _ & _ & ->).
      destruct (final_text returned); cbn [fst snd _history_offsets];
        [apply delete_insert_eq | done].
    - destruct (run_agent_raised agent e user_input thread_id show_trace w
                  Houtcome) as (? & ? & ? & ? & ? & ? & ? & _ & _ & ->).
      done. }
  split; [done|]. intros other Hother.
  rewrite <- (lookup_delete_ne (_history_offsets w') thread_id other),
    <- (lookup_delete_ne (_history_offsets w) thread_id other) by done.
  by rewrite Hframe.
Qed.

(** X11. A turn whose executor returns a result without messages (none, or
    an empty list) and with text as its "output" returns that text
    stripped and stores as the thread's read offset the cursor of its
    drains: the thread's message count at the end when the trace is shown,
    the offset the turn started from when it is not. *)
Theorem fallback_turn_offset (agent : Invocation Store) (returned : Result)
    (output : str) (user_input thread_id : str) (show_trace : bool)
    (w : World Store) :
  outcome agent = Ok returned ->
  r_messages returned = None \/ r_messages returned = Some [] ->
  r_output returned = Some (PyStr output) ->
  exists w' out,
    Runner.run_agent (Ok agent) user_input thread_id show_trace w
      = (w', out, Ok (strip output))
    /\ _history_offsets w' !! thread_id
         = Some (if show_trace
                 then message_count (seen_at_end agent) thread_id
                 else offset_of w thread_id).
Proof.
  intros Houtcome Hnone Houtput.
  destruct (run_agent_returned agent returned user_input thread_id
              show_trace w Houtcome)
    as (w1 & out1 & cursor1 & started1 & spinning & out2 & cursor2
        & Hpoll & Hlast & ->).
  assert (final_text returned = Ok (strip output)) as ->.
  { unfold final_text. destruct Hnone as [-> | ->]; by rewrite Houtput. }
  assert (stored_offset returned cursor2 = cursor2) as ->.
  { unfold stored_offset. by destruct Hnone as [-> | ->]. }
  eexists _, _. split; [reflexivity|].
  cbn [_history_offsets]. rewrite lookup_insert_eq. f_equal.
  destruct show_trace.
  - destruct Hlast as (started2 & did_emit & Hdrain).
    destruct (drain_returns thread_id cursor1 started1
                {| memory_checkpointer := seen_at_end agent;
                   _history_offsets := _history_offsets w |})
      as (? & ? & ? & Hdrain').
    rewrite Hdrain in Hdrain'. by injection Hdrain' as _ -> _ _.
  - destruct Hlast as [_ ->].
    destruct (poll_loop_log thread_id false (seen_while_alive agent)
                (offset_of w thread_id) false true w)
      as (? & ? & ? & ? & ? & Hpoll' & _ & _ & _ & _ & _ & Hsilent).
    rewrite Hpoll in Hpoll'. injection Hpoll' as _ _ -> _ _.
    by destruct (Hsilent eq_refl) as [_ ->].
Qed.

End TurnMore.

(** X11, witness: a turn with an output-only result, run without the
    trace from start-up: the thread holds one message and its stored
    offset is 0. *)
Lemma fallback_turn_offset_witness :
  exists w' out,
    Runner.run_agent (Ok Sample.fallback_turn) "hi" "t1" false startup
      = (w', out, Ok "原因")
    /\ _history_offsets w' !! "t1" = Some 0
    /\ message_count (seen_at_end Sample.fallback_turn) "t1" = 1.
Proof.
  destruct (fallback_turn_offset Sample.fallback_turn Sample.output_only
              "　原因 " "hi" "t1" false startup eq_refl (or_introl eq_refl)
              eq_refl) as (w' & out & Hrun & Hoffset).
  exists w', out. split; [exact Hrun|]. split; [exact Hoffset|].
  vm_compute. reflexivity.
Defined.

(** ** The trace of main.py *)

Section MainTrace.
Context {Store : Type} `{!CheckpointSaver Store} `{!Unicode}.

Lemma main_label_truthy (msg : Message) : truthy (main_label msg) = true.
Proof. unfold main_label. by repeat case_match. Qed.

Lemma main_rendering_spec (msg : Message) :
  Main.rendering msg =
    if truthy (stripped_content msg)
    then Some (nl +:+ "[" +:+ main_label msg +:+ "]" +:+ nl
               +:+ slice_to 2000 (stripped_content msg)
               +:+ (if len (stripped_content msg) >? 2000
                    then truncation_marker else ""))
    else None.
Proof.
  unfold Main.rendering. fold (stripped_content msg). fold (main_label msg).
  destruct (truthy (stripped_content msg)); [|done].
  unfold str_or at 1. by rewrite main_label_truthy.
Qed.

(** X12. [main.py] and the drain of [runner.py] print a message under the
    same condition and with the same text after the label line: the
    stripped content cut to 2000 characters, with the marker when longer.
    Only the label differs: [main.py] takes it from the [role] attribute as
    written and never from the type tag, so that a message without a role
    is labelled as a model response. *)
Theorem main_trace_same_body (msg : Message) :
  (Main.rendering msg = None <-> Runner.rendering msg = None)
  /\ (forall from_main from_runner,
        Main.rendering msg = Some from_main ->
        Runner.rendering msg = Some from_runner ->
        exists body,
          from_main = nl +:+ "[" +:+ main_label msg +:+ "]" +:+ nl +:+ body
          /\ from_runner =
               nl +:+ "["
                 +:+ Runner.role_label_of (role_field msg) (type_tag msg)
                 +:+ "]" +:+ nl +:+ body)
  /\ (msg_role msg = None -> main_label msg = label_model).
Proof.
  rewrite main_rendering_spec, rendering_spec.
  split_and!.
  - by destruct (truthy (stripped_content msg)).
  - destruct (truthy (stripped_content msg)); [|done].
    intros ? ? [= <-] [= <-]. eauto.
  - intros Hrole. unfold main_label. by rewrite Hrole.
Qed.

Lemma trace_loop_indices (idx : Z) (messages : list Message)
    (w : World Store) :
  exists out,
    Main.trace_loop idx messages w = (w, out, Ok tt)
    /\ emit_indices out = emit_indices (emitted idx messages)
    /\ has_header out = false.
Proof.
  revert idx. induction messages as [|msg rest IH]; intros idx.
  { by exists []. }
  destruct (IH (idx + 1)) as (out & Hrest & Hindices & Hheader).
  cbn [Main.trace_loop emitted]. unfold bind.
  rewrite main_rendering_spec, rendering_spec.
  destruct (truthy (stripped_content msg)); unfold emit, ret;
    rewrite Hrest; eexists; (split; [reflexivity|]);
    cbn [app emit_indices]; by rewrite Hindices.
Qed.

(** X13. [main.py] keeps no cursor: when the trace is shown and the
    executor's result has a "messages" list, a turn prints the header and
    then every message of that list with a non-blank content, numbered
    from 1, which are the counters a drain from cursor 0 over the same
    list prints. It does so on every turn, and it never touches the read
    offsets. *)
Theorem main_trace_replays_history (agent : Invocation Store)
    (returned : Result) (messages : list Message)
    (user_input thread_id : str) (w : World Store) :
  outcome agent = Ok returned ->
  r_messages returned = Some messages ->
  exists out,
    Main.run_agent (Ok agent) user_input thread_id true w =
      ({| memory_checkpointer := seen_at_end agent;
          _history_offsets := _history_offsets w |},
       [Print trace_header] ++ out ++ closing_lines agent,
       Ok (answer (Ok agent)))
    /\ emit_indices out = emit_indices (emitted 1 messages)
    /\ emit_indices ([Print trace_header] ++ out ++ closing_lines agent)
         = emit_indices (emitted 1 messages).
Proof.
  intros Houtcome Hmessages.
  set (w_end := {| memory_checkpointer := seen_at_end agent;
                   _history_offsets := _history_offsets w |}).
  destruct (trace_loop_indices 1 messages w_end)
    as (out & Htrace & Hindices & _).
  exists out.
  assert (emit_indices (closing_lines agent) = []) as Hclosing.
  { unfold closing_lines, final_prints. rewrite Houtcome.
    by destruct (final_text returned). }
  split; [|split; [done|]].
  - unfold closing_lines, answer, Main.run_agent, Main.run_agent_try,
      try_except, bind, lift, store_becomes, print, emit, ret.
    cbv beta iota zeta. rewrite Houtcome. cbv beta iota zeta.
    fold w_end. rewrite Hmessages, Htrace. unfold final_text, final_prints.
    rewrite Hmessages.
    destruct messages as [|first rest]; cbv beta iota zeta;
      destruct (strip_method _); cbn [app];
      by rewrite ?app_nil_r, <- ?app_assoc.
  - rewrite !emit_indices_app, Hclosing, Hindices. cbn [emit_indices app].
    by rewrite app_nil_r.
Qed.

End MainTrace.

(** X13, witness: the second turn of the scenario prints all four
    messages again. *)
Lemma main_trace_replays_history_witness :
  exists out,
    (Main.run_agent (Ok Fixture.turn_two) "now show date" "t1" true
       (Fixture.world_of (Fixture.holding "t1" Fixture.first_turn) ∅)).1.2
      = [Print trace_header] ++ out ++ closing_lines Fixture.turn_two
    /\ emit_indices out = [1; 2; 3; 4].
Proof.
  destruct (main_trace_replays_history Fixture.turn_two
              (Fixture.result_of Fixture.second_turn) Fixture.second_turn
              "now show date" "t1"
              (Fixture.world_of (Fixture.holding "t1" Fixture.first_turn) ∅)
              eq_refl eq_refl) as (out & -> & Hindices & _).
  exists out. split; [reflexivity | exact Hindices].
Defined.

(** ** The file tools *)

Section FileTools.
Import Tools.

Lemma str_app_assoc (a b c : str) : (a +:+ b) +:+ c = a +:+ (b +:+ c).
Proof.
  induction a as [|x a IH]; [done|].
  change (x :: ((a +:+ b) +:+ c) = x :: (a +:+ (b +:+ c))).
  by rewrite IH.
Qed.

Lemma len_append (a b : str) : len (a +:+ b) = len a + len b.
Proof. unfold len. rewrite length_append. lia. Qed.

Lemma slice_to_skip (n : nat) (s : str) : slice_to n s +:+ skip n s = s.
Proof.
  revert s. induction n as [|n IH]; intros [|c s]; try done.
  change (c :: (slice_to n s +:+ skip n s) = c :: s). by rewrite IH.
Qed.

Lemma skip_length (n : nat) (s : str) :
  length (skip n s) = (length s - n)%nat.
Proof. revert s. induction n as [|n IH]; intros [|c s]; cbn; try done. Qed.

Lemma skip_skip (n m : nat) (s : str) :
  skip m (skip n s) = skip (n + m) s.
Proof.
  revert s. induction n as [|n IH]; intros [|c s]; cbn; try done.
  by destruct m.
Qed.

Lemma slice_to_add (n m : nat) (s : str) :
  slice_to (n + m) s = slice_to n s +:+ slice_to m (skip n s).
Proof.
  revert s. induction n as [|n IH]; intros [|c s]; try done.
  - by destruct m.
  - change (c :: (slice_to (n + m) s)
            = c :: (slice_to n s +:+ slice_to m (skip n s))).
    by rewrite IH.
Qed.

(** The slice [read_file] takes, for arguments that passed its checks. *)
Lemma slice_window (text : str) (offset limit : Z) :
  0 <= offset < len text -> 0 < limit ->
  slice offset (offset + limit) text
  = slice_to (Z.to_nat (Z.min limit (len text - offset)))
             (skip (Z.to_nat offset) text).
Proof.
  intros Hoffset Hlimit. unfold slice, index_in.
  destruct (Z.ltb_spec offset 0) as [?|_]; [lia|].
  destruct (Z.ltb_spec (offset + limit) 0) as [?|_]; [lia|].
  f_equal; [f_equal; lia | f_equal; lia].
Qed.

Lemma read_file_reads (resolve : result File) (path : File) (text : str)
    (offset limit : Z) :
  regular_file resolve path -> read_text path = Ok text ->
  0 <= offset < len text -> 0 < limit ->
  read_file resolve offset limit
  = read_header path
    +:+ slice_to (Z.to_nat (Z.min limit (len text - offset)))
                 (skip (Z.to_nat offset) text)
    +:+ (if offset + limit <? len text then read_marker else "").
Proof.
  intros (-> & Hexists & Hfile) Htext Hoffset Hlimit.
  unfold read_file, and_then, except. rewrite Hexists, Hfile, Htext.
  cbn [negb].
  destruct (Z.ltb_spec offset 0) as [?|_]; [lia|].
  destruct (Z.leb_spec limit 0) as [?|_]; [lia|]. cbn [orb].
  destruct (Z.geb_spec offset (len text)) as [?|_]; [lia|].
  cbv zeta. rewrite slice_window by done.
  unfold read_header, read_marker. by rewrite !str_app_assoc.
Qed.

(** X14. [read_file] on a regular file, with [offset >= 0] and
    [limit > 0]: an offset at or beyond the end of the text is refused
    with the length of the text, so that an empty file is refused at every
    offset; any other offset shows the [min(limit, len(text) - offset)]
    characters that sit at [offset] in the text, followed by the marker
    exactly when text remains after them. *)
Theorem read_file_window (resolve : result File) (path : File)
    (text : str) (offset limit : Z) :
  regular_file resolve path -> read_text path = Ok text ->
  0 <= offset -> 0 < limit ->
  (len text <= offset ->
   read_file resolve offset limit
   = "❌ 起始位置超出文件长度（长度："
     +:+ MemoryInfo.int_str (len text) +:+ "）")
  /\ (offset < len text ->
      exists shown,
        read_file resolve offset limit
        = read_header path +:+ shown
          +:+ (if offset + limit <? len text then read_marker else "")
        /\ len shown = Z.min limit (len text - offset)
        /\ text = slice_to (Z.to_nat offset) text +:+ shown
                  +:+ skip (Z.to_nat (offset + len shown)) text).
Proof.
  intros Hregular Htext Hoffset Hlimit. split.
  - intros Hbeyond. destruct Hregular as (-> & Hexists & Hfile).
    unfold read_file, and_then, except. rewrite Hexists, Hfile, Htext.
    cbn [negb].
    destruct (Z.ltb_spec offset 0) as [?|_]; [lia|].
    destruct (Z.leb_spec limit 0) as [?|_]; [lia|]. cbn [orb].
    by destruct (Z.geb_spec offset (len text)) as [_|?]; [|lia].
  - intros Hinside.
    set (width := Z.to_nat (Z.min limit (len text - offset))).
    exists (slice_to width (skip (Z.to_nat offset) text)).
    assert (len (slice_to width (skip (Z.to_nat offset) text))
            = Z.min limit (len text - offset)) as Hlen.
    { unfold len in *. rewrite slice_to_length, skip_length. lia. }
    split; [by apply read_file_reads|]. split; [done|].
    rewrite Hlen.
    replace (Z.to_nat (offset + Z.min limit (len text - offset)))
      with (Z.to_nat offset + width)%nat by lia.
    by rewrite <- skip_skip, slice_to_skip, slice_to_skip.
Qed.

(** X15. A read that ended with the marker is continued at
    [offset + limit]: that second read succeeds, and the two texts laid
    end to end are the text one read of [limit + more] characters at
    [offset] shows, with the marker of the second read. *)
Theorem read_file_continues (resolve : result File) (path : File)
    (text : str) (offset limit more : Z) :
  regular_file resolve path -> read_text path = Ok text ->
  0 <= offset -> 0 < limit -> 0 < more -> offset + limit < len text ->
  exists first second marker,
    read_file resolve offset limit
    = read_header path +:+ first +:+ read_marker
    /\ read_file resolve (offset + limit) more
       = read_header path +:+ second +:+ marker
    /\ read_file resolve offset (limit + more)
       = read_header path +:+ (first +:+ second) +:+ marker.
Proof.
  intros Hregular Htext Hoffset Hlimit Hmore Hleft.
  exists (slice_to (Z.to_nat limit) (skip (Z.to_nat offset) text)),
    (slice_to (Z.to_nat (Z.min more (len text - (offset + limit))))
       (skip (Z.to_nat (offset + limit)) text)),
    (if offset + limit + more <? len text then read_marker else "").
  split; [|split].
  - rewrite (read_file_reads _ path text) by (done || lia).
    destruct (Z.ltb_spec (offset + limit) (len text)) as [_|?]; [|lia].
    by rewrite Z.min_l by lia.
  - by rewrite (read_file_reads _ path text) by (done || lia).
  - rewrite (read_file_reads _ path text) by (done || lia).
    rewrite Z.add_assoc. f_equal. f_equal.
    replace (Z.to_nat (Z.min (limit + more) (len text - offset)))
      with (Z.to_nat limit
            + Z.to_nat (Z.min more (len text - (offset + limit))))%nat
      by lia.
    rewrite slice_to_add, skip_skip. do 3 f_equal. lia.
Qed.



End FileTools.

(** X14, witness: three characters at offset 6 of a text of eleven
    characters, the first five of which are not ASCII. *)
Lemma read_file_window_witness :
  exists shown,
    Tools.read_file (Ok ToolSample.notes) 6 3
    = Tools.read_header ToolSample.notes +:+ shown +:+ Tools.read_marker
    /\ len shown = 3
    /\ shown = "ell".
Proof.
  assert (Tools.regular_file (Ok ToolSample.notes) ToolSample.notes)
    as Hregular by (repeat split; reflexivity).
  destruct (read_file_window (Ok ToolSample.notes) ToolSample.notes
              "你好世界，hello!" 6 3 Hregular eq_refl ltac:(lia) ltac:(lia))
    as [_ Hinside].
  destruct (Hinside ltac:(vm_compute; reflexivity))
    as (shown & Hread & Hlen & _).
  exists shown. split; [exact Hread|]. split; [exact Hlen|].
  assert (Tools.read_file (Ok ToolSample.notes) 6 3
          = Tools.read_header ToolSample.notes +:+ "ell"
            +:+ Tools.read_marker) as Hrun by (vm_compute; reflexivity).
  rewrite Hrun in Hread.
  apply app_inv_head, app_inv_tail in Hread. by symmetry.
Defined.

(** X15, witness: five characters from the start, then three more. *)
Lemma read_file_continues_witness :
  exists first second marker,
    Tools.read_file (Ok ToolSample.notes) 0 5
    = Tools.read_header ToolSample.notes +:+ first +:+ Tools.read_marker
    /\ Tools.read_file (Ok ToolSample.notes) (0 + 5) 3
       = Tools.read_header ToolSample.notes +:+ second +:+ marker
    /\ Tools.read_file (Ok ToolSample.notes) 0 (5 + 3)
       = Tools.read_header ToolSample.notes +:+ (first +:+ second)
         +:+ marker.
Proof.
  assert (Tools.regular_file (Ok ToolSample.notes) ToolSample.notes)
    as Hregular by (repeat split; reflexivity).
  apply (read_file_continues (Ok ToolSample.notes) ToolSample.notes
           "你好世界，hello!" 0 5 3 Hregular eq_refl);
    (lia || (vm_compute; reflexivity)).
Defined.


(** ** The page tool *)

Section PageTool.
Import Tools Web.
Context `{!Unicode}.

Lemma slice_to_append (n : nat) (a b : str) :
  (n <= length a)%nat -> slice_to n (a +:+ b) = slice_to n a.
Proof.
  revert a. induction n as [|n IH]; intros a Hle; [done|].
  destruct a as [|c a]; cbn in Hle; [lia|].
  change (c :: (slice_to n (a +:+ b)) = c :: (slice_to n a)).
  rewrite IH; [done | lia].
Qed.

Lemma slice_prefix (max_chars : Z) (s : str) :
  0 <= max_chars -> slice 0 max_chars s = slice_to (Z.to_nat max_chars) s.
Proof.
  intros Hcap. unfold slice, index_in.
  destruct (Z.ltb_spec max_chars 0) as [?|_]; [lia|].
  change (0 <? 0) with false. cbv iota.
  assert (0 <= len s) as Hlen by (unfold len; lia).
  rewrite (Z.min_l 0) by done. change (Z.to_nat 0) with 0%nat.
  change (skip 0 s) with s. rewrite Z.sub_0_r.
  destruct (Z.le_ge_cases max_chars (len s)) as [Hle|Hge].
  - by rewrite Z.min_l.
  - rewrite Z.min_r by done. unfold len in *.
    rewrite Nat2Z.id, !slice_to_all by lia. done.
Qed.

Lemma total_len_app (a b : list str) :
  total_len (a ++ b) = total_len a + total_len b.
Proof.
  induction a as [|x a IH]; [done|].
  change (len x + total_len (a ++ b) = len x + total_len a + total_len b).
  rewrite IH. lia.
Qed.

Lemma total_len_nonneg (parts : list str) : 0 <= total_len parts.
Proof.
  induction parts as [|x parts IH]; [done|].
  change (0 <= len x + total_len parts). unfold len. lia.
Qed.

Lemma join_cons (sep x : str) (y : str) (rest : list str) :
  join sep (x :: y :: rest) = x +:+ sep +:+ join sep (y :: rest).
Proof. done. Qed.

Lemma join_app (sep : str) (a b : list str) :
  a <> [] -> b <> [] ->
  join sep (a ++ b) = join sep a +:+ sep +:+ join sep b.
Proof.
  intros Ha Hb. induction a as [|x a IH]; [done|].
  destruct a as [|y a].
  - destruct b as [|z b]; [done|]. done.
  - change ((x :: y :: a) ++ b) with (x :: y :: (a ++ b)).
    rewrite !join_cons. change (y :: a ++ b) with ((y :: a) ++ b).
    rewrite IH by done. by rewrite !str_app_assoc.
Qed.

Lemma join_total_len (sep : str) (parts : list str) :
  total_len parts <= len (join sep parts).
Proof.
  induction parts as [|x parts IH]; [done|].
  destruct parts as [|y parts].
  - change (len x + 0 <= len x). lia.
  - rewrite join_cons, !len_append.
    change (total_len (x :: y :: parts))
      with (len x + total_len (y :: parts)).
    assert (0 <= len sep) by (unfold len; lia). lia.
Qed.

(** What the loop has collected when it stops: a prefix of all the
    texts, which is all of them unless it is already over the cap. *)
Lemma collect_prefix (text_only : bool) (max_chars : Z)
    (nodes : list Node) (parts : list str) :
  exists more,
    parts ++ node_texts text_only nodes
    = collect (text_of text_only) max_chars parts nodes ++ more
    /\ (more = []
        \/ max_chars
           < total_len (collect (text_of text_only) max_chars parts nodes)).
Proof.
  revert parts. induction nodes as [|node nodes IH]; intros parts.
  - exists []. split; [done | by left].
  - cbn [collect]. unfold node_texts in *. cbn [map List.filter].
    set (text := text_of text_only node).
    destruct (truthy text).
    + destruct (Z.gtb_spec (total_len (parts ++ [text])) max_chars)
        as [Hover|Hroom].
      * exists (List.filter truthy (map (text_of text_only) nodes)).
        split; [by rewrite <- app_assoc | by right].
      * destruct (IH (parts ++ [text])) as (more & Hall & Hmore).
        exists more. split; [|done]. rewrite <- Hall.
        by rewrite <- app_assoc.
    + destruct (Z.gtb_spec (total_len parts) max_chars) as [Hover|Hroom].
      * exists (List.filter truthy (map (text_of text_only) nodes)).
        split; [done | by right].
      * apply IH.
Qed.

(** Cutting a longer join at the cap gives what cutting the collected
    prefix gives, once that prefix is over the cap. *)
Lemma join_cut (sep : str) (max_chars : Z) (parts more : list str) :
  0 <= max_chars -> max_chars < total_len parts ->
  slice_to (Z.to_nat max_chars) (join sep (parts ++ more))
  = slice_to (Z.to_nat max_chars) (join sep parts)
  /\ max_chars < len (join sep (parts ++ more))
  /\ max_chars < len (join sep parts).
Proof.
  intros Hcap Hover.
  pose proof (join_total_len sep parts) as Hlen.
  destruct more as [|x more];
    [rewrite app_nil_r; split; [done | lia]|].
  assert (parts <> []) as Hparts by (intros ->; cbn in Hover; lia).
  rewrite join_app by done. split; [|split; [|lia]].
  - apply slice_to_append. unfold len in *. lia.
  - rewrite len_append. assert (0 <= len (sep +:+ join sep (x :: more)))
      by (unfold len; lia). lia.
Qed.

(** X17. With a cap [max_chars >= 0], what [parse_webpage] shows of a
    page is decided by all the matched nodes, although its loop stops at
    the first node that takes it over the cap: it is the first
    [max_chars] characters of the non-empty node texts joined by a blank
    line, followed by the marker exactly when that join is longer than
    the cap; and the page is reported empty exactly when no matched node
    has text. *)
Theorem parse_webpage_cap (url selector : str) (text_only : bool)
    (timeout max_chars : Z) (fetch : tried Response) (resp : Response)
    (nodes : list Node) :
  page_matches url selector fetch resp nodes -> nodes <> [] ->
  0 <= max_chars ->
  let combined := join (nl +:+ nl) (node_texts text_only nodes) in
  parse_webpage url selector text_only timeout max_chars fetch
  = match node_texts text_only nodes with
    | [] => "❌ 目标节点内容为空"
    | _ =>
        page_header resp selector text_only
        +:+ slice_to (Z.to_nat max_chars) combined
        +:+ (if len combined >? max_chars then page_marker else "")
    end.
Proof.
  intros (Hurl & -> & Hstatus & Hselect) Hnodes Hcap combined.
  unfold parse_webpage. rewrite Hurl, Hstatus, Hselect. cbn [negb Z.eqb].
  change (200 =? 200) with true. cbn [negb].
  destruct nodes as [|node nodes]; [done|].
  destruct (collect_prefix text_only max_chars (node :: nodes) [])
    as (more & Hall & Hmore).
  cbn [app] in Hall. subst combined. rewrite Hall.
  set (parts := collect (text_of text_only) max_chars [] (node :: nodes))
    in *.
  destruct Hmore as [->|Hover].
  - rewrite app_nil_r. destruct parts as [|part parts]; [done|].
    by rewrite slice_prefix.
  - destruct (join_cut (nl +:+ nl) max_chars parts more Hcap Hover)
      as (Hcut & Hlong & Hlong').
    destruct parts as [|part parts]; [cbn in Hover; lia|].
    cbn [app]. rewrite slice_prefix by done.
    change (part :: parts ++ more) with ((part :: parts) ++ more).
    rewrite Hcut.
    destruct (Z.gtb_spec (len (join (nl +:+ nl) (part :: parts))) max_chars)
      as [_|?]; [|lia].
    by destruct (Z.gtb_spec
                   (len (join (nl +:+ nl) ((part :: parts) ++ more)))
                   max_chars) as [_|?]; [|lia].
Qed.

(** X18. With a negative cap the loop stops after the first matched
    node: the page is reported empty when that node has no text, whatever
    the nodes after it hold; otherwise its text is shown without its last
    [-max_chars] characters, always with the marker, and no later node is
    shown. *)
Theorem parse_webpage_negative_cap (url selector : str)
    (text_only : bool) (timeout max_chars : Z) (fetch : tried Response)
    (resp : Response) (node : Node) (nodes : list Node) :
  page_matches url selector fetch resp (node :: nodes) ->
  max_chars < 0 ->
  let text := text_of text_only node in
  parse_webpage url selector text_only timeout max_chars fetch
  = if truthy text
    then page_header resp selector text_only
         +:+ slice_to (Z.to_nat (len text + max_chars)) text
         +:+ page_marker
    else "❌ 目标节点内容为空".
Proof.
  intros (Hurl & -> & Hstatus & Hselect) Hcap text.
  unfold parse_webpage. rewrite Hurl, Hstatus, Hselect.
  change (200 =? 200) with true. cbn [negb collect]. fold text.
  destruct (truthy text) eqn:Htext.
  - cbn [app].
    assert (0 <= len text) as Hlen by (unfold len; lia).
    destruct (Z.gtb_spec (total_len [text]) max_chars) as [_|Hno];
      [|cbn [total_len fold_right] in Hno; lia].
    cbn [join]. cbv zeta.
    destruct (Z.gtb_spec (len text) max_chars) as [_|?]; [|lia].
    do 2 f_equal. unfold slice, index_in.
    destruct (Z.ltb_spec max_chars 0) as [_|?]; [|lia].
    change (0 <? 0) with false. cbv iota.
    rewrite (Z.min_l 0) by done. change (Z.to_nat 0) with 0%nat.
    change (skip 0 text) with text. rewrite Z.sub_0_r. f_equal. lia.
  - destruct (Z.gtb_spec (total_len []) max_chars) as [_|Hno];
      [done | cbn in Hno; lia].
Qed.

End PageTool.

(** X17, witness: a heading of eight characters, an empty node and a
    paragraph under a cap of ten characters. *)
Lemma parse_webpage_cap_witness :
  Web.parse_webpage "https://example.org/" "body" true 10 10
    (Web.Got ToolSample.page)
  = Web.page_header ToolSample.page "body" true +:+ "你好世界你好世界"
    +:+ nl +:+ nl +:+ Web.page_marker.
Proof.
  assert (Web.page_matches "https://example.org/" "body"
            (Web.Got ToolSample.page) ToolSample.page
            [ToolSample.heading; ToolSample.spacer; ToolSample.paragraph])
    as Hpage by (repeat split; reflexivity).
  rewrite (parse_webpage_cap "https://example.org/" "body" true 10 10
             (Web.Got ToolSample.page) ToolSample.page
             [ToolSample.heading; ToolSample.spacer; ToolSample.paragraph]
             Hpage ltac:(discriminate) ltac:(lia)).
  vm_compute. reflexivity.
Defined.

(** X18, witness: an empty first node hides the paragraph after it, and a
    heading of eight characters loses its last one. *)
Lemma parse_webpage_negative_cap_witness :
  Web.parse_webpage "https://example.org/" "body" true 10 (-1)
    (Web.Got ToolSample.blank_page)
  = "❌ 目标节点内容为空"
  /\ Web.parse_webpage "https://example.org/" "body" true 10 (-1)
       (Web.Got ToolSample.short_page)
     = Web.page_header ToolSample.short_page "body" true +:+ "你好世界你好世"
       +:+ Web.page_marker.
Proof.
  assert (Web.page_matches "https://example.org/" "body"
            (Web.Got ToolSample.blank_page) ToolSample.blank_page
            [ToolSample.spacer; ToolSample.paragraph])
    as Hblank by (repeat split; reflexivity).
  assert (Web.page_matches "https://example.org/" "body"
            (Web.Got ToolSample.short_page) ToolSample.short_page
            [ToolSample.heading; ToolSample.paragraph])
    as Hshort by (repeat split; reflexivity).
  rewrite (parse_webpage_negative_cap "https://example.org/" "body" true 10
             (-1) (Web.Got ToolSample.blank_page) ToolSample.blank_page
             ToolSample.spacer [ToolSample.paragraph] Hblank ltac:(lia)).
  rewrite (parse_webpage_negative_cap "https://example.org/" "body" true 10
             (-1) (Web.Got ToolSample.short_page) ToolSample.short_page
             ToolSample.heading [ToolSample.paragraph] Hshort ltac:(lia)).
  split; vm_compute; reflexivity.
Defined.

(** ** The API key prompt *)

Section KeyPrompt.
Import Config.

Lemma truthy_false (s : str) : truthy s = false <-> s = "".
Proof. by destruct s. Qed.

Lemma truthy_true (s : str) : truthy s = true <-> s <> "".
Proof. by destruct s. Qed.

(** The complaints for a run of blank answers. *)
Lemma ask_key_blanks (blanks typed : list str) (eof : exn) :
  Forall (fun answer => strip answer = "") blanks ->
  ask_key (blanks ++ typed) eof
  = (map (fun _ => Print blank_complaint) blanks ++ (ask_key typed eof).1.1,
     (ask_key typed eof).1.2, (ask_key typed eof).2).
Proof.
  induction 1 as [|answer blanks Hblank _ IH].
  - cbn [app map]. by destruct (ask_key typed eof) as [[out key] unread].
  - cbn [app ask_key map]. rewrite Hblank. cbn [truthy]. by rewrite IH.
Qed.

(** Whatever the loop returns was typed, and is not blank. *)
Lemma ask_key_returns (typed : list str) (eof : exn)
    (out : list event) (key : str) (unread : list str) :
  ask_key typed eof = (out, Ok key, unread) ->
  key <> "" /\ exists asked, typed = asked ++ unread.
Proof.
  revert out. induction typed as [|line typed IH]; intros out; [done|].
  cbn [ask_key]. destruct (truthy (strip line)) eqn:Hline.
  - intros [= <- <- <-]. split; [by apply truthy_true|].
    by exists [line].
  - destruct (ask_key typed eof) as [[out' key'] unread'].
    intros [= <- -> ->]. destruct (IH out' eq_refl) as (Hkey & asked & ->).
    split; [done|]. by exists (line :: asked).
Qed.

(** X19. Whenever [ensure_deepseek_api_key] returns, the key it returns
    is not empty and is what the process environment then holds under
    [DEEPSEEK_API_KEY]; no other variable of the environment has changed,
    and the answers it has not asked for are still to be read. *)
Theorem api_key_returned (typed : list str) (eof : exn) (env env' : Env)
    (out : list event) (key : str) (unread : list str) :
  ensure_deepseek_api_key typed eof env = (env', out, Ok key, unread) ->
  key <> ""
  /\ environ env' !! key_name = Some key
  /\ (forall name, name <> key_name ->
        environ env' !! name = environ env !! name)
  /\ exists asked, typed = asked ++ unread.
Proof.
  unfold ensure_deepseek_api_key.
  destruct (environ env !! key_name) as [api_key|] eqn:Hheld;
    cbn [default from_option id]; cbv zeta.
  - destruct (truthy api_key) eqn:Hkey.
    + intros [= <- <- <- <-]. split; [by apply truthy_true|].
      split; [done|]. split; [done|]. by exists [].
    + destruct (ask_key typed eof) as [[out' [key'|e]] unread'] eqn:Hask;
        [|by destruct (dotenv_error env)].
      apply ask_key_returns in Hask as (Hkey' & Hasked).
      destruct (dotenv_error env); intros [= <- <- <- <-]; cbn [environ];
        (split; [done|]); (split; [by rewrite lookup_insert_eq|]);
        (split; [|done]); intros name Hname;
        by rewrite lookup_insert_ne.
  - cbn [truthy].
    destruct (ask_key typed eof) as [[out' [key'|e]] unread'] eqn:Hask;
      [|by destruct (dotenv_error env)].
    apply ask_key_returns in Hask as (Hkey' & Hasked).
    destruct (dotenv_error env); intros [= <- <- <- <-]; cbn [environ];
      (split; [done|]); (split; [by rewrite lookup_insert_eq|]);
      (split; [|done]); intros name Hname;
      by rewrite lookup_insert_ne.
Qed.

(** X20. When the environment holds no key, or an empty one, the answers
    that are blank once stripped are each met with one complaint, and the
    first other answer, stripped, becomes the key: it is returned and put
    in the environment, and in [.env] too unless the file cannot be
    written, which costs one more printed line and nothing else. When the
    answers run out first, the exception of the prompt leaves the
    function, after the complaints, with the environment as it was. *)
Theorem api_key_first_answer (blanks : list str) (eof : exn)
    (env : Env) :
  default "" (environ env !! key_name) = "" ->
  Forall (fun answer => strip answer = "") blanks ->
  let complaints := map (fun _ => Print blank_complaint) blanks in
  (forall answer rest, strip answer <> "" ->
     exists env' out,
       ensure_deepseek_api_key (blanks ++ answer :: rest) eof env
       = (env', out, Ok (strip answer), rest)
       /\ environ env' = <[key_name := strip answer]> (environ env)
       /\ match dotenv_error env with
          | None =>
              dotenv env' = <[key_name := strip answer]> (dotenv env)
              /\ out = complaints
          | Some exc =>
              dotenv env' = dotenv env
              /\ out = complaints
                       ++ [Print ("⚠️ 无法写入 .env 文件：" +:+ exn_str exc)]
          end)
  /\ ensure_deepseek_api_key blanks eof env
     = (env, complaints, Raise eof, []).
Proof.
  intros Hmissing Hblanks complaints. unfold ensure_deepseek_api_key.
  rewrite Hmissing. cbn [truthy]. split.
  - intros answer rest Hanswer. rewrite ask_key_blanks by done.
    cbn [ask_key]. apply truthy_true in Hanswer. rewrite Hanswer.
    cbn [fst snd]. rewrite app_nil_r. fold complaints.
    destruct (dotenv_error env) as [exc|]; by eexists _, _.
  - rewrite <- (app_nil_r blanks) at 1. rewrite ask_key_blanks by done.
    cbn [ask_key fst snd]. by rewrite app_nil_r.
Qed.

End KeyPrompt.

(** X19, witness: a blank answer, then a key, on a fresh environment. *)
Lemma api_key_returned_witness :
  Config.environ
    (Config.ensure_deepseek_api_key ["  "; " sk-1 "; "later"]
       (Exception "EOF") ToolSample.fresh_env).1.1.1
    !! Config.key_name = Some "sk-1".
Proof.
  destruct (Config.ensure_deepseek_api_key ["  "; " sk-1 "; "later"]
              (Exception "EOF") ToolSample.fresh_env)
    as [[[env' out] key] unread] eqn:Hrun.
  assert (key = Ok "sk-1") as ->
    by (vm_compute in Hrun; by injection Hrun as _ _ <- _).
  by destruct (api_key_returned _ _ _ _ _ _ _ Hrun) as (_ & Hheld & _).
Defined.

(** X20, witness: the same answers, with a [.env] that cannot be
    written. *)
Lemma api_key_first_answer_witness :
  exists env' out,
    Config.ensure_deepseek_api_key (["  "] ++ [" sk-1 "; "later"])
      (Exception "EOF") ToolSample.read_only_env
    = (env', out, Ok "sk-1", ["later"])
    /\ Config.dotenv env' = ∅
    /\ length out = 2%nat.
Proof.
  assert (default "" (Config.environ ToolSample.read_only_env
                      !! Config.key_name) = "")
    as Hmissing by (vm_compute; reflexivity).
  assert (Forall (fun answer => strip answer = "") ["  "])
    as Hblanks by (by repeat constructor).
  destruct (api_key_first_answer ["  "] (Exception "EOF")
              ToolSample.read_only_env Hmissing Hblanks) as [Hanswer _].
  destruct (Hanswer " sk-1 " ["later"] ltac:(done))
    as (env' & out & Hrun & _ & Hdotenv & ->).
  exists env', (map (fun _ => Print Config.blank_complaint) ["  "]
                ++ [Print ("⚠️ 无法写入 .env 文件："
                           +:+ exn_str (Exception "read-only"))]).
  split; [exact Hrun|]. split; [exact Hdotenv | reflexivity].
Defined.

(** ** The directory walk *)

Section DirectoryWalk.
Import Tools ListDir.
Context `{!Unicode}.

Lemma dirs_in_dir (name dir_str : str) (iterdir : Listed Entry) :
  dirs_in (DirEntry name dir_str iterdir) = S (dirs_under iterdir).
Proof. by destruct iterdir. Qed.

Lemma queue_weight_app (q q' : list (str * Listed Entry * Z)) :
  queue_weight (q ++ q') = (queue_weight q + queue_weight q')%nat.
Proof. unfold queue_weight. by rewrite map_app, list_sum_app. Qed.

Lemma queue_weight_length (q : list (str * Listed Entry * Z)) :
  (length q <= queue_weight q)%nat.
Proof.
  induction q as [|item q IH]; [done|].
  change (S (length q) <= S (dirs_under item.1.2) + queue_weight q)%nat.
  lia.
Qed.

Lemma dirs_insert (x : Entry) (l : list Entry) :
  list_sum (map dirs_in (insert x l))
  = (dirs_in x + list_sum (map dirs_in l))%nat.
Proof.
  induction l as [|y l IH]; [done|].
  cbn [insert]. destruct (key_lt y x); [|done].
  change (dirs_in y + list_sum (map dirs_in (insert x l))
          = dirs_in x + (dirs_in y + list_sum (map dirs_in l)))%nat.
  rewrite IH. lia.
Qed.

Lemma dirs_sorted (entries : list Entry) :
  list_sum (map dirs_in (sorted entries)) = list_sum (map dirs_in entries).
Proof.
  induction entries as [|x entries IH]; [done|].
  change (sorted (x :: entries)) with (insert x (sorted entries)).
  rewrite dirs_insert, IH. done.
Qed.

(** The directories the inner loop queues are among the entries. *)
Lemma visit_weight (show_hidden : bool) (level : Z) (entries : list Entry)
    (st st' : Walk) :
  visit show_hidden level entries st = inl st' ->
  (queue_weight (queue st')
   <= queue_weight (queue st) + list_sum (map dirs_in entries))%nat.
Proof.
  revert st. induction entries as [|entry entries IH]; intros st.
  - intros [= <-]. lia.
  - change (list_sum (map dirs_in (entry :: entries)))
      with (dirs_in entry + list_sum (map dirs_in entries))%nat.
    cbn [visit].
    destruct (negb show_hidden && startswith "." (entry_name entry)).
    + intros Hvisit. apply IH in Hvisit. lia.
    + destruct (count st + 1 >=? max_entries); [done|].
      intros Hvisit. apply IH in Hvisit. cbn [queue] in Hvisit.
      destruct entry as [name|name dir_str iterdir|name];
        [cbn [dirs_in]; lia | | cbn [dirs_in]; lia].
      rewrite queue_weight_app in Hvisit. rewrite dirs_in_dir.
      change (queue_weight [(dir_str, iterdir, level + 1)])
        with (S (dirs_under iterdir) + 0)%nat in Hvisit.
      lia.
Qed.

Lemma filter_entry_app (a b : list Line) :
  length (List.filter is_entry_line (a ++ b))
  = (length (List.filter is_entry_line a)
     + length (List.filter is_entry_line b))%nat.
Proof. by rewrite List.filter_app, length_app. Qed.

(** The inner loop keeps the state tidy, or returns finished lines. *)
Lemma visit_tidy (depth : Z) (show_hidden : bool) (root : str)
    (level : Z) (entries : list Entry) (st : Walk) :
  0 <= level < depth -> tidy depth show_hidden root st ->
  match visit show_hidden level entries st with
  | inl st' => tidy depth show_hidden root st'
  | inr lines => finished depth show_hidden root lines
  end.
Proof.
  intros Hlevel. revert st.
  induction entries as [|entry entries IH]; intros st Htidy; [done|].
  cbn [visit].
  destruct (negb show_hidden && startswith "." (entry_name entry))
    eqn:Hhidden; [by apply IH|].
  destruct Htidy as (body & Hlines & Hbody & Hcount & Hcap & Hqueue).
  assert (body_line depth show_hidden
            (EntryLine level (is_file entry) (entry_name entry))) as Hline.
  { split; [done|]. intros ->. by rewrite andb_true_l in Hhidden. }
  assert (Forall (body_line depth show_hidden)
            (body ++ [EntryLine level (is_file entry) (entry_name entry)]))
    as Hbody' by (apply Forall_app; split; [done | by constructor]).
  assert (length (List.filter is_entry_line
                    (body ++ [EntryLine level (is_file entry)
                                (entry_name entry)]))
          = S (length (List.filter is_entry_line body))) as Hmore
    by (rewrite filter_entry_app; cbn; lia).
  unfold max_entries in *.
  destruct (Z.geb_spec (count st + 1) 400) as [Hfull|Hroom].
  - exists (body ++ [EntryLine level (is_file entry) (entry_name entry)]),
      true.
    rewrite Hlines, Hmore. split; [by rewrite <- !app_assoc|].
    split; [done|]. split; [lia|]. split; [lia | done].
  - apply IH.
    exists (body ++ [EntryLine level (is_file entry) (entry_name entry)]).
    cbn [output_lines count queue]. rewrite Hlines, Hmore.
    unfold max_entries.
    split; [done|]. split; [done|]. split; [lia|]. split; [lia|].
    destruct entry as [name|name dir_str iterdir|name]; try done.
    apply Forall_app. split; [done|]. constructor; [cbn; lia | done].
Qed.

(** With fuel for the directories in its queue, the walk returns: lines
    that are finished, or the exception of a directory that cannot be
    read. *)
Lemma walk_tidy (depth : Z) (show_hidden : bool) (root : str)
    (fuel : nat) (st : Walk) :
  tidy depth show_hidden root st ->
  (queue_weight (queue st) <= fuel)%nat ->
  exists r,
    walk fuel depth show_hidden st = Some r
    /\ match r with
       | Ok lines => finished depth show_hidden root lines
       | Raise _ => True
       end.
Proof.
  revert st. induction fuel as [|fuel IH]; intros st Htidy Hfuel.
  - destruct st as [lines [|item q] n]; [|cbn in Hfuel; lia].
    destruct Htidy as (body & Hlines & Hbody & Hcount & Hcap & _).
    cbn [output_lines count queue] in *. unfold max_entries in *.
    exists (Ok lines). split; [done|]. exists body, false.
    rewrite app_nil_r. split; [done|]. split; [done|].
    split; [lia|]. split; [done | lia].
  - destruct st as [lines [|[[current iterdir] level] q] n].
    + destruct Htidy as (body & Hlines & Hbody & Hcount & Hcap & _).
      cbn [output_lines count queue] in *. unfold max_entries in *.
      exists (Ok lines). split; [done|]. exists body, false.
      rewrite app_nil_r. split; [done|]. split; [done|].
      split; [lia|]. split; [done | lia].
    + destruct Htidy as (body & Hlines & Hbody & Hcount & Hcap & Hqueue).
      cbn [output_lines count queue] in *.
      apply Forall_cons in Hqueue as [Hlevel Hqueue]. cbn [snd] in Hlevel.
      change (queue_weight ((current, iterdir, level) :: q))
        with (S (dirs_under iterdir + queue_weight q)) in Hfuel.
      cbn [walk queue output_lines count].
      assert (tidy depth show_hidden root
                {| output_lines := lines; queue := q; count := n |})
        as Hpopped by (by exists body).
      destruct (Z.geb_spec level depth) as [Hdeep|Hshallow].
      { apply IH; [done | cbn [queue]; lia]. }
      destruct iterdir as [entries | | e].
      * pose proof (visit_tidy depth show_hidden root level (sorted entries)
                      _ ltac:(lia) Hpopped) as Hvisit.
        pose proof (visit_weight show_hidden level (sorted entries)
                      {| output_lines := lines; queue := q; count := n |})
          as Hweight.
        destruct (visit show_hidden level (sorted entries) _)
          as [st'|returned].
        -- apply IH; [done|]. specialize (Hweight st' eq_refl).
           rewrite dirs_sorted in Hweight. cbn [queue dirs_under] in *. lia.
        -- by exists (Ok returned).
      * apply IH; [|cbn [queue]; lia].
        exists (body ++ [DeniedLine level current]).
        cbn [output_lines count queue]. rewrite Hlines.
        split; [done|]. split.
        { apply Forall_app. split; [done|]. constructor; [|done].
          cbn. lia. }
        rewrite filter_entry_app. cbn [List.filter is_entry_line length].
        split; [lia | done].
      * by exists (Raise e).
Qed.

(** X21. On a directory, with [depth >= 1] and fuel for the tree,
    [list_dir] returns: either the failure line of a directory that could
    not be read, or the root line followed by lines that each are an entry
    from a level below [depth], hidden only if hidden entries are shown,
    or the notice of a directory without permission. At most 400 entries
    are listed, and the cut line ends the output exactly when they are
    400: the walk does not look whether anything was left to list. *)
Theorem list_dir_lines (fuel : nat) (resolve : result Root) (root : Root)
    (depth : Z) (show_hidden : bool) :
  directory resolve root -> 1 <= depth -> (enough root <= fuel)%nat ->
  (exists e,
     list_dir fuel resolve depth show_hidden
     = Some ("⚠️ 列目录失败：" +:+ exn_str e))
  \/ exists lines,
       list_dir fuel resolve depth show_hidden
       = Some (join nl (map render lines))
       /\ finished depth show_hidden (root_str root) lines.
Proof.
  intros (-> & Hexists & Hdir) Hdepth Hfuel.
  unfold list_dir. rewrite Hexists, Hdir.
  destruct (Z.ltb_spec depth 1) as [?|_]; [lia|].
  destruct (walk_tidy depth show_hidden (root_str root) fuel
              {| output_lines := [RootLine (root_str root)];
                 queue := [(root_str root, root_iterdir root, 0)];
                 count := 0 |}) as (r & -> & Hr).
  - exists []. cbn [output_lines count queue]. split; [done|].
    split; [done|]. split; [done|]. split; [done|].
    by constructor.
  - unfold enough in Hfuel. cbn [queue].
    change (queue_weight [(root_str root, root_iterdir root, 0)])
      with (S (dirs_under (root_iterdir root)) + 0)%nat.
    lia.
  - destruct r as [lines|e]; [right; by exists lines | left; by exists e].
Qed.

End DirectoryWalk.

Section OneLevel.
Import Tools ListDir.
Context `{!Unicode}.

Lemma ltb_asym (s1 s2 : str) :
  str_ltb s1 s2 = true -> str_ltb s2 s1 = false.
Proof.
  revert s2. induction s1 as [|x s1 IH]; intros [|y s2]; cbn [str_ltb];
    try done.
  destruct (N.ltb_spec x y) as [Hxy|Hxy].
  - intros _. destruct (N.ltb_spec y x) as [?|_]; [lia | done].
  - destruct (N.ltb_spec y x) as [_|Hyx]; [done|]. apply IH.
Qed.

Lemma key_lt_asym (a b : Entry) : key_lt a b = true -> key_lt b a = false.
Proof.
  unfold key_lt. destruct (is_file a), (is_file b); try done;
    apply ltb_asym.
Qed.

Lemma insert_perm (x : Entry) (l : list Entry) : insert x l ≡ₚ x :: l.
Proof.
  induction l as [|y l IH]; [done|].
  cbn [insert]. destruct (key_lt y x); [|done].
  rewrite IH. apply Permutation_swap.
Qed.

Lemma sorted_perm (entries : list Entry) : sorted entries ≡ₚ entries.
Proof.
  induction entries as [|x entries IH]; [done|].
  change (sorted (x :: entries)) with (insert x (sorted entries)).
  by rewrite insert_perm, IH.
Qed.

Lemma insert_sorted (x : Entry) (l : list Entry) :
  Sorted (fun a b => key_lt b a = false) l ->
  Sorted (fun a b => key_lt b a = false) (insert x l).
Proof.
  induction l as [|y l IH]; intros Hsorted.
  - by repeat constructor.
  - apply Sorted_inv in Hsorted as [Hsorted Hhead]. cbn [insert].
    destruct (key_lt y x) eqn:Hyx.
    + constructor; [by apply IH|].
      destruct l as [|z l]; cbn [insert].
      * constructor. by apply key_lt_asym.
      * apply HdRel_inv in Hhead.
        destruct (key_lt z x); constructor; [done | by apply key_lt_asym].
    + constructor; [by constructor | by constructor].
Qed.

Lemma sorted_sorted (entries : list Entry) :
  Sorted (fun a b => key_lt b a = false) (sorted entries).
Proof.
  induction entries as [|x entries IH]; [constructor|].
  by apply insert_sorted.
Qed.

Lemma filter_perm_length {A} (f : A -> bool) (l l' : list A) :
  l ≡ₚ l' -> length (List.filter f l) = length (List.filter f l').
Proof.
  induction 1 as [|x l l' _ IH|x y l|l l' l'' _ IH _ IH']; cbn [List.filter].
  - done.
  - destruct (f x); cbn [length]; by rewrite IH.
  - by destruct (f x), (f y).
  - by rewrite IH.
Qed.

(** Below the cap the inner loop lists every entry it does not hide and
    queues directories one level down. *)
Lemma visit_under_cap (show_hidden : bool) (level : Z)
    (entries : list Entry) (st : Walk) :
  count st + Z.of_nat (length (List.filter (listed show_hidden) entries))
  < max_entries ->
  exists q,
    visit show_hidden level entries st
    = inl {| output_lines :=
               output_lines st
               ++ map (entry_line level)
                    (List.filter (listed show_hidden) entries);
             queue := queue st ++ q;
             count :=
               count st
               + Z.of_nat
                   (length (List.filter (listed show_hidden) entries)) |}
    /\ Forall (fun item => item.2 = level + 1) q.
Proof.
  revert st. induction entries as [|entry entries IH]; intros st Hcap.
  - exists []. cbn [visit List.filter map length]. destruct st.
    cbn [output_lines queue count]. by rewrite !app_nil_r, Z.add_0_r.
  - cbn [visit List.filter] in *.
    assert (negb show_hidden && startswith "." (entry_name entry)
            = negb (listed show_hidden entry)) as ->
      by (unfold listed; by rewrite negb_involutive).
    destruct (listed show_hidden entry); cbn [negb]; [|by apply IH].
    cbn [length map] in *. unfold max_entries in *.
    destruct (Z.geb_spec (count st + 1) 400) as [?|_]; [lia|].
    set (st' := {| output_lines :=
                     output_lines st
                     ++ [EntryLine level (is_file entry) (entry_name entry)];
                   queue :=
                     match entry with
                     | DirEntry _ dir_str iterdir =>
                         queue st ++ [(dir_str, iterdir, level + 1)]
                     | _ => queue st
                     end;
                   count := count st + 1 |}).
    destruct (IH st') as (q & -> & Hq).
    { subst st'. cbn [count]. lia. }
    subst st'. cbn [output_lines queue count].
    unfold entry_line at 2.
    destruct entry as [name|name dir_str iterdir|name].
    + exists q. split; [|done]. f_equal. f_equal; [|lia].
      by rewrite <- app_assoc.
    + exists ((dir_str, iterdir, level + 1) :: q).
      split; [|by constructor]. f_equal.
      f_equal; [by rewrite <- app_assoc | by rewrite <- app_assoc | lia].
    + exists q. split; [|done]. f_equal. f_equal; [|lia].
      by rewrite <- app_assoc.
Qed.

(** Directories at the depth of the walk are taken from the queue
    without a line. *)
Lemma walk_skip (depth : Z) (show_hidden : bool) (fuel : nat) (st : Walk) :
  Forall (fun item => depth <= item.2) (queue st) ->
  (length (queue st) <= fuel)%nat ->
  walk fuel depth show_hidden st = Some (Ok (output_lines st)).
Proof.
  revert st. induction fuel as [|fuel IH]; intros [lines q n] Hdeep Hfuel;
    cbn [queue output_lines] in *.
  - by destruct q; [|cbn in Hfuel; lia].
  - destruct q as [|[[current iterdir] level] q]; [done|].
    apply Forall_cons in Hdeep as [Hlevel Hdeep]. cbn [snd] in Hlevel.
    cbn [walk queue output_lines count].
    destruct (Z.geb_spec level depth) as [_|?]; [|lia].
    rewrite IH; [done | done | cbn [queue length] in *; lia].
Qed.

(** X22. With [depth = 1], on a directory that can be read and has fewer
    than 400 entries to list, [list_dir] shows the root line and then one
    line per entry of the root that it does not hide, in sorted order,
    and nothing from below; the sorted order is a rearrangement of the
    entries in which no entry is followed by one with a smaller key, a
    file's key being larger than that of any entry that is not a file. *)
Theorem list_dir_one_level (fuel : nat) (resolve : result Root)
    (root : Root) (entries : list Entry) (show_hidden : bool) :
  directory resolve root -> root_iterdir root = Entries entries ->
  Z.of_nat (length (List.filter (listed show_hidden) entries)) < 400 ->
  (enough root <= fuel)%nat ->
  list_dir fuel resolve 1 show_hidden
  = Some (join nl
            (map render
               (RootLine (root_str root)
                :: map (entry_line 0)
                     (List.filter (listed show_hidden) (sorted entries)))))
  /\ sorted entries ≡ₚ entries
  /\ Sorted (fun a b => key_lt b a = false) (sorted entries)
  /\ (forall a b, is_file a = false -> is_file b = true ->
        key_lt a b = true).
Proof.
  intros (-> & Hexists & Hdir) Hentries Hcap Hfuel.
  split; [|split; [apply sorted_perm | split; [apply sorted_sorted|]]].
  - unfold list_dir. rewrite Hexists, Hdir, Hentries.
    change (1 <? 1) with false. cbv iota.
    destruct fuel as [|fuel]; [unfold enough in Hfuel; lia|].
    cbn [walk queue output_lines count].
    change (0 >=? 1) with false. cbv iota.
    assert (length (List.filter (listed show_hidden) (sorted entries))
            = length (List.filter (listed show_hidden) entries)) as Hsame.
    { apply filter_perm_length, sorted_perm. }
    destruct (visit_under_cap show_hidden 0 (sorted entries)
                {| output_lines := [RootLine (root_str root)];
                   queue := []; count := 0 |})
      as (q & Hvisit & Hq).
    { cbn [count]. rewrite Hsame. unfold max_entries. lia. }
    pose proof (visit_weight _ _ _ _ _ Hvisit) as Hweight.
    rewrite Hvisit. cbn [output_lines queue app] in *.
    rewrite walk_skip; cbn [queue output_lines].
    + done.
    + eapply Forall_impl; [exact Hq|]. intros item ->. done.
    + pose proof (queue_weight_length q). rewrite dirs_sorted in Hweight.
      unfold enough in Hfuel. rewrite Hentries in Hfuel.
      cbn [dirs_under] in Hfuel.
      change (queue_weight []) with 0%nat in Hweight. lia.
  - intros a b Ha Hb. unfold key_lt. by rewrite Ha, Hb.
Qed.

End OneLevel.

(** X21, witness: a small project, walked two levels down. *)
Lemma list_dir_lines_witness :
  (exists e,
     ListDir.list_dir 2 (Ok ToolSample.project) 2 false
     = Some ("⚠️ 列目录失败：" +:+ exn_str e))
  \/ exists lines,
       ListDir.list_dir 2 (Ok ToolSample.project) 2 false
       = Some (Tools.join nl (map ListDir.render lines))
       /\ ListDir.finished 2 false "/srv/project" lines.
Proof.
  assert (ListDir.directory (Ok ToolSample.project) ToolSample.project)
    as Hdir by (repeat split; reflexivity).
  assert (ListDir.enough ToolSample.project <= 2)%nat
    as Hfuel by (vm_compute; lia).
  exact (list_dir_lines 2 (Ok ToolSample.project) ToolSample.project 2
           false Hdir ltac:(lia) Hfuel).
Defined.

(** X22, witness: the same project, one level down. *)
Lemma list_dir_one_level_witness :
  ListDir.list_dir 2 (Ok ToolSample.project) 1 false
  = Some ("📂 /srv/project" +:+ nl +:+ "  📁 src" +:+ nl +:+ "  📄 A.md"
          +:+ nl +:+ "  📄 b.txt").
Proof.
  assert (ListDir.directory (Ok ToolSample.project) ToolSample.project)
    as Hdir by (repeat split; reflexivity).
  assert (ListDir.enough ToolSample.project <= 2)%nat
    as Hfuel by (vm_compute; lia).
  assert (Z.of_nat
            (length
               (List.filter (ListDir.listed false)
                  [ListDir.FileEntry "b.txt";
                   ListDir.DirEntry "src" "/srv/project/src"
                     (ListDir.Entries [ListDir.FileEntry "main.py"]);
                   ListDir.FileEntry ".env";
                   ListDir.FileEntry "A.md"])) < 400)
    as Hcap by (vm_compute; reflexivity).
  destruct (list_dir_one_level 2 (Ok ToolSample.project) ToolSample.project
              _ false Hdir eq_refl Hcap Hfuel) as [-> _].
  vm_compute. reflexivity.
Defined.

Section LevelOrder.
Import Tools ListDir.
Context `{!Unicode}.

Lemma sorted_snoc (l : list Z) (x : Z) :
  StronglySorted Z.le l -> Forall (fun y => y <= x) l ->
  StronglySorted Z.le (l ++ [x]).
Proof.
  induction 1 as [|y l Hsorted IH Hy]; intros Hle.
  - by repeat constructor.
  - apply Forall_cons in Hle as [Hyx Hle]. cbn [app].
    constructor; [by apply IH|].
    apply Forall_app. split; [done | by constructor].
Qed.

Lemma levels_app (a b : list Line) : levels (a ++ b) = levels a ++ levels b.
Proof. apply omap_app. Qed.

(** The inner loop adds lines of its own level and queues the next. *)
Lemma visit_ordered (show_hidden : bool) (level : Z)
    (entries : list Entry) (st : Walk) :
  level_ordered level st ->
  match visit show_hidden level entries st with
  | inl st' => level_ordered level st'
  | inr lines => StronglySorted Z.le (levels lines)
  end.
Proof.
  revert st. induction entries as [|entry entries IH]; intros st Hst;
    [done|].
  cbn [visit].
  destruct (negb show_hidden && startswith "." (entry_name entry));
    [by apply IH|].
  destruct Hst as (Hlines & Hseen & Hqueue & Hnext).
  assert (StronglySorted Z.le
            (levels (output_lines st
                     ++ [EntryLine level (is_file entry)
                           (entry_name entry)]))) as Hlines'
    by (rewrite levels_app; by apply sorted_snoc).
  destruct (count st + 1 >=? max_entries).
  - rewrite levels_app. change (levels [CutLine]) with (@nil Z).
    by rewrite app_nil_r.
  - apply IH. split; [done|]. cbn [output_lines queue]. split.
    { rewrite levels_app. apply Forall_app. split; [done|].
      by repeat constructor. }
    destruct entry as [name|name dir_str iterdir|name]; try done.
    rewrite map_app. cbn [map snd]. split.
    + apply sorted_snoc; [done|].
      eapply Forall_impl; [exact Hnext|]. intros next. cbn. lia.
    + apply Forall_app. split; [done|]. constructor; [lia | done].
Qed.

(** Whatever the walk returns is in level order. *)
Lemma walk_ordered (depth : Z) (show_hidden : bool) (fuel : nat)
    (level : Z) (st : Walk) (lines : list Line) :
  level_ordered level st ->
  walk fuel depth show_hidden st = Some (Ok lines) ->
  StronglySorted Z.le (levels lines).
Proof.
  revert level st. induction fuel as [|fuel IH];
    intros level [shown q n] Hst.
  - destruct q as [|[[current iterdir] next] q]; [|done].
    intros [= <-]. by destruct Hst.
  - destruct q as [|[[current iterdir] next] q].
    { intros [= <-]. by destruct Hst. }
    destruct Hst as (Hlines & Hseen & Hqueue & Hnext).
    cbn [output_lines queue map snd] in *.
    apply StronglySorted_inv in Hqueue as [Hqueue Hfirst].
    apply Forall_cons in Hnext as [Hrange Hnext].
    assert (level_ordered next
              {| output_lines := shown; queue := q; count := n |})
      as Hpopped.
    { split; [done|]. cbn [output_lines queue]. split.
      { eapply Forall_impl; [exact Hseen|]. intros seen. cbn. lia. }
      split; [done|]. apply Forall_forall. intros later Hlater.
      rewrite Forall_forall in Hfirst, Hnext.
      specialize (Hfirst later Hlater). specialize (Hnext later Hlater).
      cbn in *. lia. }
    cbn [walk queue output_lines count].
    destruct (next >=? depth); [by apply (IH next)|].
    destruct iterdir as [entries | | e]; [| |done].
    + pose proof (visit_ordered show_hidden next (sorted entries) _ Hpopped)
        as Hvisit.
      destruct (visit show_hidden next (sorted entries) _)
        as [st'|returned]; [by apply (IH next)|].
      by intros [= <-].
    + apply (IH next). destruct Hpopped as (_ & Hseen' & Hqueue' & Hnext').
      unfold level_ordered. cbn [output_lines queue] in *. split.
      { rewrite levels_app. by apply sorted_snoc. }
      split; [|done]. rewrite levels_app. apply Forall_app.
      split; [done|]. by repeat constructor.
Qed.

(** X23. [list_dir] lists breadth first: in the lines the walk returns,
    which are the lines of the output, the levels never go down. The
    entries of a directory therefore come after all entries of the levels
    above it, and not under the line of the directory itself. *)
Theorem list_dir_level_order (fuel : nat) (resolve : result Root)
    (root : Root) (depth : Z) (show_hidden : bool) :
  directory resolve root -> 1 <= depth -> (enough root <= fuel)%nat ->
  (exists e,
     list_dir fuel resolve depth show_hidden
     = Some ("⚠️ 列目录失败：" +:+ exn_str e))
  \/ exists lines,
       walk fuel depth show_hidden
         {| output_lines := [RootLine (root_str root)];
            queue := [(root_str root, root_iterdir root, 0)];
            count := 0 |} = Some (Ok lines)
       /\ list_dir fuel resolve depth show_hidden
          = Some (join nl (map render lines))
       /\ StronglySorted Z.le (levels lines).
Proof.
  intros (-> & Hexists & Hdir) Hdepth Hfuel.
  unfold list_dir. rewrite Hexists, Hdir.
  destruct (Z.ltb_spec depth 1) as [?|_]; [lia|].
  set (start := {| output_lines := [RootLine (root_str root)];
                   queue := [(root_str root, root_iterdir root, 0)];
                   count := 0 |}).
  destruct (walk_tidy depth show_hidden (root_str root) fuel start)
    as (r & Hwalk & _).
  - exists []. cbn [output_lines count queue]. split; [done|].
    split; [done|]. split; [done|]. split; [done|].
    by constructor.
  - unfold enough in Hfuel. subst start. cbn [queue].
    change (queue_weight [(root_str root, root_iterdir root, 0)])
      with (S (dirs_under (root_iterdir root)) + 0)%nat.
    lia.
  - rewrite Hwalk. destruct r as [lines|e]; [right | left; by exists e].
    exists lines. split; [done|]. split; [done|].
    apply (walk_ordered depth show_hidden fuel 0 start); [|done].
    split; [constructor|]. split; [constructor|].
    split; [by repeat constructor|]. by repeat constructor.
Qed.

End LevelOrder.

(** X23, witness: in the sample project the file of the subdirectory
    comes after the files of the root. *)
Lemma list_dir_level_order_witness :
  ListDir.list_dir 2 (Ok ToolSample.project) 2 false
  = Some ("📂 /srv/project" +:+ nl +:+ "  📁 src" +:+ nl +:+ "  📄 A.md"
          +:+ nl +:+ "  📄 b.txt" +:+ nl +:+ "    📄 main.py").
Proof.
  assert (ListDir.directory (Ok ToolSample.project) ToolSample.project)
    as Hdir by (repeat split; reflexivity).
  assert (ListDir.enough ToolSample.project <= 2)%nat
    as Hfuel by (vm_compute; lia).
  destruct (list_dir_level_order 2 (Ok ToolSample.project)
              ToolSample.project 2 false Hdir ltac:(lia) Hfuel)
    as [(e & Hfailed)|(lines & Hwalk & -> & _)].
  - vm_compute in Hfailed. discriminate Hfailed.
  - vm_compute in Hwalk. injection Hwalk as <-. vm_compute. reflexivity.
Defined.
